(** * CryptoRadar: polling modules, alert evaluation and level ranking

    Shallow embedding of the React modules of the dashboard
    (support/resistance levels, liquidity clusters, whale alerts and manual
    price alerts) together with the event loop that drives their polling.

    Conventions of the embedding:
    - a JavaScript number that is known to be finite is an exact rational
      ([Q]); binary64 rounding is not modelled.  Where a number may be [NaN]
      or infinite (the result of [parseFloat]) the type [number] is used;
    - [Math.random()] is an oracle [random : nat -> Q]; the effectful code
      threads the count of draws made so far (monad [Rand]);
    - [new Date()] / [Date.now()] read a clock value passed explicitly;
    - the text produced by [toFixed(2)] is represented by the decimal it
      denotes;
    - the asynchronous part (timers, pending requests) is a labelled step
      function over browser events, with the life of the component (it is
      mounted, then unmounted once) on top of it. *)

From Stdlib Require Import ZArith QArith Qround Qminmax Qabs Lia Lqa Bool List String.
From Stdlib Require Import Permutation Sorted.
Import ListNotations.

Local Open Scope Z_scope.
Local Open Scope Q_scope.

(** ** JavaScript prelude *)

Module JS.

(** A JavaScript number whose finiteness is not known statically. *)
Inductive number : Type :=
| NaN
| NegInfinity
| Fin (q : Q)
| PosInfinity.

Definition isNaN (x : number) : bool :=
  match x with NaN => true | _ => false end.

Definition Qltb (x y : Q) : bool := negb (Qle_bool y x).

(** [x <= y] on numbers: false as soon as one side is [NaN]. *)
Definition leb (x y : number) : bool :=
  match x, y with
  | NaN, _ | _, NaN => false
  | NegInfinity, _ => true
  | _, PosInfinity => true
  | Fin a, Fin b => Qle_bool a b
  | Fin _, NegInfinity => false
  | PosInfinity, _ => false
  end.

(** [x >= y] on numbers. *)
Definition geb (x y : number) : bool := leb y x.

(** The value read from a property of a JSON body that is expected to hold
    a number: [undefined] when the property is missing, [null], or a finite
    number (JSON has no literal for NaN or the infinities). *)
Inductive field : Type :=
| Absent
| Null
| Num (q : Q).

(** [f || d] for a field [f] and a finite non-zero default [d]: the default
    replaces every falsy value ([undefined], [null], [0]). *)
Definition orElse (f : field) (d : Q) : Q :=
  match f with
  | Num q => if Qeq_bool q 0 then d else q
  | Absent | Null => d
  end.

(** [response.data] of the endpoints: either nullish (reading a property of
    it throws a TypeError) or a value with properties.  A primitive body
    (for instance text that is not JSON) behaves as an object without
    properties. *)
Record object : Type := mkObject {
  currentPrice : field;   (* read by the level, cluster and pattern modules *)
  price : field           (* read by the price alert module *)
}.

Inductive body : Type :=
| Nullish
| Obj (o : object).

(** Outcome of [await axios.get(url)], for a body of type [B]. *)
Inductive response (B : Type) : Type :=
| Rejected                 (* network error or non-2xx status: the await throws *)
| Resolved (data : B).

Arguments Rejected {B}.
Arguments Resolved {B} data.

Inductive exn : Type := TypeError | RequestError.

(** [Math.round]: nearest integer, halves towards +infinity. *)
Definition Math_round (x : Q) : Z := Qfloor (x + (1 # 2)).

Definition Math_floor (x : Q) : Z := Qfloor x.

Definition Math_min (x y : Q) : Q := Qmin x y.

(** [x.toFixed(2)], as the decimal denoted by the resulting text: the
    magnitude is rounded to the nearest hundredth (the larger one on a tie)
    and the sign of [x] is kept. *)
Definition toFixed2 (x : Q) : Q :=
  if Qltb x 0
  then - (inject_Z (Qfloor ((- x) * 100 + (1 # 2))) / 100)
  else inject_Z (Qfloor (x * 100 + (1 # 2))) / 100.

(** [Array.prototype.sort(cmp)]: the sort is stable and, for a consistent
    comparator, the result is the unique stable arrangement in which [a]
    precedes [b] whenever [cmp(a, b) < 0].  It is computed here by stable
    insertion from the right. *)
Section Sort.
Context {A : Type} (cmp : A -> A -> Q).

Fixpoint insert (x : A) (l : list A) : list A :=
  match l with
  | [] => [x]
  | y :: l' => if Qle_bool (cmp x y) 0 then x :: y :: l' else y :: insert x l'
  end.

Fixpoint sort (l : list A) : list A :=
  match l with
  | [] => []
  | x :: l' => insert x (sort l')
  end.
End Sort.

(** [a.slice(0, n)]. *)
Definition slice0 {A : Type} (n : nat) (l : list A) : list A := firstn n l.

(** The monad of computations that call [Math.random()]: the state is the
    number of draws made so far. *)
Definition Rand (A : Type) : Type := nat -> A * nat.

Definition ret {A} (a : A) : Rand A := fun n => (a, n).

Definition bind {A B} (m : Rand A) (k : A -> Rand B) : Rand B :=
  fun n => let (a, n') := m n in k a n'.

(** [Math.random()] against the oracle [random]: the next draw. *)
Definition Math_random (random : nat -> Q) : Rand Q :=
  fun n => (random n, S n).

End JS.

Import JS.

Declare Scope rand_scope.
Delimit Scope rand_scope with rand.
Notation "x <- m ;; k" := (bind m (fun x => k))
  (at level 61, m at next level, right associativity) : rand_scope.
Local Open Scope rand_scope.

(** Monadic traversal: [l.map(f)] when [f] draws random numbers, and the
    counted loops [for (let i = 0; i < n; i++) out.push(f(i))] taken over
    [seq 0 n]. *)
Fixpoint mapM {A B : Type} (f : A -> Rand B) (l : list A) : Rand (list B) :=
  match l with
  | [] => ret []
  | a :: l' => b <- f a ;; bs <- mapM f l' ;; ret (b :: bs)
  end.

(** ** Support and resistance levels (crypto-radar-support-resistance.js) *)

Module SupportResistance.

Inductive levelType : Type := support | resistance.

Record level : Type := mkLevel {
  price : Q;
  reliability : Z;
  distance : Q;              (* distance.toFixed(2) *)
  timesTested : Z;
  isTrap : bool;
  trapReason : option string
}.

Record levelSets : Type := mkLevels {
  supports : list level;
  resistances : list level
}.

Record state : Type := mkState {
  levels : levelSets;
  isLive : bool;
  selectedTimeframe : string;
  lastUpdated : option Z;
  currentPrice : option Q
}.

Definition initial : state :=
  mkState (mkLevels [] []) true "4H" None None.

Definition reasons (type : levelType) : list string :=
  match type with
  | support =>
      [ "Volume in calo durante i test";
        "Livello testato troppe volte in poco tempo";
        "Presenza di un gap di prezzo appena sotto";
        "Pattern di divergenza con RSI" ]
  | resistance =>
      [ "Basso volume durante i rimbalzi";
        "Formazione di pinbar al test";
        "Livello non testato da lungo tempo";
        "Divergenza nascosta con oscillatori" ]
  end%string.

(** The comparator of both rankings: [(a, b) => b.reliability - a.reliability]. *)
Definition byReliability (a b : level) : Q :=
  inject_Z (reliability b) - inject_Z (reliability a).

Section WithRandom.
Variable random : nat -> Q.
Abbreviation Math_random := (JS.Math_random random).

Definition calculateReliability (levelPrice currentPrice : Q) (type : levelType)
  : Rand Z :=
  let isRoundNumber :=
    (Math_round (levelPrice / 1000) * 1000 =? Math_round levelPrice)%Z in
  let isPsychologicalLevel :=
    isRoundNumber
    || (Math_round (levelPrice / 500) * 500 =? Math_round levelPrice)%Z in
  r <- Math_random ;;
  let baseReliability := r * 50 + 30 in
  let baseReliability :=
    if isPsychologicalLevel
    then Math_min (baseReliability * (125 # 100)) 100
    else baseReliability in
  ret (Math_round baseReliability).

Definition generateTrapReason (type : levelType) : Rand (option string) :=
  r <- Math_random ;;
  ret (nth_error (reasons type)
         (Z.to_nat (Math_floor (r * inject_Z (Z.of_nat (List.length (reasons type))))))).

(** One iteration of the loop that fills [supports]. *)
Definition mockSupport (currentPrice : Q) (i : nat) : Rand level :=
  r <- Math_random ;;
  let deviation := (r * (12 # 100) + (2 # 100)) * currentPrice in
  let price := currentPrice - deviation in
  reliability <- calculateReliability price currentPrice support ;;
  let distance := ((currentPrice - price) / currentPrice) * 100 in
  t <- Math_random ;;
  let isTrap := Qltb (7 # 10) t in
  n <- Math_random ;;
  trapReason <- (if isTrap then generateTrapReason support else ret None) ;;
  ret (mkLevel price reliability (toFixed2 distance)
         (Math_floor (n * 5) + 1)%Z isTrap trapReason).

(** One iteration of the loop that fills [resistances]. *)
Definition mockResistance (currentPrice : Q) (i : nat) : Rand level :=
  r <- Math_random ;;
  let deviation := (r * (12 # 100) + (2 # 100)) * currentPrice in
  let price := currentPrice + deviation in
  reliability <- calculateReliability price currentPrice resistance ;;
  let distance := ((price - currentPrice) / currentPrice) * 100 in
  t <- Math_random ;;
  let isTrap := Qltb (7 # 10) t in
  n <- Math_random ;;
  trapReason <- (if isTrap then generateTrapReason resistance else ret None) ;;
  ret (mkLevel price reliability (toFixed2 distance)
         (Math_floor (n * 5) + 1)%Z isTrap trapReason).

(** The candidate levels, before ranking: four of each kind. *)
Definition candidates (data : object) : Rand (list level * list level) :=
  let currentPrice := orElse (JS.currentPrice data) 65000 in
  supports <- mapM (mockSupport currentPrice) (seq 0 4) ;;
  resistances <- mapM (mockResistance currentPrice) (seq 0 4) ;;
  ret (supports, resistances).

Definition processLevelsData (data : object) : Rand levelSets :=
  c <- candidates data ;;
  let sortedSupports := slice0 2 (sort byReliability (fst c)) in
  let sortedResistances := slice0 2 (sort byReliability (snd c)) in
  ret (mkLevels sortedSupports sortedResistances).

(** The body of the [try] block of [fetchSupportResistanceLevels], from the
    point where the awaited request settles.  The component state is
    paired with the number of random draws made so far. *)
Definition try_fetch (now : Z) (r : response body) (sn : state * nat)
  : exn + state * nat :=
  let (s, n) := sn in
  match r with
  | Rejected => inl RequestError
  | Resolved Nullish => inl TypeError       (* data.currentPrice on a nullish body *)
  | Resolved (Obj data) =>
      let (processedLevels, n') := processLevelsData data n in
      inr (mkState processedLevels
             true
             (selectedTimeframe s)
             (Some now)
             (Some (orElse (JS.currentPrice data) 65000)),
           n')
  end.

Definition fetchSupportResistanceLevels (now : Z) (r : response body)
  (sn : state * nat) : state * nat :=
  match try_fetch now r sn with
  | inr sn' => sn'
  | inl _ =>
      let (s, n) := sn in
      (mkState (levels s) false (selectedTimeframe s) (lastUpdated s)
         (currentPrice s), n)
  end.

(** The states reached by a series of settled requests, each with the time
    at which it settles: one state per request. *)
Fixpoint fetchAll (rs : list (Z * response body)) (sn : state * nat)
  : list (state * nat) :=
  match rs with
  | [] => []
  | (now, r) :: rs' =>
      let sn' := fetchSupportResistanceLevels now r sn in
      sn' :: fetchAll rs' sn'
  end.

End WithRandom.

Definition handleTimeframeChange (value : string) (s : state) : state :=
  mkState (levels s) (isLive s) value (lastUpdated s) (currentPrice s).

(** Vertical position of a level marker on the price scale, in percent from
    the top; [parseFloat(level.distance)] is the decimal that the text of
    the distance denotes. *)
Definition resistancePosition (l : level) : Q :=
  50 - Math_min (distance l) 15 * 3.

Definition supportPosition (l : level) : Q :=
  50 + Math_min (distance l) 15 * 3.

(** Width of a marker, [Math.max(30, level.reliability)], and its opacity. *)
Definition markerWidth (l : level) : Z := Z.max 30 (reliability l).

Definition markerOpacity (l : level) : Q := inject_Z (reliability l) / 100.

(** Refresh period passed to [setInterval]: 15 minutes. *)
Definition period : Z := 900000.

End SupportResistance.

(** ** Liquidity clusters (LiquidityClusters module) *)

Module LiquidityClusters.

Inductive clusterType : Type := support | resistance.

Definition clusterType_eqb (a b : clusterType) : bool :=
  match a, b with
  | support, support | resistance, resistance => true
  | _, _ => false
  end.

Record cluster : Type := mkCluster {
  price : Q;
  strength : Z;
  type : clusterType;
  distance : Q;              (* distance.toFixed(2) *)
  isPsychologicalLevel : bool
}.

Record state : Type := mkState {
  clusters : list cluster;
  isLive : bool;
  selectedTimeframe : string;
  lastUpdated : option Z;
  currentPrice : option Q
}.

Definition initial : state := mkState [] true "24h" None None.

(** First [switch (timeframe)]: how many clusters are generated. *)
Definition numClusters (timeframe : string) : nat :=
  if String.eqb timeframe "24h" then 6
  else if String.eqb timeframe "3D" then 8
  else if String.eqb timeframe "1W" then 10
  else 6.

(** Comparator of [clustersPricePoints.sort((a, b) => a - b)]. *)
Definition ascending (a b : Q) : Q := a - b.

(** Comparator of the two rendered rankings:
    [(a, b) => parseFloat(b.strength) - parseFloat(a.strength)];
    [strength] is an integer, which [parseFloat] returns unchanged. *)
Definition byStrength (a b : cluster) : Q :=
  inject_Z (strength b) - inject_Z (strength a).

Section WithRandom.
Variable random : nat -> Q.
Abbreviation Math_random := (JS.Math_random random).

(** One iteration of the loop that fills [clustersPricePoints]. *)
Definition pricePoint (currentPrice : Q) (i : nat) : Rand Q :=
  r <- Math_random ;;
  let deviation := (r * (15 # 100) + (1 # 100)) * currentPrice in
  ret (if (Nat.modulo i 2 =? 0)%nat
       then currentPrice + deviation
       else currentPrice - deviation).

(** Second [switch (timeframe)]: the base strength. *)
Definition baseStrength (timeframe : string) : Rand Q :=
  r <- Math_random ;;
  ret (if String.eqb timeframe "24h" then r * 40 + 20
       else if String.eqb timeframe "3D" then r * 50 + 30
       else if String.eqb timeframe "1W" then r * 60 + 40
       else r * 40 + 20).

(** The callback of [clustersPricePoints.map]. *)
Definition toCluster (currentPrice : Q) (timeframe : string) (price : Q)
  : Rand cluster :=
  let isRoundNumber :=
    (Math_round (price / 1000) * 1000 =? Math_round price)%Z in
  let isPsychologicalLevel :=
    isRoundNumber || (Math_round (price / 500) * 500 =? Math_round price)%Z in
  baseStrength <- baseStrength timeframe ;;
  let strength :=
    if isPsychologicalLevel
    then Math_min (baseStrength * (15 # 10)) 100
    else baseStrength in
  let distance := ((price - currentPrice) / currentPrice) * 100 in
  let type := if Qltb price currentPrice then support else resistance in
  ret (mkCluster price (Math_round strength) type (toFixed2 distance)
         isPsychologicalLevel).

Definition processClusterData (data : object) (timeframe : string)
  : Rand (list cluster) :=
  let currentPrice := orElse (JS.currentPrice data) 65000 in
  clustersPricePoints <-
    mapM (pricePoint currentPrice) (seq 0 (numClusters timeframe)) ;;
  mapM (toCluster currentPrice timeframe) (sort ascending clustersPricePoints).

(** The [try] block of [fetchLiquidityClusters] once the request has
    settled.  [timeframe] is the [selectedTimeframe] of the render in which
    the effect ran: the function closes over it, so a response is processed
    with the timeframe of its request, whatever the state cell holds when
    it arrives. *)
Definition try_fetch (timeframe : string) (now : Z) (r : response body)
  (sn : state * nat) : exn + state * nat :=
  let (s, n) := sn in
  match r with
  | Rejected => inl RequestError
  | Resolved Nullish => inl TypeError
  | Resolved (Obj data) =>
      let (processedClusters, n') := processClusterData data timeframe n in
      inr (mkState processedClusters
             true
             (selectedTimeframe s)
             (Some now)
             (Some (orElse (JS.currentPrice data) 65000)),
           n')
  end.

Definition fetchLiquidityClusters (timeframe : string) (now : Z)
  (r : response body) (sn : state * nat) : state * nat :=
  match try_fetch timeframe now r sn with
  | inr sn' => sn'
  | inl _ =>
      let (s, n) := sn in
      (mkState (clusters s) false (selectedTimeframe s) (lastUpdated s)
         (currentPrice s), n)
  end.

(** The states reached by a series of settled requests, each with the
    timeframe of its request and the time at which it settles. *)
Fixpoint fetchAll (rs : list (string * Z * response body)) (sn : state * nat)
  : list (state * nat) :=
  match rs with
  | [] => []
  | (timeframe, now, r) :: rs' =>
      let sn' := fetchLiquidityClusters timeframe now r sn in
      sn' :: fetchAll rs' sn'
  end.

End WithRandom.

Definition handleTimeframeChange (value : string) (s : state) : state :=
  mkState (clusters s) (isLive s) value (lastUpdated s) (currentPrice s).

(** Vertical position of a cluster marker on the price scale, in percent
    from the top; [parseFloat(cluster.distance)] is the decimal that the
    text of the distance denotes. *)
Definition positionPercent (c : cluster) : Q :=
  match type c with
  | resistance => 50 - Math_min (Qabs (distance c)) 20 * (25 # 10)
  | support => 50 + Math_min (Qabs (distance c)) 20 * (25 # 10)
  end.

(** Width of a marker, [Math.max(30, cluster.strength)], and its opacity. *)
Definition markerWidth (c : cluster) : Z := Z.max 30 (strength c).

Definition markerOpacity (c : cluster) : Q := inject_Z (strength c) / 100.

(** The two rankings computed on every render, and the rows shown. *)
Definition ofType (t : clusterType) (cs : list cluster) : list cluster :=
  filter (fun c => clusterType_eqb (type c) t) cs.

Definition supportClusters (s : state) : list cluster :=
  sort byStrength (ofType support (clusters s)).

Definition resistanceClusters (s : state) : list cluster :=
  sort byStrength (ofType resistance (clusters s)).

Definition shownSupports (s : state) : list cluster :=
  slice0 3 (supportClusters s).

Definition shownResistances (s : state) : list cluster :=
  slice0 3 (resistanceClusters s).

Definition period : Z := 300000.

End LiquidityClusters.

(** ** Whale alerts (script.js) *)

Module WhaleAlerts.

Record transaction : Type := mkTransaction {
  t_id : Z;
  t_timestamp : Z;
  t_exchange : string;
  t_amount : Q;
  t_price : Q;
  t_type : string
}.

Inductive signalType : Type := LONG | SHORT.

Record whaleAlert : Type := mkWhaleAlert {
  id : Z;
  timestamp : Z;
  exchange : string;
  amount : Q;
  price : Q;
  signal : signalType;
  confidence : Z;
  targetPrice : Q;
  confirmations : Z
}.

(** [response.data]: [data.map] throws unless the body is an array. *)
Inductive body : Type :=
| NotArray
| Array (transactions : list transaction).

Record state : Type := mkState {
  whaleAlerts : list whaleAlert;
  isLive : bool;
  lastUpdated : option Z
}.

Definition initial : state := mkState [] true None.

Definition EXCHANGES : list string :=
  ["Binance"; "OKX"; "Bybit"; "Kucoin"; "Bitget"]%string.

Definition REFRESH_INTERVAL : Z := 60000.

Definition determineSignalType (transaction : transaction) : signalType :=
  if String.eqb (t_type transaction) "buy" then LONG else SHORT.

(** Comparator [(a, b) => b.timestamp - a.timestamp]. *)
Definition mostRecentFirst (a b : whaleAlert) : Q :=
  inject_Z (timestamp b) - inject_Z (timestamp a).

Section WithRandom.
Variable random : nat -> Q.
Abbreviation Math_random := (JS.Math_random random).

Definition countConfirmations (transaction : transaction)
  (exchanges : list string) : Rand Z :=
  r <- Math_random ;;
  ret (Math_floor (r * 5) + 1)%Z.

Definition calculateConfidence (transaction : transaction)
  (exchanges : list string) : Rand Z :=
  confirmedExchanges <- countConfirmations transaction exchanges ;;
  ret (Z.min (confirmedExchanges * 20) 100).

Definition estimateTargetPrice (transaction : transaction)
  (signalType : signalType) : Rand Q :=
  r <- Math_random ;;
  let movementPercent := (r * 3 + 2) / 100 in
  ret (match signalType with
       | LONG => t_price transaction * (1 + movementPercent)
       | SHORT => t_price transaction * (1 - movementPercent)
       end).

Definition toAlert (transaction : transaction) : Rand whaleAlert :=
  let signalType := determineSignalType transaction in
  confidence <- calculateConfidence transaction EXCHANGES ;;
  targetPrice <- estimateTargetPrice transaction signalType ;;
  confirmations <- countConfirmations transaction EXCHANGES ;;
  ret (mkWhaleAlert (t_id transaction) (t_timestamp transaction)
         (t_exchange transaction) (t_amount transaction)
         (t_price transaction) signalType confidence targetPrice
         confirmations).

Definition processWhaleAlerts (data : list transaction)
  : Rand (list whaleAlert) :=
  alerts <- mapM toAlert data ;;
  ret (sort mostRecentFirst alerts).

Definition try_fetch (now : Z) (r : response body) (sn : state * nat)
  : exn + state * nat :=
  let (s, n) := sn in
  match r with
  | Rejected => inl RequestError
  | Resolved NotArray => inl TypeError
  | Resolved (Array data) =>
      let (processedAlerts, n') := processWhaleAlerts data n in
      inr (mkState processedAlerts true (Some now), n')
  end.

Definition fetchWhaleAlerts (now : Z) (r : response body)
  (sn : state * nat) : state * nat :=
  match try_fetch now r sn with
  | inr sn' => sn'
  | inl _ =>
      let (s, n) := sn in
      (mkState (whaleAlerts s) false (lastUpdated s), n)
  end.

End WithRandom.

End WhaleAlerts.

(** ** Manual price alerts (crypto-radar-price-alert.js) *)

Module PriceAlert.

Inductive direction : Type := above | below.

Inductive soundName : Type := alarm1 | alarm2 | alarm3 | alarm4.

Record alert : Type := mkAlert {
  id : Z;
  price : number;
  type : direction;
  sound : soundName;
  created : Z;
  triggered : bool;
  triggeredAt : option Z
}.

Record state : Type := mkState {
  alerts : list alert;
  isLive : bool;
  currentPrice : option Q;
  lastUpdated : option Z;
  alertPrice : string;
  alertType : direction;
  alertSound : soundName;
  testingSound : bool
}.

Definition initial : state :=
  mkState [] true None None "" above alarm1 false.

Definition setAlerts (f : list alert -> list alert) (s : state) : state :=
  mkState (f (alerts s)) (isLive s) (currentPrice s) (lastUpdated s)
    (alertPrice s) (alertType s) (alertSound s) (testingSound s).

Definition setIsLive (b : bool) (s : state) : state :=
  mkState (alerts s) b (currentPrice s) (lastUpdated s)
    (alertPrice s) (alertType s) (alertSound s) (testingSound s).

Definition setCurrentPrice (p : Q) (s : state) : state :=
  mkState (alerts s) (isLive s) (Some p) (lastUpdated s)
    (alertPrice s) (alertType s) (alertSound s) (testingSound s).

Definition setLastUpdated (t : Z) (s : state) : state :=
  mkState (alerts s) (isLive s) (currentPrice s) (Some t)
    (alertPrice s) (alertType s) (alertSound s) (testingSound s).

Definition setAlertPrice (v : string) (s : state) : state :=
  mkState (alerts s) (isLive s) (currentPrice s) (lastUpdated s)
    v (alertType s) (alertSound s) (testingSound s).

(** The two directional tests of [checkAlerts]. *)
Definition shouldTrigger (price : Q) (a : alert) : bool :=
  match type a with
  | above => geb (Fin price) (PriceAlert.price a)
  | below => leb (Fin price) (PriceAlert.price a)
  end.

Section WithAudio.
(** [audioElements[name].current] is an element (not [null]). *)
Variable audioElements : soundName -> bool.

(** The callback of [prevAlerts.map] in [checkAlerts]; the second
    component lists the sounds on which [play()] is called. *)
Definition checkAlert (now : Z) (price : Q) (a : alert)
  : alert * list soundName :=
  if negb (triggered a) then
    if shouldTrigger price a then
      (mkAlert (id a) (PriceAlert.price a) (type a) (sound a) (created a)
         true (Some now),
       if audioElements (sound a) then [sound a] else [])
    else (a, [])
  else (a, []).

Fixpoint checkAll (now : Z) (price : Q) (l : list alert)
  : list alert * list soundName :=
  match l with
  | [] => ([], [])
  | a :: l' =>
      let (a', played) := checkAlert now price a in
      let (l'', played') := checkAll now price l' in
      (a' :: l'', played ++ played')
  end.

(** [checkAlerts(price)]: the new state and the sounds played. *)
Definition checkAlerts (now : Z) (price : Q) (s : state)
  : state * list soundName :=
  let (l, played) := checkAll now price (alerts s) in
  (setAlerts (fun _ => l) s, played).

(** The [try] block of [fetchCurrentPrice] once the request has settled.
    The state is paired with the log of the sounds played so far. *)
Definition try_fetch (now : Z) (r : response body)
  (sl : state * list soundName) : exn + state * list soundName :=
  let (s, log) := sl in
  match r with
  | Rejected => inl RequestError
  | Resolved Nullish => inl TypeError         (* data.price on a nullish body *)
  | Resolved (Obj data) =>
      let s1 := setCurrentPrice (orElse (JS.price data) 65000) s in
      let s2 := setLastUpdated now s1 in
      let s3 := setIsLive true s2 in
      let (s4, played) := checkAlerts now (orElse (JS.price data) 65000) s3 in
      inr (s4, log ++ played)
  end.

Definition fetchCurrentPrice (now : Z) (r : response body)
  (sl : state * list soundName) : state * list soundName :=
  match try_fetch now r sl with
  | inr sl' => sl'
  | inl _ => let (s, log) := sl in (setIsLive false s, log)
  end.

End WithAudio.

Section WithParseFloat.
(** The global [parseFloat] of the JavaScript runtime. *)
Variable parseFloat : string -> number.

(** [handleAddAlert]: the new state, and the text of the dialog shown by
    [alert(...)] when the input is rejected. *)
Definition handleAddAlert (now : Z) (s : state) : state * option string :=
  let priceValue := parseFloat (alertPrice s) in
  if isNaN priceValue || leb priceValue (Fin 0) then
    (s, Some "Per favore inserisci un prezzo valido"%string)
  else
    let newAlert :=
      mkAlert now priceValue (alertType s) (alertSound s) now false None in
    (setAlertPrice "" (setAlerts (fun prevAlerts => prevAlerts ++ [newAlert]) s),
     None).
End WithParseFloat.

Definition handleDeleteAlert (id : Z) (s : state) : state :=
  setAlerts (filter (fun alert => negb (PriceAlert.id alert =? id)%Z)) s.

Definition setTestingSound (b : bool) (s : state) : state :=
  mkState (alerts s) (isLive s) (currentPrice s) (lastUpdated s)
    (alertPrice s) (alertType s) (alertSound s) b.

(** The page as far as the sound test is concerned: the state cells and the
    audio elements that carry the [onended] handler set by a test. *)
Record page : Type := mkPage {
  cells : state;
  onended : list soundName
}.

Definition soundName_eqb (a b : soundName) : bool :=
  match a, b with
  | alarm1, alarm1 | alarm2, alarm2 | alarm3, alarm3 | alarm4, alarm4 => true
  | _, _ => false
  end.

Section WithAudioElements.
Variable audioElements : soundName -> bool.

(** [handleTestSound(sound)]: the page afterwards and the sounds played. *)
Definition handleTestSound (sound : soundName) (p : page)
  : page * list soundName :=
  let s := setTestingSound true (cells p) in
  if audioElements sound
  then (mkPage s (sound :: onended p), [sound])
  else (mkPage s (onended p), []).

(** The element of [sound] finishes playing: its [onended] handler, when
    one was set, runs. *)
Definition ended (sound : soundName) (p : page) : page :=
  if existsb (soundName_eqb sound) (onended p)
  then mkPage (setTestingSound false (cells p)) (onended p)
  else p.
End WithAudioElements.

Section FetchSeries.
Variable audioElements : soundName -> bool.

(** A series of settled requests, each with the time at which it settles:
    the state and the log of sounds after the last one. *)
Definition fetchSeries (rs : list (Z * response body))
  (sl : state * list soundName) : state * list soundName :=
  fold_left (fun sl nr => fetchCurrentPrice audioElements (fst nr) (snd nr) sl)
    rs sl.
End FetchSeries.

(** The refs of the component once it is unmounted: React has reset every
    one of them to [null]. *)
Definition detached : soundName -> bool := fun _ => false.

Definition period : Z := 30000.

End PriceAlert.

(** ** Pattern recognition (second module of crypto-radar-support-resistance.js) *)

Module PatternRecognition.

Inductive direction : Type := LONG | SHORT.

Record template : Type := mkTemplate {
  name : string;
  type : string;
  direction_ : direction;
  description : string;
  targetRange : Z * Z;
  reliabilityRange : Z * Z;
  screenshotUrl : string
}.

(** A detected pattern: the fields of its template ([...template]) and the
    values drawn for it. *)
Record pattern : Type := mkPattern {
  template_ : template;
  targetPercent : Q;         (* the text of toFixed(1), as the decimal it denotes *)
  targetPrice : Q;
  reliability : Z;
  detectedAt : Z
}.

Definition patternTemplates : list template :=
  [
    mkTemplate "Doppio Massimo" "reversal" SHORT
      "Due massimi alla stessa altezza indicano esaurimento del trend rialzista"
      (2, 5)%Z (60, 90)%Z
      "https://example.com/patterns/double-top.png";
    mkTemplate "Testa e Spalle" "reversal" SHORT
      "Formazione con tre massimi, quello centrale più alto, indica inversione ribassista"
      (4, 7)%Z (70, 95)%Z
      "https://example.com/patterns/head-shoulders.png";
    mkTemplate "Doppio Minimo" "reversal" LONG
      "Due minimi alla stessa altezza indicano esaurimento del trend ribassista"
      (2, 5)%Z (60, 90)%Z
      "https://example.com/patterns/double-bottom.png";
    mkTemplate "Testa e Spalle Inverso" "reversal" LONG
      "Formazione con tre minimi, quello centrale più basso, indica inversione rialzista"
      (4, 7)%Z (70, 95)%Z
      "https://example.com/patterns/inverse-head-shoulders.png";
    mkTemplate "Triangolo Ascendente" "continuation" LONG
      "Pattern di consolidamento con massimi piatti e minimi crescenti"
      (3, 6)%Z (65, 85)%Z
      "https://example.com/patterns/ascending-triangle.png";
    mkTemplate "Bandiera Ribassista" "continuation" SHORT
      "Breve consolidamento controtendenza in un trend ribassista"
      (2, 4)%Z (60, 80)%Z
      "https://example.com/patterns/bearish-flag.png";
    mkTemplate "Canale Discendente" "continuation" SHORT
      "Prezzo che si muove in un canale con pendenza negativa"
      (2, 5)%Z (55, 75)%Z
      "https://example.com/patterns/descending-channel.png";
    mkTemplate "Engulfing Rialzista" "candlestick" LONG
      "Candela rialzista che ingloba completamente la candela ribassista precedente"
      (1, 3)%Z (50, 75)%Z
      "https://example.com/patterns/bullish-engulfing.png";
    mkTemplate "Evening Star" "candlestick" SHORT
      "Pattern a tre candele che indica esaurimento del trend rialzista"
      (2, 4)%Z (65, 85)%Z
      "https://example.com/patterns/evening-star.png";
    mkTemplate "Hammer" "candlestick" LONG
      "Candela con corpo piccolo e lunga shadow inferiore, indica inversione rialzista"
      (1, 3)%Z (45, 70)%Z
      "https://example.com/patterns/hammer.png";
    mkTemplate "Three Black Crows" "candlestick" SHORT
      "Tre candele ribassiste consecutive, indica forte pressione di vendita"
      (3, 5)%Z (70, 90)%Z
      "https://example.com/patterns/three-black-crows.png"
  ]%string.

(** [x.toFixed(1)], as the decimal denoted by the resulting text. *)
Definition toFixed1 (x : Q) : Q :=
  if Qltb x 0
  then - (inject_Z (Qfloor ((- x) * 10 + (1 # 2))) / 10)
  else inject_Z (Qfloor (x * 10 + (1 # 2))) / 10.

(** [a[i]]: [undefined] outside the array. *)
Definition at_index {A : Type} (l : list A) (i : Z) : option A :=
  if (i <? 0)%Z then None else nth_error l (Z.to_nat i).

(** How a run of the selection ends: with a value, with an exception, or
    not within the number of iterations allowed to the model. *)
Inductive outcome (A : Type) : Type :=
| Finished (a : A)
| Threw (e : exn)
| OutOfFuel.

Arguments Finished {A} a.
Arguments Threw {A} e.
Arguments OutOfFuel {A}.

(** Comparator [(a, b) => b.detectedAt - a.detectedAt]. *)
Definition newestFirst (a b : pattern) : Q :=
  inject_Z (detectedAt b) - inject_Z (detectedAt a).

Section WithRuntime.
Variable random : nat -> Q.
(** [clock k]: the time read by the [new Date()] of the pattern pushed at
    position [k]. *)
Variable clock : nat -> Z.
(** [minutesBefore t k]: the time value of a date created at [t] after
    [setMinutes(getMinutes() - k)]. *)
Variable minutesBefore : Z -> Z -> Z.
Abbreviation Math_random := (JS.Math_random random).

(** The body of the loop for an index that was not selected yet.  In the
    runtime the product and the sum are rounded, and a draw close to 1 can
    reach the upper end of a range; the properties proved of the patterns
    count the ends of the ranges in. *)
Definition detect (data : body) (position : nat) (template : template)
  : Rand (exn + pattern) :=
  r1 <- Math_random ;;
  let targetPercent :=
    toFixed1 (r1 * inject_Z (snd (targetRange template) - fst (targetRange template))
              + inject_Z (fst (targetRange template))) in
  r2 <- Math_random ;;
  let reliability :=
    Math_floor (r2 * inject_Z (snd (reliabilityRange template)
                               - fst (reliabilityRange template))
                + inject_Z (fst (reliabilityRange template))) in
  match data with
  | Nullish => ret (inl TypeError)        (* data.currentPrice on a nullish body *)
  | Obj data =>
      let currentPrice := orElse (JS.currentPrice data) 65000 in
      let targetPrice :=
        match direction_ template with
        | LONG => currentPrice * (1 + targetPercent / 100)
        | SHORT => currentPrice * (1 - targetPercent / 100)
        end in
      r3 <- Math_random ;;
      let detectedAt := minutesBefore (clock position) (Math_floor (r3 * 60)) in
      ret (inr (mkPattern template targetPercent targetPrice reliability
                  detectedAt))
  end.

(** The [while] loop, for at most [fuel] iterations. *)
Fixpoint select (fuel : nat) (data : body) (numPatterns : Z)
  (selectedIndices : list Z) (selectedPatterns : list pattern)
  : Rand (outcome (list pattern)) :=
  if (Z.of_nat (List.length selectedPatterns) <? numPatterns)%Z then
    match fuel with
    | O => ret OutOfFuel
    | S fuel' =>
        r <- Math_random ;;
        let randomIndex :=
          Math_floor (r * inject_Z (Z.of_nat (List.length patternTemplates))) in
        if negb (existsb (Z.eqb randomIndex) selectedIndices) then
          match at_index patternTemplates randomIndex with
          | None => ret (Threw TypeError)   (* template.targetRange on undefined *)
          | Some template =>
              p <- detect data (List.length selectedPatterns) template ;;
              match p with
              | inl e => ret (Threw e)
              | inr p =>
                  select fuel' data numPatterns (randomIndex :: selectedIndices)
                    (selectedPatterns ++ [p])
              end
          end
        else select fuel' data numPatterns selectedIndices selectedPatterns
    end
  else ret (Finished selectedPatterns).

Definition processPatternData (fuel : nat) (data : body)
  : Rand (outcome (list pattern)) :=
  r <- Math_random ;;
  let numPatterns := (Math_floor (r * 3) + 2)%Z in
  selected <- select fuel data numPatterns [] [] ;;
  ret (match selected with
       | Finished selectedPatterns =>
           Finished (sort newestFirst selectedPatterns)
       | Threw e => Threw e
       | OutOfFuel => OutOfFuel
       end).
End WithRuntime.


End PatternRecognition.

(** ** The polling loop shared by the modules

    Every module runs the same effect:
    [fetch(); const interval = setInterval(fetch, period);
     return () => clearInterval(interval);]
    where [fetch] is an async function that awaits the request and then runs
    its handler.  The browser delivers three kinds of event to it: the
    interval fires, a request settles, the cleanup of the effect runs. *)

Module Poller.

Section Loop.
Variables State R : Type.
(** What the async fetch function does once its request has settled. *)
Variable onSettled : Z -> R -> State -> State.
Variable period : Z.

Record world : Type := mkWorld {
  comp : State;              (* the state cells of the component *)
  nextTick : option Z;       (* the active interval and its next firing time *)
  pending : list nat;        (* requests in flight, oldest first *)
  started : nat              (* requests started so far *)
}.

Inductive event : Type :=
| Mount (t : Z)                      (* the effect runs at time t *)
| Tick                               (* the interval fires *)
| Settle (i : nat) (r : R) (t : Z)   (* request i settles with r at time t *)
| Cleanup.                           (* the function returned by the effect *)

(** Calling the async fetch function: it runs up to its [await]. *)
Definition startFetch (w : world) : world :=
  mkWorld (comp w) (nextTick w) (pending w ++ [started w]) (S (started w)).

Definition setInterval (t : Z) (w : world) : world :=
  mkWorld (comp w) (Some (t + period)%Z) (pending w) (started w).

Definition clearInterval (w : world) : world :=
  mkWorld (comp w) None (pending w) (started w).

Definition isPending (i : nat) (w : world) : bool :=
  existsb (Nat.eqb i) (pending w).

Definition step (w : world) (e : event) : world :=
  match e with
  | Mount t => setInterval t (startFetch w)
  | Tick =>
      match nextTick w with
      | Some t => setInterval t (startFetch w)
      | None => w                         (* a cleared interval never fires *)
      end
  | Settle i r t =>
      if isPending i w
      then mkWorld (onSettled t r (comp w)) (nextTick w)
             (filter (fun j => negb (Nat.eqb i j)) (pending w)) (started w)
      else w
  | Cleanup => clearInterval w
  end.

Definition run (w : world) (es : list event) : world := fold_left step es w.

Definition start (s : State) : world := mkWorld s None [] 0.

(** The events above reach a mounted component, and [Cleanup] is the cleanup
    that React runs before it runs the effect again.  React also unmounts a
    component, once: it runs the cleanup of the effect and resets the refs
    to [null].  The async functions that still wait for their request are
    not stopped: each runs to its end when the request settles, but React
    ignores the state setters called for an unmounted component.
    [onLate] is what such a late run leaves behind. *)
Variable onLate : Z -> R -> State -> State.

Record instance : Type := mkInstance {
  world_of : world;
  isMounted : bool
}.

Inductive lifeEvent : Type :=
| Event (e : event)                  (* an event of the loop *)
| Unmount.                           (* React unmounts the component *)

Definition deliver (c : instance) (e : lifeEvent) : instance :=
  if isMounted c then
    match e with
    | Event e => mkInstance (step (world_of c) e) true
    | Unmount => mkInstance (step (world_of c) Cleanup) false
    end
  else
    match e with
    | Event (Settle i r t) =>
        let w := world_of c in
        if isPending i w
        then mkInstance
               (mkWorld (onLate t r (comp w)) (nextTick w)
                  (filter (fun j => negb (Nat.eqb i j)) (pending w)) (started w))
               false
        else c
    | _ => c          (* no effect, interval or cleanup is left to run *)
    end.

Definition life (c : instance) (es : list lifeEvent) : instance :=
  fold_left deliver es c.
End Loop.

(** A run of a handler whose state setters are ignored: of the component
    state paired with what lies outside React (the position in the stream
    of random draws, the sounds played), only the second part changes. *)
Definition ignoringSetters {Cells Ext : Type}
  (handler : Cells * Ext -> Cells * Ext) (c : Cells * Ext) : Cells * Ext :=
  (fst c, snd (handler c)).

Arguments comp {State}.
Arguments nextTick {State}.
Arguments pending {State}.
Arguments started {State}.
Arguments Mount {R}.
Arguments Tick {R}.
Arguments Settle {R}.
Arguments Cleanup {R}.
Arguments step {State R}.
Arguments run {State R}.
Arguments start {State}.
Arguments startFetch {State}.
Arguments clearInterval {State}.
Arguments isPending {State}.
Arguments world_of {State}.
Arguments isMounted {State}.
Arguments mkInstance {State}.
Arguments Event {R}.
Arguments Unmount {R}.
Arguments deliver {State R}.
Arguments life {State R}.

End Poller.

(** ** Vocabulary of the statements *)

(** [a] ranks at least as high as [b] for the score [key]. *)
Definition outranks {A : Type} (key : A -> Z) (a b : A) : Prop :=
  (key a >= key b)%Z.

(** The oracle behaves like [Math.random()]: every draw lies in [0, 1). *)
Definition in_unit (random : nat -> Q) : Prop :=
  forall n, 0 <= random n /\ random n < 1.

(** The sign of a signed distance agrees with the side of the price. *)
Definition sign_matches (reference price distance : Q) : Prop :=
  (reference < price -> 0 < distance) /\ (price < reference -> distance < 0).

(** A generated price point: the reference moved up or down by 1 to 16
    percent of itself. *)
Definition offset (cp p : Q) : Prop :=
  exists r, 0 <= r /\ r < 1 /\
    (p == cp + (r * (15 # 100) + (1 # 100)) * cp
     \/ p == cp - (r * (15 # 100) + (1 # 100)) * cp).

(** Between two candidates of equal score, the one kept is never farther
    from the reference price than the one dropped. *)
Definition tie_goes_to_closer (candidates retained : list SupportResistance.level)
  : Prop :=
  forall r d,
    In r retained -> In d candidates -> ~ In d retained ->
    SupportResistance.reliability r = SupportResistance.reliability d ->
    Qabs (SupportResistance.distance r) <= Qabs (SupportResistance.distance d).

(** [retained] is the top [n] of [candidates] for the score [key]: sorted
    by descending score, never outranked by a dropped candidate, and among
    candidates of equal score the earliest ones of the original order. *)
Definition top_of {A : Type} (key : A -> Z) (n : nat)
  (candidates retained : list A) : Prop :=
  List.length retained = Nat.min n (List.length candidates)
  /\ StronglySorted (outranks key) retained
  /\ (exists discarded,
        Permutation candidates (retained ++ discarded)
        /\ forall r d, In r retained -> In d discarded -> (key d <= key r)%Z)
  /\ (forall k, exists m,
        filter (fun a => key a =? k)%Z retained
        = firstn m (filter (fun a => key a =? k)%Z candidates)).

(** [retained] is what a ranking for the score [key] may keep of
    [candidates]: it is in descending order of score, and it leaves behind
    only candidates that none of the retained ones is outranked by. *)
Definition retains {A : Type} (key : A -> Z) (candidates retained : list A)
  : Prop :=
  StronglySorted (outranks key) retained
  /\ exists discarded,
       Permutation candidates (retained ++ discarded)
       /\ forall r d, In r retained -> In d discarded -> (key d <= key r)%Z.

(** A settled request that makes the [try] block throw: the request was
    rejected, or the body is nullish and reading its property throws. *)
Definition failed (r : response JS.body) : bool :=
  match r with
  | Rejected | Resolved Nullish => true
  | Resolved (Obj _) => false
  end.

(** The values of a field that [||] replaces by its right operand. *)
Definition falsy (f : field) : bool :=
  match f with
  | Absent | Null => true
  | Num q => Qeq_bool q 0
  end.

(** A number strictly greater than zero ([NaN] is not). *)
Definition positive (x : number) : Prop :=
  match x with
  | Fin q => 0 < q
  | PosInfinity => True
  | NaN | NegInfinity => False
  end.

(** Events of a run: how many are ticks, and whether a cleanup or a new
    mount occurs. *)
Definition ticks {R : Type} (es : list (Poller.event R)) : Z :=
  Z.of_nat (List.length
    (filter (fun e => match e with Poller.Tick => true | _ => false end) es)).

Definition isCleanup {R : Type} (e : Poller.event R) : bool :=
  match e with Poller.Cleanup => true | _ => false end.

Definition isMount {R : Type} (e : Poller.event R) : bool :=
  match e with Poller.Mount _ => true | _ => false end.

(** The polling loops of the modules. *)
Definition levelsLoop (random : nat -> Q) :=
  Poller.run (SupportResistance.fetchSupportResistanceLevels random)
    SupportResistance.period.

Definition whaleLoop (random : nat -> Q) :=
  Poller.run (WhaleAlerts.fetchWhaleAlerts random) WhaleAlerts.REFRESH_INTERVAL.

Definition alertLoop (audioElements : PriceAlert.soundName -> bool) :=
  Poller.run (PriceAlert.fetchCurrentPrice audioElements) PriceAlert.period.

(** The components over their whole life.  Once a component is unmounted, a
    late run of its fetch function has its setters ignored; in the price
    alert module it also finds every ref reset. *)
Definition levelsLife (random : nat -> Q) :=
  Poller.life (SupportResistance.fetchSupportResistanceLevels random)
    SupportResistance.period
    (fun t r =>
       Poller.ignoringSetters
         (SupportResistance.fetchSupportResistanceLevels random t r)).

Definition whaleLife (random : nat -> Q) :=
  Poller.life (WhaleAlerts.fetchWhaleAlerts random) WhaleAlerts.REFRESH_INTERVAL
    (fun t r =>
       Poller.ignoringSetters (WhaleAlerts.fetchWhaleAlerts random t r)).

Definition alertLife (audioElements : PriceAlert.soundName -> bool) :=
  Poller.life (PriceAlert.fetchCurrentPrice audioElements) PriceAlert.period
    (fun t r =>
       Poller.ignoringSetters
         (PriceAlert.fetchCurrentPrice PriceAlert.detached t r)).

(** Choosing a timeframe in the level module.  With the value already
    selected the state does not change and the effect does not run again.
    With another value the state cell changes, the cleanup of the effect
    runs and the effect runs again at time [t]. *)
Definition changeTimeframe (random : nat -> Q) (value : string) (t : Z)
  (w : Poller.world (SupportResistance.state * nat))
  : Poller.world (SupportResistance.state * nat) :=
  if String.eqb value
       (SupportResistance.selectedTimeframe (fst (Poller.comp w)))
  then w
  else
    let w' :=
      Poller.mkWorld _
        (SupportResistance.handleTimeframeChange value (fst (Poller.comp w)),
         snd (Poller.comp w))
        (Poller.nextTick w) (Poller.pending w) (Poller.started w) in
    levelsLoop random w' [Poller.Cleanup; Poller.Mount t].

(** Price updates seen by one alert: whether the directional condition held
    at one of them, and the time of the first one where it did. *)
Definition seen (updates : list (Z * Q)) (a : PriceAlert.alert) : bool :=
  existsb (fun u => PriceAlert.shouldTrigger (snd u) a) updates.

Fixpoint firstHit (updates : list (Z * Q)) (a : PriceAlert.alert) : option Z :=
  match updates with
  | [] => None
  | (now, price) :: updates' =>
      if PriceAlert.shouldTrigger price a then Some now else firstHit updates' a
  end.

(** The alert once it has triggered at time [now]. *)
Definition fired (now : Z) (a : PriceAlert.alert) : PriceAlert.alert :=
  PriceAlert.mkAlert (PriceAlert.id a) (PriceAlert.price a) (PriceAlert.type a)
    (PriceAlert.sound a) (PriceAlert.created a) true (Some now).

(** What an armed alert must be after a series of updates. *)
Definition settled (updates : list (Z * Q)) (a : PriceAlert.alert)
  : PriceAlert.alert :=
  match firstHit updates a with
  | Some now => fired now a
  | None => a
  end.

(** An alert after a series of updates, whether or not it was armed. *)
Definition afterUpdates (updates : list (Z * Q)) (a : PriceAlert.alert)
  : PriceAlert.alert :=
  if PriceAlert.triggered a then a else settled updates a.

(** The alerts that a series of updates must announce: those that were
    armed and whose condition held at one of the updates. *)
Definition notified (updates : list (Z * Q)) (a : PriceAlert.alert) : bool :=
  negb (PriceAlert.triggered a) && seen updates a.

(** The price updates that a series of settled requests amounts to: one
    per response with a body, at the price read from it. *)
Fixpoint pricesOf (rs : list (Z * response JS.body)) : list (Z * Q) :=
  match rs with
  | [] => []
  | (now, Resolved (Obj data)) :: rs' =>
      (now, orElse (JS.price data) 65000) :: pricesOf rs'
  | _ :: rs' => pricesOf rs'
  end.

(** The fields of a generated level that do not enter the ranking: the
    number of tests lies between 1 and 5, and a reason is given exactly for
    the levels marked as traps, taken from the reasons of their kind. *)
Definition well_annotated (type : SupportResistance.levelType)
  (l : SupportResistance.level) : Prop :=
  (1 <= SupportResistance.timesTested l <= 5)%Z
  /\ (SupportResistance.isTrap l = true ->
      exists reason,
        SupportResistance.trapReason l = Some reason
        /\ In reason (SupportResistance.reasons type))
  /\ (SupportResistance.isTrap l = false ->
      SupportResistance.trapReason l = None).

(** The least and the greatest strength that a timeframe can produce. *)
Definition strengthFloor (timeframe : string) : Z :=
  if String.eqb timeframe "3D" then 30
  else if String.eqb timeframe "1W" then 40 else 20.

Definition strengthCeiling (timeframe : string) : Z :=
  if String.eqb timeframe "3D" then 100
  else if String.eqb timeframe "1W" then 100 else 90.

(** What a whale alert copies from its transaction. *)
Definition copied (a : WhaleAlerts.whaleAlert)
  : Z * Z * string * Q * Q * WhaleAlerts.signalType :=
  (WhaleAlerts.id a, WhaleAlerts.timestamp a, WhaleAlerts.exchange a,
   WhaleAlerts.amount a, WhaleAlerts.price a, WhaleAlerts.signal a).

Definition source (t : WhaleAlerts.transaction)
  : Z * Z * string * Q * Q * WhaleAlerts.signalType :=
  (WhaleAlerts.t_id t, WhaleAlerts.t_timestamp t, WhaleAlerts.t_exchange t,
   WhaleAlerts.t_amount t, WhaleAlerts.t_price t,
   WhaleAlerts.determineSignalType t).

(** The target of a whale alert lies 2 to 5 percent away from the entry
    price, on the side that the signal announces. *)
Definition on_signal_side (a : WhaleAlerts.whaleAlert) : Prop :=
  match WhaleAlerts.signal a with
  | WhaleAlerts.LONG =>
      WhaleAlerts.price a * (102 # 100) <= WhaleAlerts.targetPrice a
      /\ WhaleAlerts.targetPrice a < WhaleAlerts.price a * (105 # 100)
  | WhaleAlerts.SHORT =>
      WhaleAlerts.price a * (95 # 100) < WhaleAlerts.targetPrice a
      /\ WhaleAlerts.targetPrice a <= WhaleAlerts.price a * (98 # 100)
  end.

(** The values drawn for a pattern stay within the ranges of its template,
    ends included. *)
Definition within_ranges (p : PatternRecognition.pattern) : Prop :=
  In (PatternRecognition.template_ p) PatternRecognition.patternTemplates
  /\ (fst (PatternRecognition.reliabilityRange (PatternRecognition.template_ p))
      <= PatternRecognition.reliability p
      <= snd (PatternRecognition.reliabilityRange (PatternRecognition.template_ p)))%Z
  /\ inject_Z (fst (PatternRecognition.targetRange (PatternRecognition.template_ p)))
     <= PatternRecognition.targetPercent p
  /\ PatternRecognition.targetPercent p
     <= inject_Z (snd (PatternRecognition.targetRange (PatternRecognition.template_ p))).

(** The target of a pattern lies on the side of the reference price that
    its direction announces. *)
Definition target_on_side (cp : Q) (p : PatternRecognition.pattern) : Prop :=
  match PatternRecognition.direction_ (PatternRecognition.template_ p) with
  | PatternRecognition.LONG => cp < PatternRecognition.targetPrice p
  | PatternRecognition.SHORT => PatternRecognition.targetPrice p < cp
  end.

(** What the selection loop has built so far: every pattern comes from a
    selected index, no template is used twice, and every pattern is well
    formed. *)
Definition selection (data : JS.body) (idxs : list Z)
  (ps : list PatternRecognition.pattern) : Prop :=
  (forall p, In p ps ->
     exists i, In i idxs
       /\ PatternRecognition.at_index PatternRecognition.patternTemplates i
          = Some (PatternRecognition.template_ p))
  /\ NoDup (map (fun p => PatternRecognition.name (PatternRecognition.template_ p)) ps)
  /\ Forall within_ranges ps
  /\ Forall (fun p => exists o, data = Obj o
                /\ (0 < orElse (JS.currentPrice o) 65000 ->
                    target_on_side (orElse (JS.currentPrice o) 65000) p)) ps.

(** An oracle that repeats the draw [c]. *)
Definition constantly (c : Q) : nat -> Q := fun _ => c.

(** ** Concrete inputs used by the examples *)

(** Every audio element is mounted. *)
Definition mounted : PriceAlert.soundName -> bool := fun _ => true.

(** The alert of the scenario: 70000, direction above. *)
Definition alert70000 : PriceAlert.alert :=
  PriceAlert.mkAlert 1 (Fin 70000) PriceAlert.above PriceAlert.alarm1 0 false None.

Definition prices3 : list (Z * Q) :=
  [(1%Z, 65000); (2%Z, 69000); (3%Z, 70500)].

(** An armed alert with the given id, and a state holding the alerts with
    the ids 5, 3, 5 and 2. *)
Definition alertWithId (id : Z) : PriceAlert.alert :=
  PriceAlert.mkAlert id (Fin 70000) PriceAlert.above PriceAlert.alarm1 id false
    None.

Definition fourAlerts : PriceAlert.state :=
  PriceAlert.setAlerts (fun _ => map alertWithId [5; 3; 5; 2]%Z)
    PriceAlert.initial.

(** A [parseFloat] that reads every text as 70000. *)
Definition reads70000 : string -> number := fun _ => Fin 70000.

Definition tx (stamp : Z) : WhaleAlerts.transaction :=
  WhaleAlerts.mkTransaction stamp stamp "Binance" 12 65000 "buy".

(** Five candidate levels with the scores 60, 90, 40, 85, 70. *)
Definition scored (score : Z) : SupportResistance.level :=
  SupportResistance.mkLevel 60000 score 5 1 false None.

Definition fiveCandidates : list SupportResistance.level :=
  map scored [60; 90; 40; 85; 70]%Z.

(** An oracle that always draws one half. *)
Definition always_half : nat -> Q := fun _ => 1 # 2.

(** Sixteen fixed draws (four per support level: deviation, reliability,
    trap test, times tested), one half afterwards. *)
Definition draws1 : nat -> Q := fun n =>
  nth n [ 9 # 10; 1 # 2; 0; 0;   1 # 2; 1 # 2; 0; 0;
          1 # 10; 1 # 2; 0; 0;   1 # 5; 1 # 2; 0; 0 ] (1 # 2).

Definition payload (p : Q) : object := mkObject (Num p) (Num p).

Definition noPrice : object := mkObject Absent Absent.

Definition ok (p : Q) : response JS.body := Resolved (Obj (payload p)).

(** Draws under which the pattern selection ends after two patterns: the
    number of patterns, then for each pattern its index and three values. *)
Definition draws2 : nat -> Q := fun n =>
  nth n [ 0;   0; 1 # 2; 1 # 2; 1 # 2;   1 # 10; 1 # 2; 1 # 2; 1 # 2 ] (1 # 2).




(** A clock that stands still, and dates for which no change of the local
    offset from UTC falls within the hour. *)
Definition noon : nat -> Z := fun _ => 43200000%Z.

Definition minus_minutes (t k : Z) : Z := (t - k * 60000)%Z.

(** * Properties *)

(** ** Random computations *)

Lemma mapM_Forall {A B : Type} (f : A -> Rand B) (Pre : A -> Prop)
  (Post : B -> Prop) :
  (forall a n, Pre a -> Post (fst (f a n))) ->
  forall l n, Forall Pre l -> Forall Post (fst (mapM f l n)).
Proof.
  intros Hf l. induction l as [|a l IH]; intros n Hl; simpl.
  - constructor.
  - inversion Hl as [|? ? Ha Hl']; subst.
    unfold bind, ret. specialize (Hf a n Ha).
    destruct (f a n) as [b n1]. specialize (IH n1 Hl').
    destruct (mapM f l n1) as [bs n2]. simpl in *.
    constructor; assumption.
Qed.

Lemma mapM_length {A B : Type} (f : A -> Rand B) (l : list A) (n : nat) :
  List.length (fst (mapM f l n)) = List.length l.
Proof.
  revert n. induction l as [|a l IH]; intros n; simpl; [reflexivity|].
  unfold bind, ret. destruct (f a n) as [b n1]. specialize (IH n1).
  destruct (mapM f l n1) as [bs n2]. simpl in *. now rewrite IH.
Qed.

(** ** Rounding *)

Lemma Qfloor_ge (a : Z) (x : Q) : inject_Z a <= x -> (a <= Qfloor x)%Z.
Proof.
  intros H. apply Qfloor_resp_le in H. now rewrite Qfloor_Z in H.
Qed.

Lemma Math_round_bounds (a b : Z) (x : Q) :
  inject_Z a <= x -> x <= inject_Z b -> (a <= Math_round x <= b)%Z.
Proof.
  intros Ha Hb. unfold Math_round. split.
  - apply Qfloor_ge. lra.
  - assert (H : (Qfloor (x + (1 # 2)) < b + 1)%Z); [|lia].
    apply Z.nle_gt. intros Hc.
    assert (Hle : inject_Z (Qfloor (x + (1 # 2))) <= x + (1 # 2))
      by apply Qfloor_le.
    assert (Hinj : inject_Z (b + 1) <= inject_Z (Qfloor (x + (1 # 2))))
      by (rewrite <- Zle_Qle; exact Hc).
    rewrite inject_Z_plus in Hinj. change (inject_Z 1) with 1 in Hinj. lra.
Qed.

Lemma Math_floor_bounds (a b : Z) (x : Q) :
  inject_Z a <= x -> x < inject_Z b -> (a <= Math_floor x < b)%Z.
Proof.
  intros Ha Hb. unfold Math_floor. split.
  - now apply Qfloor_ge.
  - apply Z.nle_gt. intros Hc.
    assert (Hle : inject_Z (Qfloor x) <= x) by apply Qfloor_le.
    assert (Hinj : inject_Z b <= inject_Z (Qfloor x))
      by (rewrite <- Zle_Qle; exact Hc).
    lra.
Qed.

Lemma Qltb_true (x y : Q) : Qltb x y = true <-> x < y.
Proof.
  unfold Qltb. rewrite negb_true_iff. split; intros H.
  - apply Qnot_le_lt. intros Hc. apply Qle_bool_iff in Hc. congruence.
  - destruct (Qle_bool y x) eqn:E; [|reflexivity].
    apply Qle_bool_iff in E. lra.
Qed.

Lemma Qltb_false (x y : Q) : Qltb x y = false <-> y <= x.
Proof.
  unfold Qltb. rewrite negb_false_iff. apply Qle_bool_iff.
Qed.

Lemma Qdiv100 (x : Q) : x / 100 = x * (1 # 100).
Proof. reflexivity. Qed.

(** A magnitude of at least one hundredth keeps its sign through
    [toFixed(2)]. *)
Lemma toFixed2_pos (x : Q) : (1 # 100) <= x -> 0 < toFixed2 x.
Proof.
  intros Hx. unfold toFixed2.
  assert (E : Qltb x 0 = false) by (apply Qltb_false; lra). rewrite E.
  assert (H1 : (1 <= Qfloor (x * 100 + (1 # 2)))%Z).
  { apply Qfloor_ge. change (inject_Z 1) with 1. lra. }
  rewrite Zle_Qle in H1. change (inject_Z 1) with 1 in H1.
  rewrite Qdiv100. lra.
Qed.

Lemma toFixed2_neg (x : Q) : x <= - (1 # 100) -> toFixed2 x < 0.
Proof.
  intros Hx. unfold toFixed2.
  assert (E : Qltb x 0 = true) by (apply Qltb_true; lra). rewrite E.
  assert (H1 : (1 <= Qfloor (- x * 100 + (1 # 2)))%Z).
  { apply Qfloor_ge. change (inject_Z 1) with 1. lra. }
  rewrite Zle_Qle in H1. change (inject_Z 1) with 1 in H1.
  rewrite Qdiv100. lra.
Qed.

(** [toFixed(2)] keeps a value between two bounds that are themselves
    hundredths. *)
Lemma toFixed2_bounds (a b : Z) (x : Q) :
  (0 <= a)%Z -> inject_Z a / 100 <= x -> x <= inject_Z b / 100 ->
  inject_Z a / 100 <= toFixed2 x /\ toFixed2 x <= inject_Z b / 100.
Proof.
  intros Ha Hax Hxb. rewrite !Qdiv100 in *.
  assert (Ha' : 0 <= inject_Z a) by (now rewrite Zle_Qle in Ha).
  unfold toFixed2.
  assert (E : Qltb x 0 = false) by (apply Qltb_false; lra). rewrite E.
  assert (Hlo : inject_Z a <= x * 100) by lra.
  assert (Hhi : x * 100 <= inject_Z b) by lra.
  destruct (Math_round_bounds a b (x * 100) Hlo Hhi) as [L U].
  unfold Math_round in L, U. rewrite Zle_Qle in L, U.
  rewrite Qdiv100. lra.
Qed.

(** ** Sorting and ranking *)

Lemma insert_perm {A : Type} (cmp : A -> A -> Q) (x : A) (l : list A) :
  Permutation (insert cmp x l) (x :: l).
Proof.
  induction l as [|y l IH]; simpl; [reflexivity|].
  destruct (Qle_bool (cmp x y) 0); [reflexivity|].
  rewrite IH. apply perm_swap.
Qed.

Lemma sort_perm {A : Type} (cmp : A -> A -> Q) (l : list A) :
  Permutation (sort cmp l) l.
Proof.
  induction l as [|x l IH]; simpl; [reflexivity|].
  rewrite insert_perm. now constructor.
Qed.

Lemma sort_In {A : Type} (cmp : A -> A -> Q) (l : list A) (x : A) :
  In x (sort cmp l) <-> In x l.
Proof.
  split; apply Permutation_in; [|symmetry]; apply sort_perm.
Qed.

Lemma sort_Forall {A : Type} (cmp : A -> A -> Q) (P : A -> Prop) (l : list A) :
  Forall P l -> Forall P (sort cmp l).
Proof.
  intros H. rewrite Forall_forall in *. intros x Hx. apply H.
  now apply sort_In in Hx.
Qed.

Lemma firstn_filter_prefix {A : Type} (p : A -> bool) (n : nat) (l : list A) :
  exists m, filter p (firstn n l) = firstn m (filter p l).
Proof.
  revert n. induction l as [|x l IH]; intros [|n]; simpl;
    try (exists 0%nat; reflexivity).
  destruct (IH n) as [m Hm]. destruct (p x).
  - exists (S m). simpl. now rewrite Hm.
  - exists m. exact Hm.
Qed.

Lemma sorted_split {A : Type} (R : A -> A -> Prop) (n : nat) (l : list A) :
  StronglySorted R l ->
  forall r d, In r (firstn n l) -> In d (skipn n l) -> R r d.
Proof.
  intros Hs. revert n. induction Hs as [|x l Hs IH Hx]; intros [|n] r d Hr Hd;
    simpl in *; try contradiction.
  destruct Hr as [<-|Hr].
  - rewrite Forall_forall in Hx. apply Hx.
    rewrite <- (firstn_skipn n l). apply in_or_app. now right.
  - now apply (IH n).
Qed.

Lemma sorted_firstn {A : Type} (R : A -> A -> Prop) (n : nat) (l : list A) :
  StronglySorted R l -> StronglySorted R (firstn n l).
Proof.
  intros Hs. revert n. induction Hs as [|x l Hs IH Hx]; intros [|n]; simpl;
    try constructor.
  - apply IH.
  - rewrite Forall_forall in *. intros y Hy. apply Hx.
    rewrite <- (firstn_skipn n l). apply in_or_app. now left.
Qed.

(** Two descending arrangements of the same integers coincide. *)
Lemma descending_unique (l1 l2 : list Z) :
  StronglySorted Z.ge l1 -> StronglySorted Z.ge l2 -> Permutation l1 l2 ->
  l1 = l2.
Proof.
  intros H1. revert l2. induction H1 as [|x l1 H1 IH Hx]; intros l2 H2 HP.
  - apply Permutation_nil in HP. now subst.
  - destruct H2 as [|y l2 H2 Hy].
    + symmetry in HP. apply Permutation_nil in HP. discriminate.
    + assert (Exy : x = y).
      { rewrite Forall_forall in Hx, Hy.
        assert (Hyin : In y (x :: l1))
          by (apply (Permutation_in y (Permutation_sym HP)); now left).
        assert (Hxin : In x (y :: l2))
          by (apply (Permutation_in x HP); now left).
        destruct Hyin as [E|Hyin]; [easy|].
        destruct Hxin as [E|Hxin]; [easy|].
        specialize (Hx _ Hyin). specialize (Hy _ Hxin). lia. }
      subst y. f_equal. apply IH; [assumption|].
      now apply Permutation_cons_inv in HP.
Qed.

Section Ranking.
Context {A : Type} (key : A -> Z) (cmp : A -> A -> Q).
Hypothesis cmp_key : forall a b, cmp a b = inject_Z (key b) - inject_Z (key a).

Lemma cmp_test (x y : A) : Qle_bool (cmp x y) 0 = (key y <=? key x)%Z.
Proof.
  rewrite cmp_key. apply eq_true_iff_eq.
  rewrite Qle_bool_iff, Z.leb_le, (Zle_Qle (key y) (key x)). split; lra.
Qed.

Lemma insert_sorted (x : A) (l : list A) :
  StronglySorted (outranks key) l -> StronglySorted (outranks key) (insert cmp x l).
Proof.
  intros Hs. induction Hs as [|y l Hs IH Hy]; simpl.
  - repeat constructor.
  - rewrite cmp_test. destruct (key y <=? key x)%Z eqn:E.
    + apply Z.leb_le in E. constructor; [now constructor|].
      constructor; [unfold outranks; lia|].
      rewrite Forall_forall in *. intros z Hz. specialize (Hy z Hz).
      unfold outranks in *. lia.
    + apply Z.leb_gt in E. constructor; [exact IH|].
      rewrite Forall_forall in *. intros z Hz.
      apply (Permutation_in z (insert_perm cmp x l)) in Hz.
      destruct Hz as [<-|Hz]; [unfold outranks; lia | now apply Hy].
Qed.

Lemma sort_sorted (l : list A) : StronglySorted (outranks key) (sort cmp l).
Proof.
  induction l as [|x l IH]; simpl; [constructor | now apply insert_sorted].
Qed.

(** Stability: candidates with the same key keep their relative order. *)
Lemma insert_same_key (k : Z) (x : A) (l : list A) :
  filter (fun a => key a =? k)%Z (insert cmp x l)
  = filter (fun a => key a =? k)%Z (x :: l).
Proof.
  induction l as [|y l IH]; [reflexivity|].
  cbn [insert]. rewrite cmp_test. destruct (key y <=? key x)%Z eqn:E;
    [reflexivity|].
  apply Z.leb_gt in E. cbn [filter] in *.
  destruct (key y =? k)%Z eqn:Ey, (key x =? k)%Z eqn:Ex;
    rewrite ?Z.eqb_eq, ?Z.eqb_neq in *; try lia; now rewrite IH.
Qed.

Lemma sort_stable (k : Z) (l : list A) :
  filter (fun a => key a =? k)%Z (sort cmp l)
  = filter (fun a => key a =? k)%Z l.
Proof.
  induction l as [|x l IH]; [reflexivity|].
  cbn [sort]. rewrite insert_same_key. cbn [filter]. now rewrite IH.
Qed.

(** What [l.sort(cmp).slice(0, n)] retains. *)
Lemma top_ranked (n : nat) (l : list A) :
  top_of key n l (slice0 n (sort cmp l)).
Proof.
  unfold top_of, slice0. repeat split.
  - rewrite length_firstn. now rewrite (Permutation_length (sort_perm cmp l)).
  - apply sorted_firstn, sort_sorted.
  - exists (skipn n (sort cmp l)). split.
    + rewrite firstn_skipn. symmetry. apply sort_perm.
    + intros r d Hr Hd.
      assert (H := sorted_split (outranks key) n _ (sort_sorted l) r d Hr Hd).
      unfold outranks in H. lia.
  - intros k.
    destruct (firstn_filter_prefix (fun a => key a =? k)%Z n (sort cmp l))
      as [m Hm].
    exists m. now rewrite Hm, sort_stable.
Qed.
End Ranking.

(** ** Reference price *)

Lemma orElse_nonzero (f : field) (d : Q) : ~ d == 0 -> ~ orElse f d == 0.
Proof.
  intros Hd. destruct f as [| |q]; simpl; try assumption.
  destruct (Qeq_bool q 0) eqn:E; [assumption|]. now apply Qeq_bool_neq.
Qed.

Lemma orElse_default_nonzero (f : field) : ~ orElse f 65000 == 0.
Proof. apply orElse_nonzero. intros H. discriminate H. Qed.

(** ** Generated levels *)

Section LevelFacts.
Import SupportResistance.

Lemma calculateReliability_range random lp cp ty n :
  in_unit random ->
  (30 <= fst (calculateReliability random lp cp ty n) <= 100)%Z.
Proof.
  intros Hr. destruct (Hr n) as [H0 H1].
  unfold calculateReliability, bind, ret, JS.Math_random. cbn [fst].
  destruct (_ || _)%bool.
  - apply Math_round_bounds; unfold Math_min.
    + apply Q.min_glb; change (inject_Z 30) with 30; lra.
    + apply Qle_trans with 100; [apply Q.le_min_r|]. change (inject_Z 100) with 100. lra.
  - apply Math_round_bounds; [change (inject_Z 30) with 30 | change (inject_Z 100) with 100]; lra.
Qed.

Lemma mockSupport_fields random cp i n :
  let l := fst (mockSupport random cp i n) in
  price l = cp - (random n * (12 # 100) + (2 # 100)) * cp
  /\ distance l = toFixed2 (((cp - price l) / cp) * 100)
  /\ reliability l = fst (calculateReliability random (price l) cp support (S n)).
Proof.
  cbv zeta. unfold mockSupport, bind, ret, JS.Math_random.
  destruct (calculateReliability _ _ _ _ _) as [rel n1] eqn:E. 
  destruct (Qltb (7 # 10) (random n1)).
  - destruct (generateTrapReason random support (S (S n1))) as [tr n2].
    cbn [fst price distance reliability]. rewrite E. auto.
  - cbn [fst price distance reliability]. rewrite E. auto.
Qed.

Lemma mockResistance_fields random cp i n :
  let l := fst (mockResistance random cp i n) in
  price l = cp + (random n * (12 # 100) + (2 # 100)) * cp
  /\ distance l = toFixed2 (((price l - cp) / cp) * 100)
  /\ reliability l = fst (calculateReliability random (price l) cp resistance (S n)).
Proof.
  cbv zeta. unfold mockResistance, bind, ret, JS.Math_random.
  destruct (calculateReliability _ _ _ _ _) as [rel n1] eqn:E. 
  destruct (Qltb (7 # 10) (random n1)).
  - destruct (generateTrapReason random resistance (S (S n1))) as [tr n2].
    cbn [fst price distance reliability]. rewrite E. auto.
  - cbn [fst price distance reliability]. rewrite E. auto.
Qed.

Lemma magnitude_bounds (r cp d : Q) :
  0 <= r -> r < 1 -> ~ cp == 0 ->
  d == (r * (12 # 100) + (2 # 100)) * cp ->
  2 <= toFixed2 ((d / cp) * 100) /\ toFixed2 ((d / cp) * 100) <= 14.
Proof.
  intros H0 H1 Hcp Hd.
  assert (E : (d / cp) * 100 == (r * (12 # 100) + (2 # 100)) * 100)
    by (rewrite Hd; field; assumption).
  destruct (toFixed2_bounds 200 1400 ((d / cp) * 100)) as [L U];
    [lia | | |];
    rewrite ?E, ?Qdiv100 in *;
    change (inject_Z 200) with 200 in *; change (inject_Z 1400) with 1400 in *;
    lra.
Qed.


Lemma support_level_shape random data i n :
  in_unit random ->
  let cp := orElse (JS.currentPrice data) 65000 in
  let l := fst (mockSupport random cp i n) in
  (2 <= distance l /\ distance l <= 14)
  /\ (0 < cp -> price l < cp)
  /\ (30 <= reliability l <= 100)%Z.
Proof.
  intros Hr cp l. destruct (Hr n) as [H0 H1].
  destruct (mockSupport_fields random cp i n) as (Hp & Hd & Hrel).
  fold l in Hp, Hd, Hrel. repeat split.
  - rewrite Hd. apply (magnitude_bounds (random n));
      [assumption | assumption | apply orElse_default_nonzero | rewrite Hp; ring].
  - rewrite Hd. apply (magnitude_bounds (random n));
      [assumption | assumption | apply orElse_default_nonzero | rewrite Hp; ring].
  - intros Hcp. rewrite Hp. nra.
  - rewrite Hrel. now apply calculateReliability_range.
  - rewrite Hrel. now apply calculateReliability_range.
Qed.

Lemma resistance_level_shape random data i n :
  in_unit random ->
  let cp := orElse (JS.currentPrice data) 65000 in
  let l := fst (mockResistance random cp i n) in
  (2 <= distance l /\ distance l <= 14)
  /\ (0 < cp -> cp < price l)
  /\ (30 <= reliability l <= 100)%Z.
Proof.
  intros Hr cp l. destruct (Hr n) as [H0 H1].
  destruct (mockResistance_fields random cp i n) as (Hp & Hd & Hrel).
  fold l in Hp, Hd, Hrel. repeat split.
  - rewrite Hd. apply (magnitude_bounds (random n));
      [assumption | assumption | apply orElse_default_nonzero | rewrite Hp; ring].
  - rewrite Hd. apply (magnitude_bounds (random n));
      [assumption | assumption | apply orElse_default_nonzero | rewrite Hp; ring].
  - intros Hcp. rewrite Hp. nra.
  - rewrite Hrel. now apply calculateReliability_range.
  - rewrite Hrel. now apply calculateReliability_range.
Qed.

(** Every candidate and every retained level. *)
Lemma candidates_shape random data n :
  in_unit random ->
  let cp := orElse (JS.currentPrice data) 65000 in
  let c := fst (candidates random data n) in
  Forall (fun l => (2 <= distance l /\ distance l <= 14) /\ (0 < cp -> price l < cp)
                   /\ (30 <= reliability l <= 100)%Z) (fst c)
  /\ Forall (fun l => (2 <= distance l /\ distance l <= 14) /\ (0 < cp -> cp < price l)
                   /\ (30 <= reliability l <= 100)%Z) (snd c)
  /\ List.length (fst c) = 4%nat /\ List.length (snd c) = 4%nat.
Proof.
  intros Hr cp c. subst c. unfold candidates, bind, ret. fold cp.
  pose proof (mapM_Forall (mockSupport random cp) (fun _ => True)
    (fun l => (2 <= distance l /\ distance l <= 14) /\ (0 < cp -> price l < cp)
              /\ (30 <= reliability l <= 100)%Z)
    (fun i k _ => support_level_shape random data i k Hr) (seq 0 4) n) as HS.
  pose proof (mapM_length (mockSupport random cp) (seq 0 4) n) as LS.
  destruct (mapM (mockSupport random cp) (seq 0 4) n) as [ss n1].
  pose proof (mapM_Forall (mockResistance random cp) (fun _ => True)
    (fun l => (2 <= distance l /\ distance l <= 14) /\ (0 < cp -> cp < price l)
              /\ (30 <= reliability l <= 100)%Z)
    (fun i k _ => resistance_level_shape random data i k Hr) (seq 0 4) n1) as HR.
  pose proof (mapM_length (mockResistance random cp) (seq 0 4) n1) as LR.
  destruct (mapM (mockResistance random cp) (seq 0 4) n1) as [rs n2].
  cbn [fst snd] in *. repeat split; auto.
  - apply HS. rewrite Forall_forall. auto.
  - apply HR. rewrite Forall_forall; auto.
Qed.

Lemma processLevelsData_ranks random data n :
  let c := fst (candidates random data n) in
  let out := fst (processLevelsData random data n) in
  supports out = slice0 2 (sort byReliability (fst c))
  /\ resistances out = slice0 2 (sort byReliability (snd c)).
Proof.
  cbv zeta. unfold processLevelsData, bind, ret.
  destruct (candidates random data n) as [[ss rs] n1]. auto.
Qed.

End LevelFacts.

(** ** Generated clusters *)

Section ClusterFacts.
Import LiquidityClusters.

Lemma pricePoint_offset random cp i n :
  in_unit random -> offset cp (fst (pricePoint random cp i n)).
Proof.
  intros Hr. destruct (Hr n) as [H0 H1].
  unfold pricePoint, bind, ret, JS.Math_random. cbn [fst].
  exists (random n). repeat split; try assumption.
  destruct (_ =? _)%nat; [left | right]; reflexivity.
Qed.

Lemma baseStrength_range random tf n :
  in_unit random ->
  20 <= fst (baseStrength random tf n) /\ fst (baseStrength random tf n) <= 100.
Proof.
  intros Hr. destruct (Hr n) as [H0 H1].
  unfold baseStrength, bind, ret, JS.Math_random. cbn [fst].
  repeat destruct (String.eqb tf _); lra.
Qed.

Lemma toCluster_fields random cp tf p n :
  let c := fst (toCluster random cp tf p n) in
  price c = p
  /\ distance c = toFixed2 (((p - cp) / cp) * 100)
  /\ type c = (if Qltb p cp then support else resistance)
  /\ strength c =
       Math_round (if isPsychologicalLevel c
                   then Math_min (fst (baseStrength random tf n) * (15 # 10)) 100
                   else fst (baseStrength random tf n)).
Proof.
  cbv zeta. unfold toCluster, bind, ret.
  destruct (baseStrength random tf n) as [b n1]. cbn [fst price distance type strength isPsychologicalLevel].
  auto.
Qed.

Lemma toCluster_strength random cp tf p n :
  in_unit random ->
  (20 <= strength (fst (toCluster random cp tf p n)) <= 100)%Z.
Proof.
  intros Hr. destruct (toCluster_fields random cp tf p n) as (_ & _ & _ & ->).
  destruct (baseStrength_range random tf n Hr) as [L U].
  apply Math_round_bounds; destruct (isPsychologicalLevel _); unfold Math_min;
    change (inject_Z 20) with 20; change (inject_Z 100) with 100;
    try lra.
  - apply Q.min_glb; lra.
  - apply Qle_trans with 100; [apply Q.le_min_r | lra].
Qed.

Lemma toCluster_sign random cp tf p n :
  0 < cp -> offset cp p ->
  let c := fst (toCluster random cp tf p n) in
  sign_matches cp (price c) (distance c).
Proof.
  intros Hcp (r & H0 & H1 & Hp) c.
  destruct (toCluster_fields random cp tf p n) as (Ep & Ed & _). fold c in Ep, Ed.
  rewrite Ep, Ed. destruct Hp as [Hp|Hp].
  - assert (E : ((p - cp) / cp) * 100 == (r * (15 # 100) + (1 # 100)) * 100)
      by (rewrite Hp; field; lra).
    split; intros Hside.
    + apply toFixed2_pos. rewrite E. lra.
    + rewrite Hp in Hside. nra.
  - assert (E : ((p - cp) / cp) * 100 == - ((r * (15 # 100) + (1 # 100)) * 100))
      by (rewrite Hp; field; lra).
    split; intros Hside.
    + rewrite Hp in Hside. nra.
    + apply toFixed2_neg. rewrite E. lra.
Qed.

Lemma processClusterData_shape random data tf n :
  in_unit random ->
  let cp := orElse (JS.currentPrice data) 65000 in
  Forall (fun c => (20 <= strength c <= 100)%Z
                   /\ (0 < cp -> sign_matches cp (price c) (distance c)))
    (fst (processClusterData random data tf n)).
Proof.
  intros Hr cp. unfold processClusterData, bind. fold cp.
  pose proof (mapM_Forall (pricePoint random cp) (fun _ => True) (offset cp)
    (fun i k _ => pricePoint_offset random cp i k Hr)
    (seq 0 (numClusters tf)) n) as HP.
  destruct (mapM (pricePoint random cp) (seq 0 (numClusters tf)) n) as [pts n1].
  cbn [fst] in HP.
  apply mapM_Forall with (Pre := offset cp).
  - intros p k Hp. split; [now apply toCluster_strength|].
    intros Hcp. now apply toCluster_sign.
  - apply sort_Forall, HP. rewrite Forall_forall. auto.
Qed.

End ClusterFacts.

(** ** Whale alert confidence *)

Section WhaleFacts.
Import WhaleAlerts.

Lemma countConfirmations_range random tx ex n :
  in_unit random -> (1 <= fst (countConfirmations random tx ex n) <= 5)%Z.
Proof.
  intros Hr. destruct (Hr n) as [H0 H1].
  unfold countConfirmations, bind, ret, JS.Math_random. cbn [fst].
  assert (H : (0 <= Math_floor (random n * 5) < 5)%Z); [|lia].
  apply Math_floor_bounds; [change (inject_Z 0) with 0 | change (inject_Z 5) with 5]; lra.
Qed.

Lemma calculateConfidence_range random tx ex n :
  in_unit random -> (20 <= fst (calculateConfidence random tx ex n) <= 100)%Z.
Proof.
  intros Hr. pose proof (countConfirmations_range random tx ex n Hr) as H.
  unfold calculateConfidence, bind, ret.
  destruct (countConfirmations random tx ex n) as [c n1]. cbn [fst] in *. lia.
Qed.

Lemma toAlert_confidence random tx n :
  in_unit random -> (20 <= confidence (fst (toAlert random tx n)) <= 100)%Z.
Proof.
  intros Hr. pose proof (calculateConfidence_range random tx EXCHANGES n Hr) as H.
  unfold toAlert, bind, ret.
  destruct (calculateConfidence random tx EXCHANGES n) as [c n1].
  destruct (estimateTargetPrice random tx _ n1) as [t n2].
  destruct (countConfirmations random tx EXCHANGES n2) as [k n3].
  exact H.
Qed.

Lemma processWhaleAlerts_confidence random data n :
  in_unit random ->
  Forall (fun a => (20 <= confidence a <= 100)%Z)
    (fst (processWhaleAlerts random data n)).
Proof.
  intros Hr. unfold processWhaleAlerts, bind, ret.
  pose proof (mapM_Forall (toAlert random) (fun _ => True)
    (fun a => (20 <= confidence a <= 100)%Z)
    (fun tx k _ => toAlert_confidence random tx k Hr) data n) as H.
  destruct (mapM (toAlert random) data n) as [al n1]. cbn [fst] in *.
  apply sort_Forall, H. rewrite Forall_forall. auto.
Qed.

End WhaleFacts.

(** ** Concrete oracles *)

Lemma in_unit_always_half : in_unit always_half.
Proof. intros n. unfold always_half. split; lra. Qed.

Lemma in_unit_draws1 : in_unit draws1.
Proof.
  intros n. unfold draws1.
  do 16 (destruct n as [|n]; [cbn; split; lra|]).
  cbn. destruct n; split; lra.
Qed.

Lemma StronglySorted_map {A B : Type} (f : A -> B) (R : B -> B -> Prop) (l : list A) :
  StronglySorted (fun a b => R (f a) (f b)) l -> StronglySorted R (map f l).
Proof.
  induction 1 as [|x l Hs IH Hx]; simpl; constructor; [assumption|].
  rewrite Forall_forall in *. intros y Hy. apply in_map_iff in Hy.
  destruct Hy as (z & <- & Hz). now apply Hx.
Qed.

Lemma slice0_In {A : Type} (n : nat) (l : list A) (x : A) :
  In x (slice0 n l) -> In x l.
Proof.
  unfold slice0. intros H. rewrite <- (firstn_skipn n l).
  apply in_or_app. now left.
Qed.

(** ** Ranking, distances and scores of the generated signals *)

Section SignalClaims.
Import SupportResistance.

Lemma byReliability_key (a b : level) :
  byReliability a b = inject_Z (reliability b) - inject_Z (reliability a).
Proof. reflexivity. Qed.

Lemma ranked_scores (n : nat) (cands : list level) (scores : list Z) :
  StronglySorted Z.ge scores ->
  Permutation (map reliability cands) scores ->
  map reliability (slice0 n (sort byReliability cands)) = firstn n scores.
Proof.
  intros Hs HP. unfold slice0. rewrite <- firstn_map. f_equal.
  apply descending_unique; [|exact Hs|].
  - apply StronglySorted_map.
    apply (sort_sorted reliability byReliability byReliability_key).
  - rewrite <- HP. apply Permutation_map, sort_perm.
Qed.

Lemma ranked_retains (n : nat) (cands : list level) :
  retains reliability cands (slice0 n (sort byReliability cands)).
Proof.
  pose proof (sort_sorted reliability byReliability byReliability_key cands) as Hs.
  unfold retains, slice0. split; [now apply sorted_firstn|].
  exists (skipn n (sort byReliability cands)). split.
  - rewrite firstn_skipn. symmetry. apply sort_perm.
  - intros r d Hr Hd.
    pose proof (sorted_split _ n _ Hs r d Hr Hd) as H. unfold outranks in H. lia.
Qed.

(** C6: the supports and the resistances that [processLevelsData] returns
    are [sort(byReliability).slice(0, 2)] of its candidates: they are in
    descending order of score, no level kept has a lower score than a
    candidate dropped, and their scores are the two highest of the
    candidates' scores, whatever the order in which the candidates were
    produced.  The same holds of this ranking for any candidates and any
    number [n] of levels kept; in particular five candidates with the
    scores 90, 85, 70, 60 and 40, given in any order, leave the two levels
    with the scores 90 and 85. *)
Theorem C6_retained_outrank_discarded :
  (forall random data n,
     let c := fst (candidates random data n) in
     let out := fst (processLevelsData random data n) in
     supports out = slice0 2 (sort byReliability (fst c))
     /\ resistances out = slice0 2 (sort byReliability (snd c))
     /\ retains reliability (fst c) (supports out)
     /\ retains reliability (snd c) (resistances out)
     /\ (forall scores,
           StronglySorted Z.ge scores ->
           Permutation (map reliability (fst c)) scores ->
           map reliability (supports out) = firstn 2 scores)
     /\ (forall scores,
           StronglySorted Z.ge scores ->
           Permutation (map reliability (snd c)) scores ->
           map reliability (resistances out) = firstn 2 scores))
  /\ (forall n cands,
       let ranked := sort byReliability cands in
       let retained := slice0 n ranked in
       let discarded := skipn n ranked in
       Permutation cands (retained ++ discarded)
       /\ StronglySorted (outranks reliability) retained
       /\ (forall r d, In r retained -> In d discarded ->
             (reliability d <= reliability r)%Z)
       /\ (Permutation (map reliability cands) [90; 85; 70; 60; 40]%Z ->
           map reliability (slice0 2 ranked) = [90; 85]%Z)).
Proof.
  split.
  - intros random data n c out.
    destruct (processLevelsData_ranks random data n) as [Es Er].
    fold c out in Es, Er.
    split; [exact Es|]. split; [exact Er|]. rewrite Es, Er.
    split; [apply ranked_retains|]. split; [apply ranked_retains|].
    split; intros scores Hs HP; now apply ranked_scores.
  - intros n cands. cbv zeta. unfold slice0.
    pose proof (sort_sorted reliability byReliability byReliability_key cands)
      as Hs.
    repeat split.
    + rewrite firstn_skipn. symmetry. apply sort_perm.
    + now apply sorted_firstn.
    + intros r d Hr Hd.
      pose proof (sorted_split _ n _ Hs r d Hr Hd) as H.
      unfold outranks in H. lia.
    + intros HP. apply (ranked_scores 2 cands [90; 85; 70; 60; 40]%Z);
        [repeat constructor; lia | exact HP].
Qed.

(** C6, instance: the five candidates in the order 60, 90, 40, 85, 70; and
    the supports returned for the reference price 65000 under the draws
    [draws1], whose four candidates all score 55. *)
Lemma C6_scenario_witness :
  Permutation (map reliability fiveCandidates) [90; 85; 70; 60; 40]%Z
  /\ map reliability (slice0 2 (sort byReliability fiveCandidates)) = [90; 85]%Z
  /\ Permutation
       (map reliability (fst (fst (candidates draws1 (payload 65000) 0%nat))))
       [55; 55; 55; 55]%Z
  /\ map reliability
       (supports (fst (processLevelsData draws1 (payload 65000) 0%nat)))
     = [55; 55]%Z.
Proof.
  assert (HP : Permutation (map reliability fiveCandidates) [90; 85; 70; 60; 40]%Z).
  { cbn. apply (Permutation_cons_app [90; 85; 70] [40])%Z. cbn.
    apply perm_skip. apply (Permutation_cons_app [85; 70] [])%Z. reflexivity. }
  assert (HQ : Permutation
                 (map reliability
                    (fst (fst (candidates draws1 (payload 65000) 0%nat))))
                 [55; 55; 55; 55]%Z).
  { replace (map reliability
               (fst (fst (candidates draws1 (payload 65000) 0%nat))))
      with [55; 55; 55; 55]%Z by (vm_compute; reflexivity).
    reflexivity. }
  split; [exact HP|]. split; [|split; [exact HQ|]].
  - exact (proj2 (proj2 (proj2
             (proj2 C6_retained_outrank_discarded 2%nat fiveCandidates))) HP).
  - apply (proj1 (proj2 (proj2 (proj2 (proj2
             (proj1 C6_retained_outrank_discarded draws1 (payload 65000)
                0%nat))))) [55; 55; 55; 55]%Z); [|exact HQ].
    repeat constructor; lia.
Defined.

(** C3, counterexample: with the reference price 65000 and the draws
    [draws1] the four candidate supports all score 55, at distances 12.80,
    8.00, 3.20 and 4.40 percent; the two supports kept are the first two
    generated (12.80 and 8.00), not the two closest. *)
Lemma C3_tie_kept_farther_level :
  in_unit draws1
  /\ map (fun l => (reliability l, Qred (distance l)))
       (fst (fst (candidates draws1 (payload 65000) 0%nat)))
     = [(55%Z, 64 # 5); (55%Z, 8); (55%Z, 16 # 5); (55%Z, 22 # 5)]
  /\ map (fun l => (reliability l, Qred (distance l)))
       (supports (fst (processLevelsData draws1 (payload 65000) 0%nat)))
     = [(55%Z, 64 # 5); (55%Z, 8)]
  /\ ~ tie_goes_to_closer
        (fst (fst (candidates draws1 (payload 65000) 0%nat)))
        (supports (fst (processLevelsData draws1 (payload 65000) 0%nat))).
Proof.
  split; [apply in_unit_draws1|].
  split; [vm_compute; reflexivity|]. split; [vm_compute; reflexivity|].
  intros H.
  set (cands := fst (fst (candidates draws1 (payload 65000) 0%nat))) in *.
  set (kept := supports (fst (processLevelsData draws1 (payload 65000) 0%nat))) in *.
  specialize (H (nth 0%nat kept (scored 0)) (nth 2%nat cands (scored 0))).
  assert (H1 : In (nth 0%nat kept (scored 0)) kept) by (vm_compute; auto).
  assert (H2 : In (nth 2%nat cands (scored 0)) cands) by (vm_compute; auto).
  assert (H3 : ~ In (nth 2%nat cands (scored 0)) kept)
    by (vm_compute; intros [E|[E|[]]]; discriminate E).
  specialize (H H1 H2 H3 eq_refl). vm_compute in H. now apply H.
Qed.

(** C3, amended: the levels returned by [processLevelsData] are the top 2
    supports and the top 2 resistances by descending score, and the cluster
    tables show the top 3 per type by descending strength; candidates of
    equal score keep the order in which they were produced (the sort is
    stable), so the earliest of them are the ones kept. *)
Theorem C3_top_n_by_score_stable :
  (forall random data n,
     let c := fst (candidates random data n) in
     let out := fst (processLevelsData random data n) in
     top_of reliability 2 (fst c) (supports out)
     /\ top_of reliability 2 (snd c) (resistances out)
     /\ List.length (supports out) = 2%nat
     /\ List.length (resistances out) = 2%nat)
  /\ (forall s,
       top_of LiquidityClusters.strength 3
         (LiquidityClusters.ofType LiquidityClusters.support
            (LiquidityClusters.clusters s))
         (LiquidityClusters.shownSupports s)
       /\ top_of LiquidityClusters.strength 3
            (LiquidityClusters.ofType LiquidityClusters.resistance
               (LiquidityClusters.clusters s))
            (LiquidityClusters.shownResistances s)).
Proof.
  split.
  - intros random data n c out.
    destruct (processLevelsData_ranks random data n) as [Es Er].
    fold c out in Es, Er.
    assert (Ts : top_of reliability 2 (fst c) (supports out))
      by (rewrite Es; apply top_ranked, byReliability_key).
    assert (Tr : top_of reliability 2 (snd c) (resistances out))
      by (rewrite Er; apply top_ranked, byReliability_key).
    assert (Ls : List.length (fst c) = 4%nat /\ List.length (snd c) = 4%nat).
    { subst c. unfold candidates, bind, ret.
      pose proof (mapM_length (mockSupport random (orElse (JS.currentPrice data) 65000))
                    (seq 0 4) n) as L1.
      destruct (mapM (mockSupport random _) (seq 0 4) n) as [ss n1].
      pose proof (mapM_length (mockResistance random (orElse (JS.currentPrice data) 65000))
                    (seq 0 4) n1) as L2.
      destruct (mapM (mockResistance random _) (seq 0 4) n1) as [rs n2].
      cbn [fst snd] in *. auto. }
    repeat split; try apply Ts; try apply Tr.
    + destruct Ts as [L _]. rewrite L, (proj1 Ls). reflexivity.
    + destruct Tr as [L _]. rewrite L, (proj2 Ls). reflexivity.
  - intros s. split; apply top_ranked; reflexivity.
Qed.

(** C5, counterexample: the supports returned for the reference price 65000
    and the draws [draws1] lie below the reference (56680 and 59800) and
    carry the positive distances 12.80 and 8.00. *)
Lemma C5_support_distance_positive :
  in_unit draws1
  /\ map (fun l => (Qred (price l), Qred (distance l)))
       (supports (fst (processLevelsData draws1 (payload 65000) 0%nat)))
     = [(56680, 64 # 5); (59800, 8)]
  /\ ~ (forall l,
         In l (supports (fst (processLevelsData draws1 (payload 65000) 0%nat))) ->
         sign_matches 65000 (price l) (distance l)).
Proof.
  split; [apply in_unit_draws1|]. split; [vm_compute; reflexivity|].
  intros H.
  set (kept := supports (fst (processLevelsData draws1 (payload 65000) 0%nat))) in *.
  assert (H1 : In (nth 0%nat kept (scored 0)) kept) by (vm_compute; auto).
  destruct (H _ H1) as [_ Hbelow].
  assert (Hlt : price (nth 0%nat kept (scored 0)) < 65000) by (vm_compute; reflexivity).
  specialize (Hbelow Hlt). vm_compute in Hbelow. discriminate Hbelow.
Qed.

(** C5, amended: for a positive reference price, the distance of every
    liquidity cluster is positive when its price is above the reference and
    negative when it is below.  The distance of a support or resistance
    level is an unsigned magnitude between 2 and 14 percent, for supports
    (below a positive reference) as for resistances (above it). *)
Theorem C5_distance_sign (random : nat -> Q) (Hrandom : in_unit random) :
  (forall data timeframe n c,
     let cp := orElse (JS.currentPrice data) 65000 in
     0 < cp ->
     In c (fst (LiquidityClusters.processClusterData random data timeframe n)) ->
     sign_matches cp (LiquidityClusters.price c) (LiquidityClusters.distance c))
  /\ (forall data n l,
       let cp := orElse (JS.currentPrice data) 65000 in
       let out := fst (processLevelsData random data n) in
       (In l (supports out) ->
          2 <= distance l /\ distance l <= 14 /\ (0 < cp -> price l < cp))
       /\ (In l (resistances out) ->
          2 <= distance l /\ distance l <= 14 /\ (0 < cp -> cp < price l))).
Proof.
  split.
  - intros data tf n c cp Hcp Hin.
    pose proof (processClusterData_shape random data tf n Hrandom) as H.
    rewrite Forall_forall in H. now apply H.
  - intros data n l cp out.
    destruct (candidates_shape random data n Hrandom) as (HS & HR & _).
    destruct (processLevelsData_ranks random data n) as [Es Er].
    fold out in Es, Er. rewrite Forall_forall in HS, HR.
    split; intros Hin.
    + rewrite Es in Hin. apply slice0_In, sort_In in Hin.
      destruct (HS l Hin) as ((L & U) & Hside & _). auto.
    + rewrite Er in Hin. apply slice0_In, sort_In in Hin.
      destruct (HR l Hin) as ((L & U) & Hside & _). auto.
Qed.

(** C5, instance: the clusters generated for the reference price 65000. *)
Lemma C5_distance_sign_witness :
  in_unit always_half
  /\ Forall (fun c => sign_matches 65000 (LiquidityClusters.price c)
                       (LiquidityClusters.distance c))
       (fst (LiquidityClusters.processClusterData always_half (payload 65000)
               "24h" 0%nat)).
Proof.
  split; [apply in_unit_always_half|].
  apply Forall_forall. intros c Hc.
  apply (proj1 (C5_distance_sign always_half in_unit_always_half)
           (payload 65000) "24h"%string 0%nat c); [reflexivity | exact Hc].
Defined.

(** C7: with draws in [0, 1), the reliability of every support and
    resistance level, the strength of every liquidity cluster and the
    confidence of every whale alert lie between 0 and 100, boost for
    psychological levels and scaling per exchange included. *)
Theorem C7_scores_within_0_100 (random : nat -> Q) (Hrandom : in_unit random) :
  (forall levelPrice currentPrice type n,
     (0 <= fst (calculateReliability random levelPrice currentPrice type n) <= 100)%Z)
  /\ (forall data n l,
       let out := fst (processLevelsData random data n) in
       In l (supports out ++ resistances out) ->
       (0 <= reliability l <= 100)%Z)
  /\ (forall data timeframe n c,
       In c (fst (LiquidityClusters.processClusterData random data timeframe n)) ->
       (0 <= LiquidityClusters.strength c <= 100)%Z)
  /\ (forall transaction exchanges n,
       (0 <= fst (WhaleAlerts.calculateConfidence random transaction exchanges n)
        <= 100)%Z)
  /\ (forall data n a,
       In a (fst (WhaleAlerts.processWhaleAlerts random data n)) ->
       (0 <= WhaleAlerts.confidence a <= 100)%Z).
Proof.
  split; [|split; [|split; [|split]]].
  - intros lp cp ty n.
    pose proof (calculateReliability_range random lp cp ty n Hrandom). lia.
  - intros data n l out Hin.
    destruct (candidates_shape random data n Hrandom) as (HS & HR & _).
    destruct (processLevelsData_ranks random data n) as [Es Er].
    fold out in Es, Er. rewrite Forall_forall in HS, HR.
    apply in_app_or in Hin. destruct Hin as [Hin|Hin].
    + rewrite Es in Hin. apply slice0_In, sort_In in Hin.
      destruct (HS l Hin) as (_ & _ & Hrel). lia.
    + rewrite Er in Hin. apply slice0_In, sort_In in Hin.
      destruct (HR l Hin) as (_ & _ & Hrel). lia.
  - intros data tf n c Hin.
    pose proof (processClusterData_shape random data tf n Hrandom) as HC.
    rewrite Forall_forall in HC. destruct (HC c Hin) as [Hs _]. lia.
  - intros tx ex n.
    pose proof (calculateConfidence_range random tx ex n Hrandom). lia.
  - intros data n a Hin.
    pose proof (processWhaleAlerts_confidence random data n Hrandom) as HW.
    rewrite Forall_forall in HW. specialize (HW a Hin). lia.
Qed.

(** C7, instance: the reliability of the level 64500 under constant draws. *)
Lemma C7_scores_witness :
  in_unit always_half
  /\ (0 <= fst (calculateReliability always_half 64500 65000 support 0%nat)
       <= 100)%Z.
Proof.
  split; [apply in_unit_always_half|].
  apply (proj1 (C7_scores_within_0_100 always_half in_unit_always_half)).
Defined.
End SignalClaims.

(** ** The polling loop *)

Section LoopFacts.
Context {State R : Type} (onSettled : Z -> R -> State -> State) (period : Z).
Local Abbreviation step := (Poller.step onSettled period).
Local Abbreviation run := (Poller.run onSettled period).

Lemma run_app (w : Poller.world State) (es1 es2 : list (Poller.event R)) :
  run w (es1 ++ es2) = run (run w es1) es2.
Proof. unfold Poller.run. apply fold_left_app. Qed.

(** Until a cleanup, the interval stays armed and every tick moves its
    next firing time by exactly one period, whatever the requests return. *)
Lemma timer_keeps_period (es : list (Poller.event R)) :
  forall (w : Poller.world State) (t : Z),
    Poller.nextTick w = Some t ->
    forallb (fun e => negb (isCleanup e || isMount e)) es = true ->
    Poller.nextTick (run w es) = Some (t + ticks es * period)%Z.
Proof.
  induction es as [|e es IH]; intros w t Ht Hes.
  - cbn. rewrite Ht. f_equal. unfold ticks. cbn. lia.
  - cbn [forallb] in Hes. apply andb_true_iff in Hes. destruct Hes as [He Hes].
    change (run w (e :: es)) with (run (step w e) es).
    destruct e as [t0 | | i r t0 |]; try discriminate He.
    + rewrite (IH _ (t + period)%Z); [|cbn; now rewrite Ht|assumption].
      f_equal. unfold ticks. cbn [filter List.length].
      rewrite Nat2Z.inj_succ. lia.
    + rewrite (IH _ t); [|cbn; destruct (Poller.isPending i w); cbn; assumption|assumption].
      reflexivity.
Qed.

(** Each tick of an armed interval starts one more request. *)
Lemma tick_starts_fetch (w : Poller.world State) (t : Z) :
  Poller.nextTick w = Some t ->
  Poller.pending (step w Poller.Tick) = Poller.pending w ++ [Poller.started w]
  /\ Poller.started (step w Poller.Tick) = S (Poller.started w)
  /\ Poller.comp (step w Poller.Tick) = Poller.comp w.
Proof. intros Ht. cbn. rewrite Ht. cbn. auto. Qed.

Lemma pending_after_ticks (k : nat) (w : Poller.world State) (t : Z) :
  Poller.nextTick w = Some t ->
  Poller.pending (run w (repeat Poller.Tick k))
  = Poller.pending w ++ seq (Poller.started w) k.
Proof.
  revert w t. induction k as [|k IH]; intros w t Ht.
  - cbn. now rewrite app_nil_r.
  - change (run w (repeat Poller.Tick (S k)))
      with (run (step w Poller.Tick) (repeat Poller.Tick k)).
    rewrite (IH _ (t + period)%Z); cbn; rewrite Ht; cbn; [|reflexivity].
    now rewrite <- app_assoc.
Qed.

(** Once the interval is cleared and no request is pending, only a new
    run of the effect changes anything. *)
Lemma quiet_after_cleanup (es : list (Poller.event R)) (w : Poller.world State) :
  Poller.nextTick w = None -> Poller.pending w = [] ->
  forallb (fun e => negb (isMount e)) es = true ->
  run w es = w.
Proof.
  intros Ht Hp. induction es as [|e es IH]; intros Hes; [reflexivity|].
  cbn [forallb] in Hes. apply andb_true_iff in Hes. destruct Hes as [He Hes].
  change (run w (e :: es)) with (run (step w e) es).
  assert (E : step w e = w).
  { destruct e as [t0 | | i r t0 |]; try discriminate He; cbn.
    - now rewrite Ht.
    - unfold Poller.isPending. now rewrite Hp.
    - destruct w; cbn in *; now subst. }
  rewrite E. now apply IH.
Qed.
End LoopFacts.

(** ** The fetch handlers *)

Section AggregatorClaims.
Import SupportResistance.

Lemma fetch_failed random now r s n :
  failed r = true ->
  fetchSupportResistanceLevels random now r (s, n)
  = (mkState (levels s) false (selectedTimeframe s) (lastUpdated s)
       (currentPrice s), n).
Proof.
  intros H. destruct r as [|[|data]]; try discriminate H; reflexivity.
Qed.

Lemma fetch_ok random now data s n :
  let s' := fst (fetchSupportResistanceLevels random now (Resolved (Obj data)) (s, n)) in
  isLive s' = true
  /\ currentPrice s' = Some (orElse (JS.currentPrice data) 65000)
  /\ lastUpdated s' = Some now
  /\ levels s' = fst (processLevelsData random data n).
Proof.
  cbv zeta. unfold fetchSupportResistanceLevels, try_fetch.
  destruct (processLevelsData random data n) as [lv n1]. cbn. auto.
Qed.

Lemma fetchAll_nth random : forall rs sn k now r,
  nth_error rs k = Some (now, r) ->
  exists before,
    nth_error (sn :: fetchAll random rs sn) k = Some before
    /\ nth_error (fetchAll random rs sn) k
       = Some (fetchSupportResistanceLevels random now r before).
Proof.
  induction rs as [|[t0 r0] rs IH]; intros sn k now r Hk.
  - destruct k; discriminate Hk.
  - destruct k as [|k].
    + injection Hk as -> ->. exists sn. split; reflexivity.
    + cbn [nth_error] in Hk. cbn [fetchAll].
      destruct (IH (fetchSupportResistanceLevels random t0 r0 sn) k now r Hk)
        as (before & Hb & Ha).
      exists before. split; [exact Hb | exact Ha].
Qed.

(** C1: whatever the state reached so far, and at any position of any
    series of fetches, a fetch that fails (rejected request, or a body on
    which the handler throws) sets [isLive] to false and leaves the levels,
    the reference price and the time of the last update as they were; the
    interval is not touched by any response and,
    until a cleanup, fires again one period after each tick; for the fetches
    success(65000), failure, success(66000) the values of [isLive] are
    true, false, true and the reference prices 65000, 65000, 66000. *)
Theorem C1_failed_fetch_is_stale_but_available (random : nat -> Q) :
  (forall now r s n,
     failed r = true ->
     let s' := fst (fetchSupportResistanceLevels random now r (s, n)) in
     isLive s' = false
     /\ levels s' = levels s
     /\ currentPrice s' = currentPrice s
     /\ lastUpdated s' = lastUpdated s)
  /\ (forall rs sn k now r,
       nth_error rs k = Some (now, r) ->
       failed r = true ->
       exists before after,
         nth_error (sn :: fetchAll random rs sn) k = Some before
         /\ nth_error (fetchAll random rs sn) k = Some after
         /\ isLive (fst after) = false
         /\ levels (fst after) = levels (fst before)
         /\ currentPrice (fst after) = currentPrice (fst before))
  /\ (forall w es t,
       Poller.nextTick w = Some t ->
       forallb (fun e => negb (isCleanup e || isMount e)) es = true ->
       Poller.nextTick (levelsLoop random w es)
       = Some (t + ticks es * period)%Z)
  /\ (forall t1 t2 t3 s n,
       let states :=
         fetchAll random [(t1, ok 65000); (t2, Rejected); (t3, ok 66000)]
           (s, n) in
       map (fun sn => isLive (fst sn)) states = [true; false; true]
       /\ map (fun sn => currentPrice (fst sn)) states
          = [Some 65000; Some 65000; Some 66000]).
Proof.
  split; [|split; [|split]].
  - intros now r s n H. cbv zeta. rewrite (fetch_failed random now r s n H).
    cbn. auto.
  - intros rs sn k now r Hk Hr.
    destruct (fetchAll_nth random rs sn k now r Hk) as (before & Hb & Ha).
    exists before, (fetchSupportResistanceLevels random now r before).
    destruct before as [s n]. rewrite (fetch_failed random now r s n Hr).
    rewrite (fetch_failed random now r s n Hr) in Ha. cbn. auto.
  - intros w es t Ht Hes. unfold levelsLoop. now apply timer_keeps_period.
  - intros t1 t2 t3 s n. cbv zeta. cbn [fetchAll].
    destruct (fetch_ok random t1 (payload 65000) s n) as (L1 & P1 & _).
    destruct (fetchSupportResistanceLevels random t1 (ok 65000) (s, n))
      as [s1 n1] eqn:E1.
    change (ok 65000) with (@Resolved JS.body (Obj (payload 65000))) in E1.
    rewrite E1 in L1, P1. cbn [fst] in L1, P1.
    rewrite (fetch_failed random t2 Rejected s1 n1 eq_refl).
    destruct (fetch_ok random t3 (payload 66000)
               (mkState (levels s1) false (selectedTimeframe s1) (lastUpdated s1)
                  (currentPrice s1)) n1) as (L3 & P3 & _).
    change (ok 66000) with (@Resolved JS.body (Obj (payload 66000))).
    destruct (fetchSupportResistanceLevels random t3
                (Resolved (Obj (payload 66000))) _) as [s3 n3].
    cbn [fst map isLive currentPrice] in *. rewrite L1, P1, L3, P3. auto.
Qed.

(** C1, instance: a rejected first request. *)
Lemma C1_witness :
  failed Rejected = true
  /\ isLive (fst (fetchSupportResistanceLevels always_half 7 Rejected
                    (initial, 0%nat)))
     = false.
Proof.
  split; [reflexivity|].
  exact (proj1 (proj1 (C1_failed_fetch_is_stale_but_available always_half)
                  7%Z Rejected initial 0%nat eq_refl)).
Defined.

Lemma falsy_orElse (f : field) (d : Q) : falsy f = true -> orElse f d = d.
Proof.
  destruct f as [| |q]; cbn; try reflexivity. now intros ->.
Qed.

Lemma alert_fetch_ok audio now data s log :
  PriceAlert.fetchCurrentPrice audio now (Resolved (Obj data)) (s, log)
  = let p := orElse (JS.price data) 65000 in
    (PriceAlert.mkState
       (fst (PriceAlert.checkAll audio now p (PriceAlert.alerts s)))
       true (Some p) (Some now)
       (PriceAlert.alertPrice s) (PriceAlert.alertType s)
       (PriceAlert.alertSound s) (PriceAlert.testingSound s),
     log ++ snd (PriceAlert.checkAll audio now p (PriceAlert.alerts s))).
Proof.
  unfold PriceAlert.fetchCurrentPrice, PriceAlert.try_fetch,
    PriceAlert.checkAlerts.
  cbn [PriceAlert.setIsLive PriceAlert.setLastUpdated PriceAlert.setCurrentPrice
       PriceAlert.alerts].
  destruct (PriceAlert.checkAll audio now _ (PriceAlert.alerts s)) as [l played].
  reflexivity.
Qed.

Lemma alert_fetch_failed audio now r s log :
  failed r = true ->
  PriceAlert.fetchCurrentPrice audio now r (s, log)
  = (PriceAlert.setIsLive false s, log).
Proof.
  intros H. destruct r as [|[|data]]; try discriminate H; reflexivity.
Qed.

(** C4, counterexample: after a response with the price 66000, a response
    whose body has no [currentPrice] sets the reference price to 65000, not
    to the previous 66000. *)
Lemma C4_falls_back_to_constant :
  let states :=
    fetchAll always_half [(1%Z, ok 66000); (2%Z, Resolved (Obj noPrice))]
      (initial, 0%nat) in
  let previous := nth 0 (map (fun sn => currentPrice (fst sn)) states) None in
  let next := nth 1 (map (fun sn => currentPrice (fst sn)) states) None in
  previous = Some 66000 /\ next = Some 65000 /\ next <> previous.
Proof.
  cbv zeta. split; [vm_compute; reflexivity|].
  split; [vm_compute; reflexivity|]. vm_compute. discriminate.
Qed.

(** C4, amended: when the body of a successful response has no usable price
    (the field is missing, null or zero) the reference price becomes the
    constant 65000, whatever it was before, and the module stays live; the
    price alerts are then evaluated against 65000.  A response on which the
    handler throws is caught: it only clears [isLive].  In both cases the
    interval keeps firing at its period. *)
Theorem C4_missing_price_defaults_to_65000 :
  (forall random now data s n,
     falsy (JS.currentPrice data) = true ->
     let s' := fst (fetchSupportResistanceLevels random now
                      (Resolved (Obj data)) (s, n)) in
     currentPrice s' = Some 65000 /\ isLive s' = true)
  /\ (forall audio now data s log,
       falsy (JS.price data) = true ->
       let s' := fst (PriceAlert.fetchCurrentPrice audio now
                        (Resolved (Obj data)) (s, log)) in
       PriceAlert.currentPrice s' = Some 65000
       /\ PriceAlert.isLive s' = true
       /\ PriceAlert.alerts s'
          = fst (PriceAlert.checkAll audio now 65000 (PriceAlert.alerts s)))
  /\ (forall random now r s n,
       failed r = true ->
       fetchSupportResistanceLevels random now r (s, n)
       = (mkState (levels s) false (selectedTimeframe s) (lastUpdated s)
            (currentPrice s), n))
  /\ (forall audio now r s log,
       failed r = true ->
       PriceAlert.fetchCurrentPrice audio now r (s, log)
       = (PriceAlert.setIsLive false s, log))
  /\ (forall random w i r t0 es t,
       Poller.nextTick w = Some t ->
       forallb (fun e => negb (isCleanup e || isMount e)) es = true ->
       Poller.nextTick (levelsLoop random w (Poller.Settle i r t0 :: es))
       = Some (t + ticks es * period)%Z)
  /\ (forall audio w i r t0 es t,
       Poller.nextTick w = Some t ->
       forallb (fun e => negb (isCleanup e || isMount e)) es = true ->
       Poller.nextTick (alertLoop audio w (Poller.Settle i r t0 :: es))
       = Some (t + ticks es * PriceAlert.period)%Z).
Proof.
  split; [|split; [|split; [|split; [|split]]]].
  - intros random now data s n Hf. cbv zeta.
    destruct (fetch_ok random now data s n) as (L & P & _).
    rewrite P, L, (falsy_orElse _ _ Hf). auto.
  - intros audio now data s log Hf. cbv zeta.
    rewrite alert_fetch_ok. cbv zeta. rewrite (falsy_orElse _ _ Hf). cbn. auto.
  - intros. now apply fetch_failed.
  - intros. now apply alert_fetch_failed.
  - intros random w i r t0 es t Ht Hes. unfold levelsLoop.
    rewrite (timer_keeps_period _ _ (Poller.Settle i r t0 :: es) w t Ht).
    + reflexivity.
    + cbn [forallb]. now rewrite Hes.
  - intros audio w i r t0 es t Ht Hes. unfold alertLoop.
    rewrite (timer_keeps_period _ _ (Poller.Settle i r t0 :: es) w t Ht).
    + reflexivity.
    + cbn [forallb]. now rewrite Hes.
Qed.

(** C4, instance: a body without price as the first response. *)
Lemma C4_witness :
  falsy (JS.currentPrice noPrice) = true
  /\ currentPrice (fst (fetchSupportResistanceLevels always_half 2
                          (Resolved (Obj noPrice)) (initial, 0%nat)))
     = Some 65000.
Proof.
  split; [reflexivity|].
  exact (proj1 (proj1 C4_missing_price_defaults_to_65000
                  always_half 2%Z noPrice initial 0%nat eq_refl)).
Defined.

End AggregatorClaims.

(** ** Price alerts *)

Section AlertClaims.
Import PriceAlert.

Variable audio : soundName -> bool.
Hypothesis audio_mounted : forall name, audio name = true.

Lemma checkAlert_triggered now p a :
  triggered a = true -> checkAlert audio now p a = (a, []).
Proof. intros H. unfold checkAlert. now rewrite H. Qed.

Lemma checkAlert_armed now p a :
  triggered a = false ->
  checkAlert audio now p a
  = if shouldTrigger p a then (fired now a, [sound a]) else (a, []).
Proof.
  intros H. unfold checkAlert. rewrite H. cbn [negb].
  destruct (shouldTrigger p a); [|reflexivity].
  now rewrite audio_mounted.
Qed.

Lemma settled_cons now p ups a :
  settled ((now, p) :: ups) a
  = if shouldTrigger p a then fired now a else settled ups a.
Proof. unfold settled. cbn [firstHit]. now destruct (shouldTrigger p a). Qed.

Lemma seen_cons now p ups a :
  seen ((now, p) :: ups) a = shouldTrigger p a || seen ups a.
Proof. reflexivity. Qed.

Lemma notified_nil (l : list alert) : filter (notified []) l = [].
Proof.
  induction l as [|a l IH]; [reflexivity|]. cbn [filter].
  unfold notified at 1. cbn. now rewrite andb_false_r.
Qed.

Lemma settled_triggered ups a :
  triggered a = false -> triggered (settled ups a) = seen ups a.
Proof.
  intros H. induction ups as [|[now p] ups IH]; [exact H|].
  rewrite settled_cons, seen_cons.
  destruct (shouldTrigger p a); [reflexivity | exact IH].
Qed.

Lemma shouldTrigger_spec p a t :
  price a = Fin t ->
  (shouldTrigger p a = true
   <-> match type a with above => t <= p | below => p <= t end).
Proof.
  intros H. unfold shouldTrigger, geb. rewrite H.
  destruct (type a); cbn [leb]; apply Qle_bool_iff.
Qed.
End AlertClaims.

Section AlertSteps.
Import PriceAlert.
Variable audio : soundName -> bool.

(** The new alert produced by the callback does not depend on the audio
    elements. *)
Lemma checkAlert_fst now p a :
  fst (checkAlert audio now p a)
  = if negb (triggered a) && shouldTrigger p a then fired now a else a.
Proof.
  unfold checkAlert. destruct (triggered a); cbn [negb andb]; [reflexivity|].
  now destruct (shouldTrigger p a).
Qed.

Lemma checkAll_fst now p (l : list alert) :
  fst (checkAll audio now p l) = map (fun a => fst (checkAlert audio now p a)) l.
Proof.
  induction l as [|a l IH]; [reflexivity|]. cbn [checkAll map].
  destruct (checkAlert audio now p a) as [a' pl].
  destruct (checkAll audio now p l) as [l' pl']. cbn [fst] in *. now rewrite IH.
Qed.

Lemma checkAll_snd now p (l : list alert) :
  snd (checkAll audio now p l)
  = flat_map (fun a => snd (checkAlert audio now p a)) l.
Proof.
  induction l as [|a l IH]; [reflexivity|]. cbn [checkAll flat_map].
  destruct (checkAlert audio now p a) as [a' pl].
  destruct (checkAll audio now p l) as [l' pl']. cbn [snd] in *. now rewrite IH.
Qed.

Lemma checkAlert_keeps now p a :
  let a' := fst (checkAlert audio now p a) in
  PriceAlert.id a' = PriceAlert.id a /\ PriceAlert.price a' = PriceAlert.price a
  /\ type a' = type a /\ sound a' = sound a /\ created a' = created a
  /\ (triggered a = true -> a' = a)
  /\ (triggered a' = false -> a' = a).
Proof.
  cbv zeta. rewrite checkAlert_fst.
  destruct (triggered a) eqn:T; cbn [negb andb]; [repeat split; auto|].
  destruct (shouldTrigger p a); cbn; repeat split; auto; congruence.
Qed.

Lemma afterUpdates_cons now p ups a :
  afterUpdates ((now, p) :: ups) a
  = afterUpdates ups (fst (checkAlert audio now p a)).
Proof.
  rewrite checkAlert_fst. unfold afterUpdates.
  destruct (triggered a) eqn:T; cbn [negb andb]; [now rewrite T|].
  rewrite settled_cons.
  destruct (shouldTrigger p a); [reflexivity | now rewrite T].
Qed.

Lemma afterUpdates_nil a : afterUpdates [] a = a.
Proof. unfold afterUpdates, settled. cbn. now destruct (triggered a). Qed.

Lemma notified_step now p ups a :
  notified ((now, p) :: ups) a
  = (negb (triggered a) && shouldTrigger p a)
    || notified ups (fst (checkAlert audio now p a)).
Proof.
  rewrite checkAlert_fst. unfold notified. rewrite seen_cons.
  destruct (triggered a) eqn:T; cbn [negb andb orb]; [now rewrite T|].
  destruct (shouldTrigger p a); cbn [orb]; [reflexivity|]. now rewrite T.
Qed.

Lemma checkAlert_snd now p a :
  snd (checkAlert audio now p a)
  = if negb (triggered a) && shouldTrigger p a && audio (sound a)
    then [sound a] else [].
Proof.
  unfold checkAlert. destruct (triggered a); cbn [negb andb]; [reflexivity|].
  destruct (shouldTrigger p a); cbn [andb snd]; reflexivity.
Qed.

Lemma played_step now p ups (l : list alert) :
  (forall name, audio name = true) ->
  Permutation
    (snd (checkAll audio now p l)
     ++ map sound (filter (notified ups) (fst (checkAll audio now p l))))
    (map sound (filter (notified ((now, p) :: ups)) l)).
Proof.
  intros Hm. rewrite checkAll_fst, checkAll_snd.
  induction l as [|a l IH]; [reflexivity|].
  cbn [flat_map map filter]. rewrite notified_step, checkAlert_snd, Hm, andb_true_r.
  destruct (negb (triggered a) && shouldTrigger p a) eqn:E; cbn [orb app].
  - assert (N : notified ups (fst (checkAlert audio now p a)) = false).
    { rewrite checkAlert_fst, E. reflexivity. }
    rewrite N. cbn [map]. now apply perm_skip.
  - assert (S : sound (fst (checkAlert audio now p a)) = sound a)
      by apply checkAlert_keeps.
    destruct (notified ups (fst (checkAlert audio now p a))); [|exact IH].
    cbn [map]. rewrite S, <- Permutation_middle. now apply perm_skip.
Qed.

Lemma fetchSeries_cons now r rs sl :
  fetchSeries audio ((now, r) :: rs) sl
  = fetchSeries audio rs (fetchCurrentPrice audio now r sl).
Proof. reflexivity. Qed.

Lemma fetchSeries_alerts rs : forall s log,
  alerts (fst (fetchSeries audio rs (s, log)))
  = map (afterUpdates (pricesOf rs)) (alerts s).
Proof.
  induction rs as [|[now r] rs IH]; intros s log.
  - cbn. rewrite (map_ext _ (fun a => a)) by apply afterUpdates_nil.
    now rewrite map_id.
  - rewrite fetchSeries_cons. destruct r as [|[|data]].
    + rewrite alert_fetch_failed by reflexivity. rewrite IH. reflexivity.
    + rewrite alert_fetch_failed by reflexivity. rewrite IH. reflexivity.
    + rewrite alert_fetch_ok. cbv zeta. rewrite IH. cbn [alerts pricesOf].
      rewrite checkAll_fst, map_map. apply map_ext. intros a.
      now rewrite afterUpdates_cons.
Qed.

Lemma fetchSeries_log rs : forall s log,
  (forall name, audio name = true) ->
  exists played,
    snd (fetchSeries audio rs (s, log)) = log ++ played
    /\ Permutation played
         (map sound (filter (notified (pricesOf rs)) (alerts s))).
Proof.
  induction rs as [|[now r] rs IH]; intros s log Hm.
  - exists []. cbn. rewrite app_nil_r, notified_nil. split; reflexivity.
  - rewrite fetchSeries_cons. destruct r as [|[|data]].
    + rewrite alert_fetch_failed by reflexivity.
      destruct (IH (setIsLive false s) log Hm) as (pl & E & P).
      exists pl. split; assumption.
    + rewrite alert_fetch_failed by reflexivity.
      destruct (IH (setIsLive false s) log Hm) as (pl & E & P).
      exists pl. split; assumption.
    + rewrite alert_fetch_ok. cbv zeta.
      match goal with
      | |- context [fetchSeries audio rs (?s1, ?l1)] =>
          destruct (IH s1 l1 Hm) as (pl & E & P)
      end.
      cbn [alerts] in P.
      exists (snd (checkAll audio now (orElse (JS.price data) 65000) (alerts s))
              ++ pl).
      split; [rewrite E; now rewrite app_assoc|].
      cbn [pricesOf]. rewrite <- played_step by assumption.
      now apply Permutation_app_head.
Qed.

Lemma flat_map_nil {A B : Type} (f : A -> list B) (l : list A) :
  (forall a, In a l -> f a = []) -> flat_map f l = [].
Proof.
  induction l as [|a l IH]; intros H; [reflexivity|]. cbn [flat_map].
  rewrite (H a (or_introl eq_refl)), IH; [reflexivity|].
  intros b Hb. apply H. now right.
Qed.

Lemma checkAll_pair now p (l : list alert) :
  checkAll audio now p l
  = (map (fun a => fst (checkAlert audio now p a)) l,
     flat_map (fun a => snd (checkAlert audio now p a)) l).
Proof.
  rewrite <- checkAll_fst, <- checkAll_snd. now destruct (checkAll audio now p l).
Qed.

Lemma afterUpdates_one now p a :
  afterUpdates [(now, p)] a = fst (checkAlert audio now p a).
Proof. now rewrite afterUpdates_cons, afterUpdates_nil. Qed.

Lemma checkAlerts_once now p s :
  (forall name, audio name = true) ->
  checkAlerts audio now p s
  = (setAlerts (fun _ => map (afterUpdates [(now, p)]) (alerts s)) s,
     map sound (filter (notified [(now, p)]) (alerts s))).
Proof.
  intros Hm. unfold checkAlerts. rewrite checkAll_pair.
  replace (map (fun a => fst (checkAlert audio now p a)) (alerts s))
    with (map (afterUpdates [(now, p)]) (alerts s))
    by (apply map_ext; intros a; apply afterUpdates_one).
  f_equal. generalize (alerts s). intros l.
  induction l as [|a l IH]; [reflexivity|].
  cbn [flat_map filter]. rewrite IH, checkAlert_snd, Hm, andb_true_r.
  unfold notified at 2, seen. cbn [existsb snd]. rewrite orb_false_r.
  now destruct (negb (triggered a) && shouldTrigger p a).
Qed.

Lemma fetch_keeps_triggered now r sl :
  Forall2 (fun a a' => triggered a = true -> a' = a)
    (alerts (fst sl)) (alerts (fst (fetchCurrentPrice audio now r sl))).
Proof.
  destruct sl as [s log].
  assert (R : forall l : list alert,
            Forall2 (fun a a' => triggered a = true -> a' = a) l l).
  { induction l; constructor; auto. }
  destruct r as [|[|data]].
  - rewrite alert_fetch_failed by reflexivity. apply R.
  - rewrite alert_fetch_failed by reflexivity. apply R.
  - rewrite alert_fetch_ok. cbv zeta. cbn [fst alerts]. rewrite checkAll_fst.
    induction (alerts s) as [|a l IH]; cbn [map]; constructor; [|exact IH].
    apply checkAlert_keeps.
Qed.

Lemma firstHit_none ups a :
  (forall u, In u ups -> shouldTrigger (snd u) a = false) ->
  firstHit ups a = None /\ seen ups a = false.
Proof.
  induction ups as [|[now p] ups IH]; intros H; [split; reflexivity|].
  cbn [firstHit]. rewrite seen_cons.
  pose proof (H (now, p) (or_introl eq_refl)) as E. cbn [snd] in E.
  rewrite E. cbn [orb]. apply IH.
  intros u Hu. apply H. now right.
Qed.

Lemma firstHit_first before now p after a :
  (forall u, In u before -> shouldTrigger (snd u) a = false) ->
  shouldTrigger p a = true ->
  firstHit (before ++ (now, p) :: after) a = Some now
  /\ seen (before ++ (now, p) :: after) a = true.
Proof.
  induction before as [|[t0 p0] before IH]; intros H Hp.
  - cbn [app firstHit]. rewrite seen_cons, Hp. split; reflexivity.
  - cbn [app firstHit]. rewrite seen_cons.
    pose proof (H (t0, p0) (or_introl eq_refl)) as E. cbn [snd] in E.
    rewrite E. cbn [orb]. apply IH; [|exact Hp].
    intros u Hu. apply H. now right.
Qed.

Lemma afterUpdates_first before now p after a :
  triggered a = false ->
  (forall u, In u before -> shouldTrigger (snd u) a = false) ->
  shouldTrigger p a = true ->
  afterUpdates (before ++ (now, p) :: after) a = fired now a
  /\ notified (before ++ (now, p) :: after) a = true.
Proof.
  intros T H Hp. destruct (firstHit_first before now p after a H Hp) as [F S].
  unfold afterUpdates, settled, notified. rewrite T, F, S. split; reflexivity.
Qed.

Lemma afterUpdates_idle ups a :
  triggered a = true
  \/ (forall u, In u ups -> shouldTrigger (snd u) a = false) ->
  afterUpdates ups a = a /\ notified ups a = false.
Proof.
  unfold afterUpdates, settled, notified. intros [T|H].
  - rewrite T. split; reflexivity.
  - destruct (firstHit_none ups a H) as [F S]. rewrite F, S, andb_false_r.
    split; [now destruct (triggered a) | reflexivity].
Qed.

(** A run of the fetch function with every ref reset plays nothing. *)
Lemma detached_plays_nothing now r s log :
  snd (fetchCurrentPrice detached now r (s, log)) = log.
Proof.
  destruct r as [|[|data]].
  - now rewrite alert_fetch_failed.
  - now rewrite alert_fetch_failed.
  - rewrite alert_fetch_ok. cbv zeta. cbn [snd].
    rewrite <- (app_nil_r log) at 2. f_equal.
    generalize (orElse (JS.price data) 65000) (alerts s). intros p l.
    induction l as [|a l IH]; [reflexivity|]. cbn [checkAll].
    destruct (checkAll detached now p l) as [l' pl]. cbn [snd] in IH. subst pl.
    unfold checkAlert, detached.
    destruct (negb (triggered a)); [|reflexivity].
    now destruct (shouldTrigger p a).
Qed.
End AlertSteps.

Section AlertTheorems.
Import PriceAlert.

(** C2: with the audio elements mounted, [checkAlerts] leaves a triggered
    alert exactly as it is, and turns an armed alert into a triggered one,
    playing its sound once, exactly when the price is at or above the target
    (direction above) or at or below it (direction below); no fetch ever
    changes an alert that is triggered.  Hence after any series of fetches
    an armed alert is triggered if and only if its condition held at one of
    the prices received, it carries the time of the first such price, and
    the sounds played are one per alert that triggered.  For the alert
    (70000, above) and the prices 65000, 69000, 70500 the flag reads false,
    false, true and one sound is played, at the third price. *)
Theorem C2_alert_triggers_once (audio : soundName -> bool)
  (Hmounted : forall name, audio name = true) :
  (forall p a t,
     price a = Fin t ->
     (shouldTrigger p a = true
      <-> match type a with above => t <= p | below => p <= t end))
  /\ (forall now p a,
       triggered a = true -> checkAlert audio now p a = (a, []))
  /\ (forall now p a,
       triggered a = false ->
       checkAlert audio now p a
       = if shouldTrigger p a then (fired now a, [sound a]) else (a, []))
  /\ (forall now p s,
       checkAlerts audio now p s
       = (setAlerts (fun _ => map (afterUpdates [(now, p)]) (alerts s)) s,
          map sound (filter (notified [(now, p)]) (alerts s))))
  /\ (forall now r sl,
       Forall2 (fun a a' => triggered a = true -> a' = a)
         (alerts (fst sl)) (alerts (fst (fetchCurrentPrice audio now r sl))))
  /\ (forall rs s log,
       alerts (fst (fetchSeries audio rs (s, log)))
       = map (afterUpdates (pricesOf rs)) (alerts s)
       /\ exists played,
            snd (fetchSeries audio rs (s, log)) = log ++ played
            /\ Permutation played
                 (map sound (filter (notified (pricesOf rs)) (alerts s))))
  /\ (forall before now p after a,
       triggered a = false ->
       (forall u, In u before -> shouldTrigger (snd u) a = false) ->
       shouldTrigger p a = true ->
       afterUpdates (before ++ (now, p) :: after) a = fired now a
       /\ notified (before ++ (now, p) :: after) a = true)
  /\ (forall ups a,
       triggered a = true
       \/ (forall u, In u ups -> shouldTrigger (snd u) a = false) ->
       afterUpdates ups a = a /\ notified ups a = false)
  /\ (forall s log,
       alerts s = [alert70000] ->
       let sl1 := fetchCurrentPrice audio 1 (ok 65000) (s, log) in
       let sl2 := fetchCurrentPrice audio 2 (ok 69000) sl1 in
       let sl3 := fetchCurrentPrice audio 3 (ok 70500) sl2 in
       (map triggered (alerts (fst sl1)), map triggered (alerts (fst sl2)),
        map triggered (alerts (fst sl3)))
       = ([false], [false], [true])
       /\ map triggeredAt (alerts (fst sl3)) = [Some 3%Z]
       /\ (snd sl1, snd sl2, snd sl3) = (log, log, log ++ [sound alert70000])).
Proof.
  split; [|split; [|split; [|split; [|split; [|split; [|split; [|split]]]]]]].
  - apply shouldTrigger_spec.
  - apply checkAlert_triggered.
  - now apply checkAlert_armed.
  - intros. now apply checkAlerts_once.
  - apply fetch_keeps_triggered.
  - intros rs s log. split; [apply fetchSeries_alerts|].
    now apply fetchSeries_log.
  - apply afterUpdates_first.
  - apply afterUpdates_idle.
  - intros s log Hs. cbv zeta.
    unfold ok. rewrite !alert_fetch_ok. cbv zeta.
    cbn [alerts fst snd]. rewrite Hs.
    change (orElse (JS.price (payload 65000)) 65000) with (65000 : Q).
    change (orElse (JS.price (payload 69000)) 65000) with (69000 : Q).
    change (orElse (JS.price (payload 70500)) 65000) with (70500 : Q).
    rewrite !checkAll_pair. cbn [map flat_map fst snd].
    rewrite (checkAlert_armed audio Hmounted 1 65000 alert70000 eq_refl).
    change (shouldTrigger 65000 alert70000) with false. cbn [fst snd app].
    rewrite (checkAlert_armed audio Hmounted 2 69000 alert70000 eq_refl).
    change (shouldTrigger 69000 alert70000) with false. cbn [fst snd app].
    rewrite (checkAlert_armed audio Hmounted 3 70500 alert70000 eq_refl).
    change (shouldTrigger 70500 alert70000) with true. cbn [fst snd app].
    rewrite !app_nil_r. repeat split.
Qed.

(** C2, instance: the scenario with every audio element mounted. *)
Lemma C2_witness :
  (forall name, mounted name = true)
  /\ snd (fetchCurrentPrice mounted 3 (ok 70500)
            (fetchCurrentPrice mounted 2 (ok 69000)
               (fetchCurrentPrice mounted 1 (ok 65000)
                  (setAlerts (fun _ => [alert70000]) initial, []))))
     = [alarm1].
Proof.
  split; [reflexivity|].
  pose proof (proj2 (proj2 (proj2 (proj2 (proj2 (proj2 (proj2 (proj2
           (C2_alert_triggers_once mounted (fun _ => eq_refl)))))))))
           (setAlerts (fun _ => [alert70000]) initial) [] eq_refl) as H.
  cbv zeta in H. destruct H as (_ & _ & H).
  exact (f_equal (fun t => snd t) H).
Defined.

(** C10: submitting the form appends a new alert exactly when [parseFloat]
    of the input is a number greater than zero; the new alert is not
    triggered and the alerts already present are unchanged; otherwise
    ([NaN], zero or a negative number) the state is left as it is. *)
Theorem C10_alert_added_iff_positive (parseFloat : string -> number)
  (now : Z) (s : state) :
  let priceValue := parseFloat (alertPrice s) in
  let newAlert :=
    mkAlert now priceValue (alertType s) (alertSound s) now false None in
  let s' := fst (handleAddAlert parseFloat now s) in
  (alerts s' = alerts s ++ [newAlert] <-> positive priceValue)
  /\ triggered newAlert = false
  /\ (positive priceValue -> firstn (List.length (alerts s)) (alerts s') = alerts s)
  /\ (~ positive priceValue -> s' = s).
Proof.
  cbv zeta. unfold handleAddAlert.
  assert (D : (isNaN (parseFloat (alertPrice s))
               || leb (parseFloat (alertPrice s)) (Fin 0) = false
               /\ positive (parseFloat (alertPrice s)))
              \/ (isNaN (parseFloat (alertPrice s))
                  || leb (parseFloat (alertPrice s)) (Fin 0) = true
                  /\ ~ positive (parseFloat (alertPrice s)))).
  { destruct (parseFloat (alertPrice s)) as [| |q|]; cbn; auto.
    destruct (Qle_bool q 0) eqn:E; [right | left]; split; try reflexivity.
    - apply Qle_bool_iff in E. lra.
    - apply Qnot_le_lt. intros H. apply Qle_bool_iff in H. congruence. }
  destruct D as [[E P]|[E P]]; rewrite E; cbn [fst alerts setAlertPrice setAlerts].
  - split; [tauto|]. split; [reflexivity|]. split; [|tauto].
    intros _. rewrite firstn_app, firstn_all, Nat.sub_diag. cbn.
    now rewrite app_nil_r.
  - split; [|tauto]. split; [|tauto]. intros H. exfalso.
    apply (f_equal (@List.length alert)) in H. rewrite length_app in H.
    cbn in H. lia.
Qed.

(** C10, instance: an input read as 70000 on the empty list. *)
Lemma C10_witness :
  positive (reads70000 (alertPrice initial))
  /\ alerts (fst (handleAddAlert reads70000 5 initial))
     = [mkAlert 5 (Fin 70000) above alarm1 5 false None].
Proof.
  assert (P : positive (reads70000 (alertPrice initial))) by reflexivity.
  split; [exact P|].
  exact (proj2 (proj1 (C10_alert_added_iff_positive reads70000 5%Z initial)) P).
Defined.
End AlertTheorems.

(** ** Cancellation and overlapping requests *)

Section LoopClaims.
Context {State R : Type} (onSettled : Z -> R -> State -> State) (period : Z).
Local Abbreviation step := (Poller.step onSettled period).
Local Abbreviation run := (Poller.run onSettled period).

Lemma settle_in_arrival_order (w : Poller.world State) i j ri rj ti tj :
  i <> j ->
  Poller.isPending i w = true -> Poller.isPending j w = true ->
  Poller.comp (run w [Poller.Settle j rj tj; Poller.Settle i ri ti])
  = onSettled ti ri (onSettled tj rj (Poller.comp w)).
Proof.
  intros Hij Hi Hj. cbn. rewrite Hj.
  assert (Hi' : Poller.isPending i
            (Poller.mkWorld State (onSettled tj rj (Poller.comp w))
               (Poller.nextTick w)
               (filter (fun k => negb (j =? k)%nat) (Poller.pending w))
               (Poller.started w)) = true).
  { unfold Poller.isPending in *. cbn. apply existsb_exists in Hi.
    destruct Hi as (k & Hk & E). apply Nat.eqb_eq in E. subst k.
    apply existsb_exists. exists i. split; [|apply Nat.eqb_refl].
    apply filter_In. split; [assumption|].
    apply negb_true_iff, Nat.eqb_neq. congruence. }
  rewrite Hi'. reflexivity.
Qed.

Variable onLate : Z -> R -> State -> State.
Local Abbreviation deliver := (Poller.deliver onSettled period onLate).
Local Abbreviation life := (Poller.life onSettled period onLate).

(** While the component is mounted its life is the loop. *)
Lemma life_while_mounted (es : list (Poller.event R)) :
  forall w,
    life (Poller.mkInstance w true) (map Poller.Event es)
    = Poller.mkInstance (run w es) true.
Proof.
  induction es as [|e es IH]; intros w; [reflexivity|].
  cbn [map]. unfold Poller.life. cbn [fold_left].
  change (fold_left deliver (map Poller.Event es)
            (deliver (Poller.mkInstance w true) (Poller.Event e)))
    with (life (deliver (Poller.mkInstance w true) (Poller.Event e))
            (map Poller.Event es)).
  unfold Poller.deliver. cbn [Poller.isMounted Poller.world_of].
  rewrite IH. reflexivity.
Qed.

(** Once the component is unmounted, what the late runs leave alone stays
    as it is, and nothing starts again. *)
Lemma life_after_unmount {V : Type} (view : State -> V) :
  (forall t r c, view (onLate t r c) = view c) ->
  forall (es : list (Poller.lifeEvent R)) (c : Poller.instance State),
    Poller.isMounted c = false ->
    let c' := life c es in
    Poller.isMounted c' = false
    /\ Poller.nextTick (Poller.world_of c') = Poller.nextTick (Poller.world_of c)
    /\ Poller.started (Poller.world_of c') = Poller.started (Poller.world_of c)
    /\ view (Poller.comp (Poller.world_of c'))
       = view (Poller.comp (Poller.world_of c)).
Proof.
  intros Hview es. induction es as [|e es IH]; intros c Hc; cbv zeta.
  - cbn. auto.
  - unfold Poller.life. cbn [fold_left].
    change (fold_left deliver es (deliver c e)) with (life (deliver c e) es).
    assert (D : Poller.isMounted (deliver c e) = false
                /\ Poller.nextTick (Poller.world_of (deliver c e))
                   = Poller.nextTick (Poller.world_of c)
                /\ Poller.started (Poller.world_of (deliver c e))
                   = Poller.started (Poller.world_of c)
                /\ view (Poller.comp (Poller.world_of (deliver c e)))
                   = view (Poller.comp (Poller.world_of c))).
    { unfold Poller.deliver. rewrite Hc.
      destruct e as [[t0 | | i r t0 |]|]; auto.
      destruct (Poller.isPending i (Poller.world_of c)); cbn; auto. }
    destruct D as (D1 & D2 & D3 & D4).
    destruct (IH (deliver c e) D1) as (I1 & I2 & I3 & I4).
    cbv zeta in *. rewrite I2, I3, I4. auto.
Qed.

Lemma unmount_then_life {V : Type} (view : State -> V) :
  (forall t r c, view (onLate t r c) = view c) ->
  forall (es : list (Poller.lifeEvent R)) (c : Poller.instance State),
    Poller.isMounted c = true ->
    let c' := life c (Poller.Unmount :: es) in
    Poller.isMounted c' = false
    /\ Poller.nextTick (Poller.world_of c') = None
    /\ Poller.started (Poller.world_of c') = Poller.started (Poller.world_of c)
    /\ view (Poller.comp (Poller.world_of c'))
       = view (Poller.comp (Poller.world_of c)).
Proof.
  intros Hview es c Hc. cbv zeta. unfold Poller.life. cbn [fold_left].
  change (fold_left deliver es (deliver c Poller.Unmount))
    with (life (deliver c Poller.Unmount) es).
  assert (E : deliver c Poller.Unmount
              = Poller.mkInstance
                  (Poller.clearInterval (Poller.world_of c)) false).
  { unfold Poller.deliver. now rewrite Hc. }
  rewrite E.
  destruct (life_after_unmount view Hview es
              (Poller.mkInstance (Poller.clearInterval (Poller.world_of c))
                 false) eq_refl) as (I1 & I2 & I3 & I4).
  cbv zeta in *. rewrite I1, I2, I3, I4. cbn. auto.
Qed.
End LoopClaims.

Section LateResponses.
Import SupportResistance.

(** A request that is in flight when another timeframe is chosen is still
    in flight afterwards, next to the request of the new effect, and its
    response is handled as any other. *)
Lemma late_after_timeframe_change random value t
  (w : Poller.world (state * nat)) i r t' :
  value <> selectedTimeframe (fst (Poller.comp w)) ->
  Poller.isPending i w = true ->
  let w' := changeTimeframe random value t w in
  Poller.comp w' = (handleTimeframeChange value (fst (Poller.comp w)),
                    snd (Poller.comp w))
  /\ Poller.nextTick w' = Some (t + period)%Z
  /\ Poller.pending w' = Poller.pending w ++ [Poller.started w]
  /\ Poller.comp (levelsLoop random w' [Poller.Settle i r t'])
     = fetchSupportResistanceLevels random t' r (Poller.comp w').
Proof.
  intros Hv Hi. cbv zeta. unfold changeTimeframe.
  apply String.eqb_neq in Hv. rewrite Hv.
  unfold levelsLoop, Poller.run. cbn [fold_left Poller.step].
  unfold Poller.clearInterval, Poller.startFetch, Poller.setInterval.
  cbn [Poller.comp Poller.nextTick Poller.pending Poller.started].
  split; [reflexivity|]. split; [reflexivity|]. split; [reflexivity|].
  unfold Poller.isPending in *.
  cbn [Poller.comp Poller.nextTick Poller.pending Poller.started].
  rewrite existsb_app, Hi. reflexivity.
Qed.

Lemma late_alert_run_is_idle now r (c : PriceAlert.state * list PriceAlert.soundName) :
  Poller.ignoringSetters (PriceAlert.fetchCurrentPrice PriceAlert.detached now r) c
  = c.
Proof.
  destruct c as [s log]. unfold Poller.ignoringSetters. cbn [fst].
  now rewrite detached_plays_nothing.
Qed.
End LateResponses.

(** C8, counterexample: in the level module the first request is in flight
    when the timeframe changes (cleanup, then the effect runs again); when
    that request settles afterwards its handler still replaces the levels,
    the reference price and the time of the last update. *)
Lemma C8_response_after_cleanup_is_applied :
  let w1 := levelsLoop always_half
              (Poller.start (SupportResistance.initial, 0%nat))
              [Poller.Mount 0] in
  let w2 := changeTimeframe always_half "1D" 10 w1 in
  let w3 := levelsLoop always_half w2 [Poller.Settle 0 (ok 66000) 20] in
  Poller.pending w1 = [0%nat]
  /\ Poller.pending w2 = [0%nat; 1%nat]
  /\ SupportResistance.currentPrice (fst (Poller.comp w2)) = None
  /\ SupportResistance.currentPrice (fst (Poller.comp w3)) = Some 66000
  /\ SupportResistance.lastUpdated (fst (Poller.comp w3)) = Some 20%Z
  /\ Poller.comp w3 <> Poller.comp w2.
Proof.
  cbv zeta. repeat split; try (vm_compute; reflexivity).
  intros H. apply (f_equal (fun c => SupportResistance.lastUpdated (fst c))) in H.
  vm_compute in H. discriminate H.
Qed.

(** C8, amended: the cleanup of the effect only clears the interval.  It is
    idempotent, leaves the state and the pending requests alone, and after
    it no tick starts a fetch; with nothing in flight nothing changes until
    the effect runs again.  No handler tests a cancellation, so a request
    in flight when the cleanup runs is never withdrawn.  In the level
    module, where the cleanup runs because another timeframe was chosen and
    the component stays mounted, the response that arrives afterwards is
    handled like any other and replaces the state.  When the cleanup runs
    because the component is unmounted, which is its only occasion in the
    price alert module, the late run of the handler changes nothing: its
    setters are ignored and, every ref being reset, it plays no sound. *)
Theorem C8_cleanup_only_clears_interval :
  (forall (State R : Type) (onSettled : Z -> R -> State -> State) (period : Z),
     let step := Poller.step onSettled period in
     let run := Poller.run onSettled period in
     (forall w, step (step w Poller.Cleanup) Poller.Cleanup = step w Poller.Cleanup)
     /\ (forall w,
          Poller.nextTick (step w Poller.Cleanup) = None
          /\ Poller.comp (step w Poller.Cleanup) = Poller.comp w
          /\ Poller.pending (step w Poller.Cleanup) = Poller.pending w)
     /\ (forall w, step (step w Poller.Cleanup) Poller.Tick = step w Poller.Cleanup)
     /\ (forall w es,
          Poller.pending w = [] ->
          forallb (fun e => negb (isMount e)) es = true ->
          run (step w Poller.Cleanup) es = step w Poller.Cleanup)
     /\ (forall onLate w es,
          Poller.life onSettled period onLate (Poller.mkInstance w true)
            (map Poller.Event es)
          = Poller.mkInstance (run w es) true))
  /\ (forall random value t w i r t',
       value <> SupportResistance.selectedTimeframe (fst (Poller.comp w)) ->
       Poller.isPending i w = true ->
       let w' := changeTimeframe random value t w in
       Poller.comp w'
       = (SupportResistance.handleTimeframeChange value (fst (Poller.comp w)),
          snd (Poller.comp w))
       /\ Poller.nextTick w' = Some (t + SupportResistance.period)%Z
       /\ Poller.pending w' = Poller.pending w ++ [Poller.started w]
       /\ Poller.comp (levelsLoop random w' [Poller.Settle i r t'])
          = SupportResistance.fetchSupportResistanceLevels random t' r
              (Poller.comp w'))
  /\ (forall now r s log,
       snd (PriceAlert.fetchCurrentPrice PriceAlert.detached now r (s, log))
       = log)
  /\ (forall audio c es,
       Poller.isMounted c = true ->
       let c' := alertLife audio c (Poller.Unmount :: es) in
       Poller.isMounted c' = false
       /\ Poller.nextTick (Poller.world_of c') = None
       /\ Poller.started (Poller.world_of c') = Poller.started (Poller.world_of c)
       /\ Poller.comp (Poller.world_of c') = Poller.comp (Poller.world_of c))
  /\ (forall random c es,
       Poller.isMounted c = true ->
       let c' := levelsLife random c (Poller.Unmount :: es) in
       Poller.isMounted c' = false
       /\ Poller.nextTick (Poller.world_of c') = None
       /\ Poller.started (Poller.world_of c') = Poller.started (Poller.world_of c)
       /\ fst (Poller.comp (Poller.world_of c'))
          = fst (Poller.comp (Poller.world_of c)))
  /\ (forall random c es,
       Poller.isMounted c = true ->
       let c' := whaleLife random c (Poller.Unmount :: es) in
       Poller.isMounted c' = false
       /\ Poller.nextTick (Poller.world_of c') = None
       /\ Poller.started (Poller.world_of c') = Poller.started (Poller.world_of c)
       /\ fst (Poller.comp (Poller.world_of c'))
          = fst (Poller.comp (Poller.world_of c))).
Proof.
  split; [|split; [|split; [|split; [|split]]]].
  - intros State R onSettled period. cbv zeta.
    split; [|split; [|split; [|split]]].
    + reflexivity.
    + intros w. repeat split.
    + reflexivity.
    + intros w es Hp Hes. apply quiet_after_cleanup; auto.
    + intros onLate w es. apply life_while_mounted.
  - intros. now apply late_after_timeframe_change.
  - apply detached_plays_nothing.
  - intros audio c es Hc. unfold alertLife.
    apply (unmount_then_life _ _ _ (fun x => x)); [|exact Hc].
    intros t r x. apply late_alert_run_is_idle.
  - intros random c es Hc. unfold levelsLife.
    apply (unmount_then_life _ _ _ fst); [|exact Hc]. reflexivity.
  - intros random c es Hc. unfold whaleLife.
    apply (unmount_then_life _ _ _ fst); [|exact Hc]. reflexivity.
Qed.

(** C8, instance: the price alert component is unmounted while its first
    request is in flight; the response 70500 that arrives afterwards does
    not trigger the alert (70000, above) and plays nothing. *)
Lemma C8_witness :
  let c :=
    Poller.mkInstance
      (alertLoop mounted
         (Poller.start
            (PriceAlert.setAlerts (fun _ => [alert70000]) PriceAlert.initial,
             []))
         [Poller.Mount 0]) true in
  Poller.isMounted c = true
  /\ Poller.isPending 0 (Poller.world_of c) = true
  /\ Poller.comp
       (Poller.world_of
          (alertLife mounted c
             [Poller.Unmount; Poller.Event (Poller.Settle 0 (ok 70500) 20)]))
     = (PriceAlert.setAlerts (fun _ => [alert70000]) PriceAlert.initial, []).
Proof.
  cbv zeta. split; [reflexivity|]. split; [reflexivity|].
  exact (proj2 (proj2 (proj2
           (proj1 (proj2 (proj2 (proj2 C8_cleanup_only_clears_interval)))
              mounted
              (Poller.mkInstance
                 (alertLoop mounted
                    (Poller.start
                       (PriceAlert.setAlerts (fun _ => [alert70000])
                          PriceAlert.initial, []))
                    [Poller.Mount 0]) true)
              [Poller.Event (Poller.Settle 0 (ok 70500) 20)] eq_refl)))).
Defined.

(** C9, counterexample: in the whale module the first tick starts a second
    request while the first is still pending; when the second settles before
    the first, the snapshot that remains is the one of the older request. *)
Lemma C9_overlapping_requests :
  let w := whaleLoop always_half (Poller.start (WhaleAlerts.initial, 0%nat))
             [Poller.Mount 0; Poller.Tick] in
  let w' := whaleLoop always_half w
              [Poller.Settle 1 (Resolved (WhaleAlerts.Array [tx 200])) 61000;
               Poller.Settle 0 (Resolved (WhaleAlerts.Array [tx 100])) 62000] in
  Poller.pending w = [0%nat; 1%nat]
  /\ ~ (List.length (Poller.pending w) <= 1)%nat
  /\ map WhaleAlerts.timestamp (WhaleAlerts.whaleAlerts (fst (Poller.comp w')))
     = [100%Z].
Proof.
  cbv zeta. split; [reflexivity|]. split; [cbn; lia | vm_compute; reflexivity].
Qed.

(** C9, amended: every tick of an armed interval starts a new request,
    whether or not earlier ones have settled, so any number of requests can
    be in flight; ticks are neither skipped nor queued.  Responses are
    applied in the order in which they settle, whatever the order in which
    the requests were started. *)
Theorem C9_every_tick_starts_a_fetch {State R : Type}
  (onSettled : Z -> R -> State -> State) (period : Z) :
  let step := Poller.step onSettled period in
  let run := Poller.run onSettled period in
  (forall w t,
     Poller.nextTick w = Some t ->
     Poller.pending (step w Poller.Tick) = Poller.pending w ++ [Poller.started w]
     /\ Poller.comp (step w Poller.Tick) = Poller.comp w)
  /\ (forall s t k,
       Poller.pending (run (Poller.start s) (Poller.Mount t :: repeat Poller.Tick k))
       = seq 0 (S k))
  /\ (forall w i j ri rj ti tj,
       i <> j ->
       Poller.isPending i w = true -> Poller.isPending j w = true ->
       Poller.comp (run w [Poller.Settle j rj tj; Poller.Settle i ri ti])
       = onSettled ti ri (onSettled tj rj (Poller.comp w))).
Proof.
  cbv zeta. split; [|split].
  - intros w t Ht. destruct (tick_starts_fetch onSettled period w t Ht) as (P & _ & C).
    auto.
  - intros s t k.
    change (Poller.run onSettled period (Poller.start s)
              (Poller.Mount t :: repeat Poller.Tick k))
      with (Poller.run onSettled period
              (Poller.step onSettled period (Poller.start s) (Poller.Mount t))
              (repeat Poller.Tick k)).
    rewrite (pending_after_ticks onSettled period k _ (t + period)%Z);
      reflexivity.
  - intros. now apply settle_in_arrival_order.
Qed.

(** C9, instance: the first tick of the whale module. *)
Lemma C9_witness :
  Poller.nextTick (whaleLoop always_half
                     (Poller.start (WhaleAlerts.initial, 0%nat)) [Poller.Mount 0])
  = Some 60000%Z
  /\ Poller.pending (whaleLoop always_half
                       (Poller.start (WhaleAlerts.initial, 0%nat))
                       [Poller.Mount 0; Poller.Tick])
     = [0%nat; 1%nat].
Proof.
  split; [reflexivity|].
  exact (proj1 (proj1 (C9_every_tick_starts_a_fetch
                         (WhaleAlerts.fetchWhaleAlerts always_half)
                         WhaleAlerts.REFRESH_INTERVAL)
                  (whaleLoop always_half
                     (Poller.start (WhaleAlerts.initial, 0%nat)) [Poller.Mount 0])
                  60000%Z eq_refl)).
Defined.

(** * Further properties of the modules *)

(** ** Managing the list of alerts *)

Section AlertListFacts.
Import PriceAlert.

Lemma filter_idem {A : Type} (f : A -> bool) (l : list A) :
  filter f (filter f l) = filter f l.
Proof.
  induction l as [|a l IH]; [reflexivity|]. cbn [filter].
  destruct (f a) eqn:E; [|exact IH]. cbn [filter]. now rewrite E, IH.
Qed.

Lemma filter_all {A : Type} (f : A -> bool) (l : list A) :
  (forall a, In a l -> f a = true) -> filter f l = l.
Proof.
  induction l as [|a l IH]; intros H; [reflexivity|]. cbn [filter].
  rewrite (H a (or_introl eq_refl)), IH; [reflexivity|].
  intros b Hb. apply H. now right.
Qed.

Lemma filter_comm {A : Type} (f g : A -> bool) (l : list A) :
  filter f (filter g l) = filter g (filter f l).
Proof.
  induction l as [|a l IH]; [reflexivity|]. cbn [filter].
  destruct (f a) eqn:F, (g a) eqn:G; cbn [filter]; rewrite ?F, ?G, IH;
    reflexivity.
Qed.

(** X1: deleting an alert removes every alert that carries the given id
    and nothing else: no alert with that id is left, and the other alerts
    stay, as often as they occurred and in their order (every view of the
    list that leaves out the alerts with that id is unchanged); deleting
    the same id again changes nothing, and deleting an id that no alert
    carries leaves the list as it is.  No other state cell is touched. *)
Theorem X1_delete_removes_exactly_that_id (id : Z) (s : state) :
  let s' := handleDeleteAlert id s in
  (forall a, In a (alerts s') <-> In a (alerts s) /\ PriceAlert.id a <> id)
  /\ Forall (fun a => PriceAlert.id a <> id) (alerts s')
  /\ (forall view : alert -> bool,
        (forall a, PriceAlert.id a = id -> view a = false) ->
        filter view (alerts s') = filter view (alerts s))
  /\ (forall before a after,
        alerts s = before ++ a :: after ->
        alerts s'
        = alerts (handleDeleteAlert id (setAlerts (fun _ => before) s))
          ++ (if (PriceAlert.id a =? id)%Z then [] else [a])
          ++ alerts (handleDeleteAlert id (setAlerts (fun _ => after) s)))
  /\ (forall k, k <> id ->
        filter (fun a => (PriceAlert.id a =? k)%Z) (alerts s')
        = filter (fun a => (PriceAlert.id a =? k)%Z) (alerts s))
  /\ handleDeleteAlert id s' = s'
  /\ ((forall a, In a (alerts s) -> PriceAlert.id a <> id) -> alerts s' = alerts s)
  /\ (isLive s', currentPrice s', lastUpdated s', alertPrice s', alertType s',
      alertSound s', testingSound s')
     = (isLive s, currentPrice s, lastUpdated s, alertPrice s, alertType s,
        alertSound s, testingSound s).
Proof.
  cbv zeta. unfold handleDeleteAlert, setAlerts. cbn [alerts isLive currentPrice
    lastUpdated alertPrice alertType alertSound testingSound].
  split; [|split; [|split; [|split; [|split; [|split; [|split]]]]]].
  - intros a. rewrite filter_In, negb_true_iff, Z.eqb_neq. tauto.
  - apply Forall_forall. intros a Ha. apply filter_In in Ha.
    destruct Ha as [_ Ha]. now apply negb_true_iff, Z.eqb_neq in Ha.
  - intros view Hv. rewrite filter_comm. apply filter_all.
    intros a Ha. apply filter_In in Ha. destruct Ha as [_ Ha].
    apply negb_true_iff, Z.eqb_neq. intros E. rewrite (Hv a E) in Ha.
    discriminate Ha.
  - intros before a after E. rewrite E, filter_app. cbn [filter].
    now destruct (PriceAlert.id a =? id)%Z.
  - intros k Hk. rewrite filter_comm. apply filter_all.
    intros a Ha. apply filter_In in Ha. destruct Ha as [_ Ha].
    apply Z.eqb_eq in Ha. apply negb_true_iff, Z.eqb_neq. congruence.
  - now rewrite filter_idem.
  - intros H. apply filter_all. intros a Ha.
    apply negb_true_iff, Z.eqb_neq. now apply H.
  - reflexivity.
Qed.

(** X1, instance: deleting the id 3 from the alerts with the ids 5, 3, 5
    and 2 leaves 5, 5 and 2, in this order; deleting the id 7, which none
    of them carries, leaves all four. *)
Lemma X1_witness :
  (forall a, PriceAlert.id a = 3%Z -> negb (PriceAlert.id a =? 3)%Z = false)
  /\ alerts (handleDeleteAlert 3 fourAlerts) = map alertWithId [5; 5; 2]%Z
  /\ (forall a, In a (alerts fourAlerts) -> PriceAlert.id a <> 7%Z)
  /\ alerts (handleDeleteAlert 7 fourAlerts) = alerts fourAlerts.
Proof.
  assert (V : forall a, PriceAlert.id a = 3%Z
                        -> negb (PriceAlert.id a =? 3)%Z = false)
    by (intros a ->; reflexivity).
  assert (H : forall a, In a (alerts fourAlerts) -> PriceAlert.id a <> 7%Z)
    by (intros a [<-|[<-|[<-|[<-|[]]]]]; discriminate).
  pose proof (X1_delete_removes_exactly_that_id 3 fourAlerts) as D3.
  cbv zeta in D3. destruct D3 as (_ & F & K & _).
  split; [exact V|]. split; [|split; [exact H|]].
  - rewrite <- (filter_all (fun a => negb (PriceAlert.id a =? 3)%Z)
                  (alerts (handleDeleteAlert 3 fourAlerts))).
    + exact (K _ V).
    + intros a Ha. rewrite Forall_forall in F.
      apply negb_true_iff, Z.eqb_neq. now apply F.
  - exact (proj1 (proj2 (proj2 (proj2 (proj2 (proj2 (proj2
             (X1_delete_removes_exactly_that_id 7 fourAlerts))))))) H).
Defined.

(** X2: adding an alert at time [now] and deleting the id [now] removes the
    new alert together with every older alert that carries the same id (ids
    are timestamps); when no older alert carries it, the list of alerts is
    back to what it was.  The input field has been emptied. *)
Theorem X2_add_then_delete (parseFloat : string -> number) (now : Z)
  (s : state) :
  positive (parseFloat (alertPrice s)) ->
  let s' := handleDeleteAlert now (fst (handleAddAlert parseFloat now s)) in
  alerts s' = filter (fun a => negb (PriceAlert.id a =? now)%Z) (alerts s)
  /\ ((forall a, In a (alerts s) -> PriceAlert.id a <> now) ->
      alerts s' = alerts s)
  /\ alertPrice s' = ""%string.
Proof.
  intros P. cbv zeta. unfold handleAddAlert.
  assert (E : isNaN (parseFloat (alertPrice s))
              || leb (parseFloat (alertPrice s)) (Fin 0) = false).
  { destruct (parseFloat (alertPrice s)) as [| |q|]; cbn in *; try tauto.
    destruct (Qle_bool q 0) eqn:E; [|reflexivity].
    apply Qle_bool_iff in E. lra. }
  rewrite E. unfold handleDeleteAlert, setAlerts, setAlertPrice.
  cbn [fst alerts alertPrice]. rewrite filter_app. cbn [filter PriceAlert.id].
  rewrite Z.eqb_refl. cbn [negb]. rewrite app_nil_r.
  split; [reflexivity|]. split; [|reflexivity].
  intros H. apply filter_all. intros a Ha.
  apply negb_true_iff, Z.eqb_neq. now apply H.
Qed.

(** X2, instance: adding to and deleting from the empty list. *)
Lemma X2_witness :
  positive (reads70000 (alertPrice initial))
  /\ alerts (handleDeleteAlert 5 (fst (handleAddAlert reads70000 5 initial)))
     = alerts initial.
Proof.
  assert (P : positive (reads70000 (alertPrice initial))) by reflexivity.
  split; [exact P|].
  exact (proj1 (X2_add_then_delete reads70000 5%Z initial P)).
Defined.

Variable audio : soundName -> bool.

End AlertListFacts.

(** ** Alerts along a series of fetches *)

Section AlertSeries.
Import PriceAlert.
Variable audio : soundName -> bool.

Lemma fetchSeries_last rs : forall s log now r,
  let s' := fst (fetchSeries audio (rs ++ [(now, r)]) (s, log)) in
  isLive s' = negb (failed r)
  /\ (failed r = false -> lastUpdated s' = Some now)
  /\ (failed r = true ->
      lastUpdated s' = lastUpdated (fst (fetchSeries audio rs (s, log)))
      /\ currentPrice s' = currentPrice (fst (fetchSeries audio rs (s, log)))).
Proof.
  intros s log now r. cbv zeta. unfold fetchSeries. rewrite fold_left_app.
  cbn [fold_left fst snd].
  destruct (fold_left _ rs (s, log)) as [s1 l1].
  destruct r as [|[|data]].
  - rewrite alert_fetch_failed by reflexivity. cbn. repeat split; congruence.
  - rewrite alert_fetch_failed by reflexivity. cbn. repeat split; congruence.
  - rewrite alert_fetch_ok. cbn. repeat split; congruence.
Qed.

(** X4: after any series of fetches the alerts are what the prices of the
    responses with a body make of them (a missing price counts as 65000);
    rejected requests and nullish bodies leave no trace.  An armed alert is
    triggered afterwards exactly when its condition held at one of those
    prices; with the audio elements mounted the sounds added to the log are
    one per alert that triggered. *)
Theorem X4_alerts_follow_successful_fetches (rs : list (Z * response JS.body))
  (s : state) (log : list soundName) :
  let s' := fst (fetchSeries audio rs (s, log)) in
  alerts s' = map (afterUpdates (pricesOf rs)) (alerts s)
  /\ (forall a a',
        In (a, a') (combine (alerts s) (alerts s')) ->
        triggered a = false ->
        triggered a' = seen (pricesOf rs) a)
  /\ ((forall name, audio name = true) ->
      exists played,
        snd (fetchSeries audio rs (s, log)) = log ++ played
        /\ Permutation played
             (map sound (filter (notified (pricesOf rs)) (alerts s)))).
Proof.
  cbv zeta. split; [apply fetchSeries_alerts|]. split.
  - intros a a' Hin T. rewrite fetchSeries_alerts in Hin.
    assert (E : a' = afterUpdates (pricesOf rs) a).
    { revert Hin. generalize (alerts s). intros l.
      induction l as [|b l IH]; cbn; [tauto|].
      intros [H|H]; [congruence | auto]. }
    subst a'. unfold afterUpdates. rewrite T. now apply settled_triggered.
  - intros Hm. now apply fetchSeries_log.
Qed.

End AlertSeries.

(** X4, instance: the alert (70000, above) under the fetches 65000, failure, 70500. *)
Lemma X4_witness :
  (forall name, mounted name = true)
  /\ exists played,
       snd (PriceAlert.fetchSeries mounted [(1%Z, ok 65000); (2%Z, Rejected); (3%Z, ok 70500)]
              (PriceAlert.setAlerts (fun _ => [alert70000]) PriceAlert.initial, []))
       = [] ++ played
       /\ Permutation played [PriceAlert.alarm1].
Proof.
  split; [reflexivity|]. 
  exact (proj2 (proj2 (X4_alerts_follow_successful_fetches mounted
           [(1%Z, ok 65000); (2%Z, Rejected); (3%Z, ok 70500)]
           (PriceAlert.setAlerts (fun _ => [alert70000]) PriceAlert.initial) []))
           (fun _ => eq_refl)).
Defined.

(** ** Testing a sound *)

Section SoundTest.
Import PriceAlert.
Variable audio : soundName -> bool.

Lemma soundName_eqb_refl (a : soundName) : soundName_eqb a a = true.
Proof. now destruct a. Qed.

Lemma ended_without_handlers (sounds : list soundName) (p : page) :
  onended p = [] -> fold_left (fun q name => ended name q) sounds p = p.
Proof.
  intros H. induction sounds as [|x sounds IH]; [reflexivity|].
  cbn [fold_left]. unfold ended at 2. rewrite H. cbn [existsb]. exact IH.
Qed.

(** X5: testing a sound always disables the test button.  With the audio
    element mounted the sound is played and the end of the sound enables the
    button again.  With the element missing nothing is played and no handler
    is set, so that on a page without handlers no end of a sound enables the
    button again. *)
Theorem X5_sound_test_button (sound : soundName) (p : page) :
  let q := fst (handleTestSound audio sound p) in
  testingSound (cells q) = true
  /\ alerts (cells q) = alerts (cells p)
  /\ (audio sound = true ->
      snd (handleTestSound audio sound p) = [sound]
      /\ testingSound (cells (ended sound q)) = false)
  /\ (audio sound = false ->
      snd (handleTestSound audio sound p) = []
      /\ onended q = onended p
      /\ (onended p = [] ->
          forall sounds,
            testingSound
              (cells (fold_left (fun q' name => ended name q') sounds q))
            = true)).
Proof.
  cbv zeta. unfold handleTestSound.
  destruct (audio sound) eqn:E; cbn [fst snd cells onended];
    (split; [reflexivity|]); (split; [reflexivity|]); split;
    try (intros H; discriminate H); intros _.
  - split; [reflexivity|]. unfold ended. cbn [onended existsb].
    rewrite soundName_eqb_refl. reflexivity.
  - split; [reflexivity|]. split; [reflexivity|]. intros H sounds.
    rewrite ended_without_handlers; [reflexivity | exact H].
Qed.
End SoundTest.

(** X5, instance: a test of the second sound with its element mounted. *)
Lemma X5_witness :
  mounted PriceAlert.alarm2 = true
  /\ PriceAlert.testingSound
       (PriceAlert.cells
          (PriceAlert.ended PriceAlert.alarm2
             (fst (PriceAlert.handleTestSound mounted PriceAlert.alarm2
                     (PriceAlert.mkPage PriceAlert.initial [])))))
     = false.
Proof.
  split; [reflexivity|].
  exact (proj2 (proj1 (proj2 (proj2 (X5_sound_test_button mounted
           PriceAlert.alarm2 (PriceAlert.mkPage PriceAlert.initial []))))
           eq_refl)).
Defined.

(** ** Outcome of a fetch in the price alert module *)

Section AlertLiveness.
Import PriceAlert.
Variable audio : soundName -> bool.

(** X6: in the price alert module [isLive] tells whether the last fetch
    succeeded.  A failed fetch leaves the alerts, the price, the time of the
    last update and the log of sounds unchanged; a successful one stamps the
    time and stores a price that is never zero. *)
Theorem X6_price_alert_fetch_outcome (rs : list (Z * response JS.body))
  (s : state) (log : list soundName) (now : Z) (r : response JS.body) :
  let before := fetchSeries audio rs (s, log) in
  let after := fetchSeries audio (rs ++ [(now, r)]) (s, log) in
  isLive (fst after) = negb (failed r)
  /\ (failed r = true ->
      alerts (fst after) = alerts (fst before)
      /\ currentPrice (fst after) = currentPrice (fst before)
      /\ lastUpdated (fst after) = lastUpdated (fst before)
      /\ snd after = snd before)
  /\ (failed r = false ->
      lastUpdated (fst after) = Some now
      /\ exists p, currentPrice (fst after) = Some p /\ ~ p == 0).
Proof.
  cbv zeta. unfold fetchSeries. rewrite fold_left_app.
  cbn [fold_left fst snd].
  destruct (fold_left _ rs (s, log)) as [s1 l1].
  destruct r as [|[|data]].
  - rewrite alert_fetch_failed by reflexivity. cbn.
    split; [reflexivity|].
    split; [intros _; repeat split; reflexivity | intros H; discriminate H].
  - rewrite alert_fetch_failed by reflexivity. cbn.
    split; [reflexivity|].
    split; [intros _; repeat split; reflexivity | intros H; discriminate H].
  - rewrite alert_fetch_ok. cbn [fst snd failed negb isLive lastUpdated currentPrice].
    split; [reflexivity|]. split; [intros H; discriminate H|]. intros _.
    split; [reflexivity|]. eexists. split; [reflexivity|].
    apply orElse_default_nonzero.
Qed.
End AlertLiveness.

(** X6, instance: a rejected first request. *)
Lemma X6_witness :
  failed (@Rejected JS.body) = true
  /\ PriceAlert.alerts
       (fst (PriceAlert.fetchSeries mounted ([] ++ [(1%Z, Rejected)])
               (PriceAlert.initial, [])))
     = PriceAlert.alerts
         (fst (PriceAlert.fetchSeries mounted [] (PriceAlert.initial, []))).
Proof.
  split; [reflexivity|].
  exact (proj1 (proj1 (proj2 (X6_price_alert_fetch_outcome mounted []
           PriceAlert.initial [] 1%Z Rejected)) eq_refl)).
Defined.

(** ** Annotations and markers of the levels *)

Section LevelExtras.
Import SupportResistance.

Lemma generateTrapReason_in_range random type n :
  in_unit random ->
  exists reason,
    fst (generateTrapReason random type n) = Some reason
    /\ In reason (reasons type).
Proof.
  intros Hr. destruct (Hr n) as [H0 H1].
  unfold generateTrapReason, bind, ret, JS.Math_random. cbn [fst].
  assert (L : List.length (reasons type) = 4%nat) by now destruct type.
  rewrite L. change (inject_Z (Z.of_nat 4)) with 4.
  assert (B : (0 <= Math_floor (random n * 4) < 4)%Z).
  { apply Math_floor_bounds; [change (inject_Z 0) with 0 | change (inject_Z 4) with 4]; lra. }
  destruct (nth_error (reasons type) (Z.to_nat (Math_floor (random n * 4))))
    as [reason|] eqn:E.
  - exists reason. split; [reflexivity|]. now apply nth_error_In in E.
  - apply nth_error_None in E. rewrite L in E. lia.
Qed.

Lemma mockSupport_annotated random cp i n :
  in_unit random -> well_annotated support (fst (mockSupport random cp i n)).
Proof.
  intros Hr. unfold mockSupport, bind, ret, JS.Math_random.
  destruct (calculateReliability _ _ _ _ _) as [rel n1].
  destruct (Hr (S n1)) as [H0 H1].
  assert (B : (0 <= Math_floor (random (S n1) * 5) < 5)%Z).
  { apply Math_floor_bounds; [change (inject_Z 0) with 0 | change (inject_Z 5) with 5]; lra. }
  destruct (Qltb (7 # 10) (random n1)) eqn:T.
  - destruct (generateTrapReason_in_range random support (S (S n1)) Hr)
      as (reason & E & Hin).
    destruct (generateTrapReason random support (S (S n1))) as [tr n2].
    cbn [fst] in E. subst tr. unfold well_annotated.
    cbn [fst timesTested isTrap trapReason].
    split; [lia|]. split; [intros _; now exists reason | intros H; discriminate H].
  - unfold well_annotated. cbn [fst timesTested isTrap trapReason].
    split; [lia|]. split; [intros H; discriminate H | reflexivity].
Qed.

Lemma mockResistance_annotated random cp i n :
  in_unit random ->
  well_annotated resistance (fst (mockResistance random cp i n)).
Proof.
  intros Hr. unfold mockResistance, bind, ret, JS.Math_random.
  destruct (calculateReliability _ _ _ _ _) as [rel n1].
  destruct (Hr (S n1)) as [H0 H1].
  assert (B : (0 <= Math_floor (random (S n1) * 5) < 5)%Z).
  { apply Math_floor_bounds; [change (inject_Z 0) with 0 | change (inject_Z 5) with 5]; lra. }
  destruct (Qltb (7 # 10) (random n1)) eqn:T.
  - destruct (generateTrapReason_in_range random resistance (S (S n1)) Hr)
      as (reason & E & Hin).
    destruct (generateTrapReason random resistance (S (S n1))) as [tr n2].
    cbn [fst] in E. subst tr. unfold well_annotated.
    cbn [fst timesTested isTrap trapReason].
    split; [lia|]. split; [intros _; now exists reason | intros H; discriminate H].
  - unfold well_annotated. cbn [fst timesTested isTrap trapReason].
    split; [lia|]. split; [intros H; discriminate H | reflexivity].
Qed.

Lemma candidates_annotated random data n :
  in_unit random ->
  let c := fst (candidates random data n) in
  Forall (well_annotated support) (fst c)
  /\ Forall (well_annotated resistance) (snd c).
Proof.
  intros Hr c. subst c. unfold candidates, bind, ret.
  set (cp := orElse (JS.currentPrice data) 65000).
  pose proof (mapM_Forall (mockSupport random cp) (fun _ => True)
    (well_annotated support)
    (fun i k _ => mockSupport_annotated random cp i k Hr) (seq 0 4) n) as HS.
  destruct (mapM (mockSupport random cp) (seq 0 4) n) as [ss n1].
  pose proof (mapM_Forall (mockResistance random cp) (fun _ => True)
    (well_annotated resistance)
    (fun i k _ => mockResistance_annotated random cp i k Hr) (seq 0 4) n1) as HR.
  destruct (mapM (mockResistance random cp) (seq 0 4) n1) as [rs n2].
  cbn [fst snd] in *. split; [apply HS | apply HR]; rewrite Forall_forall; auto.
Qed.

Lemma price_band random data n :
  in_unit random ->
  let cp := orElse (JS.currentPrice data) 65000 in
  let c := fst (candidates random data n) in
  0 < cp ->
  Forall (fun l => cp * (86 # 100) < price l /\ price l <= cp * (98 # 100)) (fst c)
  /\ Forall (fun l => cp * (102 # 100) <= price l /\ price l < cp * (114 # 100))
       (snd c).
Proof.
  intros Hr cp c Hcp. subst c. unfold candidates, bind, ret. fold cp.
  assert (PS : forall i k, True ->
            (fun l => cp * (86 # 100) < price l /\ price l <= cp * (98 # 100))
              (fst (mockSupport random cp i k))).
  { intros i k _. destruct (Hr k) as [H0 H1].
    destruct (mockSupport_fields random cp i k) as (Hp & _). cbv zeta in Hp.
    rewrite Hp. split; nra. }
  assert (PR : forall i k, True ->
            (fun l => cp * (102 # 100) <= price l /\ price l < cp * (114 # 100))
              (fst (mockResistance random cp i k))).
  { intros i k _. destruct (Hr k) as [H0 H1].
    destruct (mockResistance_fields random cp i k) as (Hp & _). cbv zeta in Hp.
    rewrite Hp. split; nra. }
  pose proof (mapM_Forall _ (fun _ => True) _ PS (seq 0 4) n) as HS.
  destruct (mapM (mockSupport random cp) (seq 0 4) n) as [ss n1].
  pose proof (mapM_Forall _ (fun _ => True) _ PR (seq 0 4) n1) as HR.
  destruct (mapM (mockResistance random cp) (seq 0 4) n1) as [rs n2].
  cbn [fst snd] in *. split; [apply HS | apply HR]; rewrite Forall_forall; auto.
Qed.

(** Membership in the output goes back to the candidates. *)
Lemma kept_is_candidate random data n l :
  let c := fst (candidates random data n) in
  let out := fst (processLevelsData random data n) in
  (In l (supports out) -> In l (fst c))
  /\ (In l (resistances out) -> In l (snd c)).
Proof.
  cbv zeta. destruct (processLevelsData_ranks random data n) as [Es Er].
  cbv zeta in Es, Er. rewrite Es, Er.
  split; intros H; now apply slice0_In, sort_In in H.
Qed.

(** X7: with draws in [0, 1), every level returned by [processLevelsData]
    was tested 1 to 5 times and carries a trap reason exactly when it is
    marked as a trap, taken from the reasons of its kind (the index never
    leaves the array).  For a positive reference price a support lies 2 to
    14 percent below it and a resistance 2 to 14 percent above. *)
Theorem X7_generated_levels_are_annotated (random : nat -> Q)
  (Hrandom : in_unit random) (data : object) (n : nat) :
  let cp := orElse (JS.currentPrice data) 65000 in
  let out := fst (processLevelsData random data n) in
  (forall l, In l (supports out) ->
     (1 <= timesTested l <= 5)%Z
     /\ (isTrap l = true ->
         exists reason, trapReason l = Some reason /\ In reason (reasons support))
     /\ (isTrap l = false -> trapReason l = None)
     /\ (0 < cp -> cp * (86 # 100) < price l /\ price l <= cp * (98 # 100)))
  /\ (forall l, In l (resistances out) ->
     (1 <= timesTested l <= 5)%Z
     /\ (isTrap l = true ->
         exists reason,
           trapReason l = Some reason /\ In reason (reasons resistance))
     /\ (isTrap l = false -> trapReason l = None)
     /\ (0 < cp -> cp * (102 # 100) <= price l /\ price l < cp * (114 # 100))).
Proof.
  cbv zeta.
  destruct (candidates_annotated random data n Hrandom) as [AS AR].
  rewrite Forall_forall in AS, AR.
  split; intros l Hin; apply kept_is_candidate in Hin.
  - destruct (AS l Hin) as (T & R1 & R2).
    split; [exact T|]. split; [exact R1|]. split; [exact R2|].
    intros Hcp. destruct (price_band random data n Hrandom Hcp) as [PS _].
    rewrite Forall_forall in PS. now apply PS.
  - destruct (AR l Hin) as (T & R1 & R2).
    split; [exact T|]. split; [exact R1|]. split; [exact R2|].
    intros Hcp. destruct (price_band random data n Hrandom Hcp) as [_ PR].
    rewrite Forall_forall in PR. now apply PR.
Qed.

(** X8: with draws in [0, 1), the markers of the returned levels stay on
    the price scale: resistances between 8 and 44 percent from the top,
    above the price line at 50, supports between 56 and 92 percent, below
    it.  The width of a marker is its reliability (never below the minimum
    of 30) and its opacity lies between 0.3 and 1. *)
Theorem X8_level_markers_stay_on_the_scale (random : nat -> Q)
  (Hrandom : in_unit random) (data : object) (n : nat) :
  let out := fst (processLevelsData random data n) in
  (forall l, In l (resistances out) ->
     8 <= resistancePosition l /\ resistancePosition l <= 44)
  /\ (forall l, In l (supports out) ->
     56 <= supportPosition l /\ supportPosition l <= 92)
  /\ (forall l, In l (supports out ++ resistances out) ->
     (30 <= markerWidth l <= 100)%Z
     /\ markerWidth l = reliability l
     /\ (3 # 10) <= markerOpacity l /\ markerOpacity l <= 1).
Proof.
  cbv zeta.
  destruct (candidates_shape random data n Hrandom) as (HS & HR & _).
  rewrite Forall_forall in HS, HR.
  assert (M : forall d, 2 <= d -> d <= 14 -> Math_min d 15 == d).
  { intros d L U. unfold Math_min. apply Q.min_l. lra. }
  split; [|split].
  - intros l Hin. apply kept_is_candidate in Hin.
    destruct (HR l Hin) as ((L & U) & _). unfold resistancePosition.
    rewrite (M _ L U). lra.
  - intros l Hin. apply kept_is_candidate in Hin.
    destruct (HS l Hin) as ((L & U) & _). unfold supportPosition.
    rewrite (M _ L U). lra.
  - intros l Hin.
    assert (R : (30 <= reliability l <= 100)%Z).
    { apply in_app_or in Hin. destruct Hin as [Hin|Hin];
        apply kept_is_candidate in Hin;
        [destruct (HS l Hin) as (_ & _ & R) | destruct (HR l Hin) as (_ & _ & R)];
        exact R. }
    unfold markerWidth, markerOpacity. rewrite Qdiv100.
    destruct R as [R1 R2]. pose proof R1 as Q1. pose proof R2 as Q2.
    rewrite Zle_Qle in Q1, Q2.
    change (inject_Z 30) with 30 in Q1. change (inject_Z 100) with 100 in Q2.
    split; [lia|]. split; [lia|]. split; lra.
Qed.
End LevelExtras.

(** X7, instance: the supports generated under constant draws. *)
Lemma X7_witness :
  in_unit always_half
  /\ Forall (fun l => (1 <= SupportResistance.timesTested l <= 5)%Z)
       (SupportResistance.supports
          (fst (SupportResistance.processLevelsData always_half (payload 65000)
                  0%nat))).
Proof.
  split; [apply in_unit_always_half|].
  apply Forall_forall. intros l Hl.
  exact (proj1 (proj1 (X7_generated_levels_are_annotated always_half
           in_unit_always_half (payload 65000) 0%nat) l Hl)).
Defined.

(** X8, instance: the resistances generated under constant draws. *)
Lemma X8_witness :
  in_unit always_half
  /\ Forall (fun l => 8 <= SupportResistance.resistancePosition l
                      /\ SupportResistance.resistancePosition l <= 44)
       (SupportResistance.resistances
          (fst (SupportResistance.processLevelsData always_half (payload 65000)
                  0%nat))).
Proof.
  split; [apply in_unit_always_half|].
  apply Forall_forall. intros l Hl.
  exact (proj1 (X8_level_markers_stay_on_the_scale always_half
           in_unit_always_half (payload 65000) 0%nat) l Hl).
Defined.

(** ** Structure of the generated clusters *)

Lemma mapM_inverse {A B : Type} (f : A -> Rand B) (g : B -> A) :
  (forall a n, g (fst (f a n)) = a) ->
  forall l n, map g (fst (mapM f l n)) = l.
Proof.
  intros H l. induction l as [|a l IH]; intros n; [reflexivity|].
  cbn [mapM]. unfold bind, ret. specialize (H a n).
  destruct (f a n) as [b n1]. specialize (IH n1).
  destruct (mapM f l n1) as [bs n2]. cbn [fst map] in *. now rewrite H, IH.
Qed.

(** A traversal whose callback satisfies a relation with its argument. *)
Lemma mapM_Forall2 {A B : Type} (f : A -> Rand B) (R : A -> B -> Prop) :
  (forall a n, R a (fst (f a n))) ->
  forall l n, Forall2 R l (fst (mapM f l n)).
Proof.
  intros H l. induction l as [|a l IH]; intros n; [constructor|].
  cbn [mapM]. unfold bind, ret. specialize (H a n).
  destruct (f a n) as [b n1]. specialize (IH n1).
  destruct (mapM f l n1) as [bs n2]. cbn [fst] in *. now constructor.
Qed.

Lemma filter_length_perm {A : Type} (f : A -> bool) (l l' : list A) :
  Permutation l l' -> List.length (filter f l) = List.length (filter f l').
Proof.
  induction 1 as [|x l l' _ IH|x y l|l l' l'' _ IH1 _ IH2]; cbn [filter].
  - reflexivity.
  - destruct (f x); cbn; congruence.
  - destruct (f x), (f y); reflexivity.
  - congruence.
Qed.

Section AscendingSort.
Lemma ascending_test (x y : Q) : Qle_bool (LiquidityClusters.ascending x y) 0 = Qle_bool x y.
Proof.
  unfold LiquidityClusters.ascending. apply eq_true_iff_eq.
  rewrite !Qle_bool_iff. split; lra.
Qed.

Lemma insert_ascending (x : Q) (l : list Q) :
  StronglySorted Qle l ->
  StronglySorted Qle (insert LiquidityClusters.ascending x l).
Proof.
  intros Hs. induction Hs as [|y l Hs IH Hy]; cbn [insert].
  - repeat constructor.
  - rewrite ascending_test. destruct (Qle_bool x y) eqn:E.
    + apply Qle_bool_iff in E. constructor; [now constructor|].
      constructor; [exact E|]. rewrite Forall_forall in *. intros z Hz.
      specialize (Hy z Hz). lra.
    + assert (Hyx : y <= x).
      { apply Qlt_le_weak, Qnot_le_lt. intros H. apply Qle_bool_iff in H. congruence. }
      constructor; [exact IH|]. rewrite Forall_forall in *. intros z Hz.
      apply (Permutation_in z (insert_perm _ x l)) in Hz.
      destruct Hz as [<-|Hz]; [exact Hyx | now apply Hy].
Qed.

Lemma sort_ascending (l : list Q) :
  StronglySorted Qle (sort LiquidityClusters.ascending l).
Proof.
  induction l as [|x l IH]; cbn [sort]; [constructor | now apply insert_ascending].
Qed.
End AscendingSort.

Section ClusterExtras.
Import LiquidityClusters.

Lemma numClusters_values (tf : string) :
  numClusters tf = 6%nat \/ numClusters tf = 8%nat \/ numClusters tf = 10%nat.
Proof. unfold numClusters. repeat destruct (String.eqb tf _); auto. Qed.

Lemma toCluster_price random cp tf p n :
  price (fst (toCluster random cp tf p n)) = p.
Proof. apply toCluster_fields. Qed.

(** The price points behind the clusters of [processClusterData]. *)
Lemma processClusterData_prices random data tf n :
  let cp := orElse (JS.currentPrice data) 65000 in
  let pts := fst (mapM (pricePoint random cp) (seq 0 (numClusters tf)) n) in
  map price (fst (processClusterData random data tf n)) = sort ascending pts.
Proof.
  cbv zeta. unfold processClusterData, bind.
  destruct (mapM (pricePoint random _) (seq 0 (numClusters tf)) n) as [pts n1].
  cbn [fst]. apply mapM_inverse. intros p k. apply toCluster_price.
Qed.

Lemma processClusterData_types random data tf n :
  let cp := orElse (JS.currentPrice data) 65000 in
  Forall (fun c => type c = if Qltb (price c) cp then support else resistance)
    (fst (processClusterData random data tf n)).
Proof.
  cbv zeta. unfold processClusterData, bind.
  destruct (mapM (pricePoint random _) (seq 0 (numClusters tf)) n) as [pts n1].
  apply mapM_Forall with (Pre := fun _ => True); [|rewrite Forall_forall; auto].
  intros p k _.
  destruct (toCluster_fields random (orElse (JS.currentPrice data) 65000) tf p k)
    as (Ep & _ & Et & _).
  now rewrite Et, Ep.
Qed.

Lemma processClusterData_length random data tf n :
  List.length (fst (processClusterData random data tf n)) = numClusters tf.
Proof.
  rewrite <- (length_map price), processClusterData_prices.
  rewrite (Permutation_length (sort_perm _ _)), mapM_length. apply length_seq.
Qed.

(** X9: [processClusterData] returns 6 clusters for the timeframe 24h, 8
    for 3D, 10 for 1W and 6 for any other text, in ascending order of price;
    a cluster is a support exactly when its price is below the reference
    price and a resistance otherwise. *)
Theorem X9_clusters_sorted_by_price (random : nat -> Q) (data : object)
  (timeframe : string) (n : nat) :
  let cp := orElse (JS.currentPrice data) 65000 in
  let cs := fst (processClusterData random data timeframe n) in
  List.length cs = numClusters timeframe
  /\ (List.length cs = 6%nat \/ List.length cs = 8%nat \/ List.length cs = 10%nat)
  /\ ((timeframe <> "3D" /\ timeframe <> "1W")%string -> List.length cs = 6%nat)
  /\ StronglySorted Qle (map price cs)
  /\ (forall c, In c cs ->
        (type c = support <-> price c < cp)
        /\ (type c = resistance <-> cp <= price c)).
Proof.
  cbv zeta.
  pose proof (processClusterData_length random data timeframe n) as L.
  split; [exact L|]. split; [rewrite L; apply numClusters_values|].
  split; [|split].
  - intros [H3 H1]. rewrite L. unfold numClusters.
    apply String.eqb_neq in H3, H1. rewrite H3, H1.
    now destruct (String.eqb timeframe "24h").
  - rewrite processClusterData_prices. apply sort_ascending.
  - intros c Hc. pose proof (processClusterData_types random data timeframe n) as T.
    cbv zeta in T. rewrite Forall_forall in T. specialize (T c Hc). rewrite T.
    destruct (Qltb (price c) _) eqn:E.
    + apply Qltb_true in E. split; split; intros H; try assumption;
        try reflexivity; try discriminate H. lra.
    + apply Qltb_false in E. split; split; intros H; try assumption;
        try reflexivity; try discriminate H. lra.
Qed.
End ClusterExtras.

(** X9, instance: a timeframe that the code does not know. *)
Lemma X9_witness :
  ("bogus" <> "3D" /\ "bogus" <> "1W")%string
  /\ List.length (fst (LiquidityClusters.processClusterData always_half
                         (payload 65000) "bogus" 0%nat)) = 6%nat.
Proof.
  assert (H : ("bogus" <> "3D" /\ "bogus" <> "1W")%string)
    by (split; discriminate).
  split; [exact H|].
  exact (proj1 (proj2 (proj2 (X9_clusters_sorted_by_price always_half
           (payload 65000) "bogus" 0%nat))) H).
Defined.

(** ** Supports and resistances among the clusters *)

Lemma Forall2_filter_length {A B : Type} (f : A -> bool) (g : B -> bool)
  (l : list A) (l' : list B) :
  Forall2 (fun a b => g b = f a) l l' ->
  List.length (filter g l') = List.length (filter f l).
Proof.
  induction 1 as [|a b l l' E _ IH]; [reflexivity|]. cbn [filter].
  rewrite E. destruct (f a); cbn [List.length]; congruence.
Qed.

Lemma filter_map_length {A B : Type} (g : A -> B) (f : B -> bool) (l : list A) :
  List.length (filter f (map g l)) = List.length (filter (fun a => f (g a)) l).
Proof.
  induction l as [|a l IH]; [reflexivity|]. cbn [map filter].
  destruct (f (g a)); cbn [List.length]; congruence.
Qed.

Lemma filter_ext_in_length {A : Type} (f g : A -> bool) (l : list A) :
  Forall (fun a => f a = g a) l ->
  List.length (filter f l) = List.length (filter g l).
Proof.
  induction 1 as [|a l E _ IH]; [reflexivity|]. cbn [filter]. rewrite E.
  destruct (g a); cbn [List.length]; congruence.
Qed.

Lemma filter_split_length {A : Type} (f : A -> bool) (l : list A) :
  (List.length (filter f l) + List.length (filter (fun a => negb (f a)) l)
   = List.length l)%nat.
Proof.
  induction l as [|a l IH]; [reflexivity|]. cbn [filter].
  destruct (f a); cbn [negb List.length]; lia.
Qed.

Section ClusterCounts.
Import LiquidityClusters.

(** On which side of the reference a price point falls, by its index. *)
Lemma pricePoint_side random cp i k :
  in_unit random -> ~ cp == 0 ->
  Qltb (fst (pricePoint random cp i k)) cp
  = if Qltb 0 cp then negb (i mod 2 =? 0)%nat else (i mod 2 =? 0)%nat.
Proof.
  intros Hr Hcp. destruct (Hr k) as [H0 H1].
  unfold pricePoint, bind, ret, JS.Math_random. cbn [fst].
  destruct (Qltb 0 cp) eqn:S.
  - apply Qltb_true in S. destruct (i mod 2 =? 0)%nat; cbn [negb].
    + apply Qltb_false. nra.
    + apply Qltb_true. nra.
  - apply Qltb_false in S. assert (cp < 0) by lra.
    destruct (i mod 2 =? 0)%nat.
    + apply Qltb_true. nra.
    + apply Qltb_false. nra.
Qed.

Lemma half_of_indices (n : nat) (cp : Q) :
  n = 6%nat \/ n = 8%nat \/ n = 10%nat ->
  List.length
    (filter (fun i => if Qltb 0 cp then negb (i mod 2 =? 0)%nat
                      else (i mod 2 =? 0)%nat) (seq 0 n))
  = Nat.div n 2.
Proof.
  intros [->|[->| ->]]; destruct (Qltb 0 cp); reflexivity.
Qed.

Lemma supports_are_half random data tf n :
  in_unit random ->
  let cs := fst (processClusterData random data tf n) in
  List.length (ofType support cs) = Nat.div (numClusters tf) 2
  /\ List.length (ofType resistance cs) = Nat.div (numClusters tf) 2.
Proof.
  intros Hr cs. set (cp := orElse (JS.currentPrice data) 65000).
  assert (Hcp : ~ cp == 0) by apply orElse_default_nonzero.
  pose proof (processClusterData_types random data tf n) as T. cbv zeta in T.
  fold cp cs in T.
  assert (S : List.length (ofType support cs) = Nat.div (numClusters tf) 2).
  { unfold ofType.
    rewrite (filter_ext_in_length _ (fun c => Qltb (price c) cp)).
    2:{ eapply Forall_impl; [|exact T]. intros c E. cbn beta in *. rewrite E.
        now destruct (Qltb (price c) cp). }
    rewrite <- (filter_map_length price (fun p => Qltb p cp)).
    subst cs. rewrite processClusterData_prices. fold cp.
    rewrite (filter_length_perm _ _ _ (sort_perm _ _)).
    rewrite (Forall2_filter_length
               (fun i => if Qltb 0 cp then negb (i mod 2 =? 0)%nat
                         else (i mod 2 =? 0)%nat) _ (seq 0 (numClusters tf))).
    - apply half_of_indices, numClusters_values.
    - apply mapM_Forall2. intros i k. now apply pricePoint_side. }
  split; [exact S|].
  pose proof (filter_split_length (fun c => clusterType_eqb (type c) support) cs) as P.
  assert (E : List.length (ofType resistance cs)
              = List.length (filter (fun c => negb (clusterType_eqb (type c) support)) cs)).
  { unfold ofType. apply filter_ext_in_length. rewrite Forall_forall.
    intros c _. now destruct (type c). }
  fold (ofType support cs) in P. rewrite E.
  assert (L : List.length cs = numClusters tf)
    by apply processClusterData_length.
  destruct (numClusters_values tf) as [V|[V|V]]; rewrite V in *; cbn in *; lia.
Qed.

(** X10: with draws in [0, 1), exactly half of the clusters are supports
    and half are resistances, whatever the reference price and the
    timeframe; each of the two tables therefore shows exactly three rows. *)
Theorem X10_three_rows_per_table (random : nat -> Q) (Hrandom : in_unit random)
  (data : object) (timeframe : string) (n : nat) :
  let cs := fst (processClusterData random data timeframe n) in
  List.length (ofType support cs) = Nat.div (numClusters timeframe) 2
  /\ List.length (ofType resistance cs) = Nat.div (numClusters timeframe) 2
  /\ (forall s, clusters s = cs ->
        List.length (shownSupports s) = 3%nat
        /\ List.length (shownResistances s) = 3%nat).
Proof.
  cbv zeta. destruct (supports_are_half random data timeframe n Hrandom) as [S R].
  split; [exact S|]. split; [exact R|]. intros s E.
  unfold shownSupports, shownResistances, supportClusters, resistanceClusters,
    slice0.
  rewrite !length_firstn, !(Permutation_length (sort_perm _ _)), E, S, R.
  destruct (numClusters_values timeframe) as [V|[V|V]]; rewrite V; split; reflexivity.
Qed.
End ClusterCounts.

(** X10, instance: the five supports of the timeframe 1W. *)
Lemma X10_witness :
  in_unit always_half
  /\ List.length
       (LiquidityClusters.ofType LiquidityClusters.support
          (fst (LiquidityClusters.processClusterData always_half (payload 65000)
                  "1W" 0%nat)))
     = 5%nat.
Proof.
  split; [apply in_unit_always_half|].
  exact (proj1 (X10_three_rows_per_table always_half in_unit_always_half
           (payload 65000) "1W" 0%nat)).
Defined.

(** ** Strength, markers and fetches of the clusters *)

Section ClusterStrength.
Import LiquidityClusters.

Lemma baseStrength_by_timeframe random tf n :
  in_unit random ->
  let b := fst (baseStrength random tf n) in
  inject_Z (strengthFloor tf) <= b
  /\ b <= inject_Z (strengthCeiling tf)
  /\ Qmin (b * (15 # 10)) 100 <= inject_Z (strengthCeiling tf).
Proof.
  intros Hr. destruct (Hr n) as [H0 H1]. cbv zeta.
  unfold baseStrength, bind, ret, JS.Math_random, strengthFloor, strengthCeiling.
  cbn [fst].
  pose proof (Q.le_min_r ((random n * 40 + 20) * (15 # 10)) 100) as R24.
  pose proof (Q.le_min_l ((random n * 40 + 20) * (15 # 10)) 100) as L24.
  pose proof (Q.le_min_r ((random n * 50 + 30) * (15 # 10)) 100) as R3.
  pose proof (Q.le_min_r ((random n * 60 + 40) * (15 # 10)) 100) as R1.
  destruct (String.eqb tf "24h") eqn:E24.
  - apply String.eqb_eq in E24. subst tf. cbn.
    change (inject_Z 20) with 20. change (inject_Z 90) with 90.
    repeat split; lra.
  - destruct (String.eqb tf "3D"); [|destruct (String.eqb tf "1W")];
      change (inject_Z 20) with 20; change (inject_Z 30) with 30;
      change (inject_Z 40) with 40; change (inject_Z 90) with 90;
      change (inject_Z 100) with 100; repeat split; lra.
Qed.

Lemma toCluster_strength_by_timeframe random cp tf p n :
  in_unit random ->
  (strengthFloor tf <= strength (fst (toCluster random cp tf p n))
   <= strengthCeiling tf)%Z.
Proof.
  intros Hr. destruct (toCluster_fields random cp tf p n) as (_ & _ & _ & ->).
  destruct (baseStrength_by_timeframe random tf n Hr) as (L & U & UB).
  assert (F : (0 <= strengthFloor tf <= 100)%Z)
    by (unfold strengthFloor; repeat destruct (String.eqb tf _); lia).
  destruct F as [F0 F]. rewrite Zle_Qle in F0, F.
  change (inject_Z 0) with 0 in F0. change (inject_Z 100) with 100 in F.
  apply Math_round_bounds; destruct (isPsychologicalLevel _); unfold Math_min;
    try assumption.
  apply Q.min_glb; lra.
Qed.

(** X11: with draws in [0, 1), the strength of a cluster lies between 20
    and 90 for the timeframe 24h (and any unknown one), between 30 and 100
    for 3D and between 40 and 100 for 1W; the width of its marker lies
    between 30 and 100 and its opacity is positive and at most 1. *)
Theorem X11_strength_by_timeframe (random : nat -> Q) (Hrandom : in_unit random)
  (data : object) (timeframe : string) (n : nat) (c : cluster) :
  In c (fst (processClusterData random data timeframe n)) ->
  (strengthFloor timeframe <= strength c <= strengthCeiling timeframe)%Z
  /\ (30 <= markerWidth c <= 100)%Z
  /\ 0 < markerOpacity c /\ markerOpacity c <= 1.
Proof.
  intros Hin.
  assert (S : (strengthFloor timeframe <= strength c <= strengthCeiling timeframe)%Z).
  { revert c Hin. apply Forall_forall. unfold processClusterData, bind.
    destruct (mapM (pricePoint random _) (seq 0 (numClusters timeframe)) n)
      as [pts n1].
    apply mapM_Forall with (Pre := fun _ => True); [|rewrite Forall_forall; auto].
    intros p k _. now apply toCluster_strength_by_timeframe. }
  split; [exact S|].
  assert (B : (20 <= strength c <= 100)%Z).
  { unfold strengthFloor, strengthCeiling in S.
    destruct (String.eqb timeframe "3D"), (String.eqb timeframe "1W"); lia. }
  unfold markerWidth, markerOpacity. rewrite Qdiv100.
  destruct B as [B1 B2]. pose proof B1 as Q1. pose proof B2 as Q2.
  rewrite Zle_Qle in Q1, Q2.
  change (inject_Z 20) with 20 in Q1. change (inject_Z 100) with 100 in Q2.
  split; [lia|]. split; lra.
Qed.

(** X12: the marker of any cluster stays on the price scale: its position
    lies between 0 and 100 percent, in the upper half for a resistance and
    in the lower half for a support, and a distance of 20 percent or more in
    either direction is drawn at the edge. *)
Theorem X12_cluster_marker_position (c : cluster) :
  0 <= positionPercent c /\ positionPercent c <= 100
  /\ (type c = resistance -> positionPercent c <= 50)
  /\ (type c = support -> 50 <= positionPercent c)
  /\ (20 <= Qabs (distance c) ->
      positionPercent c == match type c with resistance => 0 | support => 100 end).
Proof.
  unfold positionPercent, Math_min.
  pose proof (Qabs_nonneg (distance c)) as A.
  assert (L : 0 <= Qmin (Qabs (distance c)) 20) by (apply Q.min_glb; lra).
  pose proof (Q.le_min_r (Qabs (distance c)) 20) as U.
  destruct (type c).
  - split; [lra|]. split; [lra|]. split; [intros H; discriminate H|].
    split; [intros _; lra|]. intros F. rewrite (Q.min_r _ _ F). lra.
  - split; [lra|]. split; [lra|]. split; [intros _; lra|].
    split; [intros H; discriminate H|]. intros F. rewrite (Q.min_r _ _ F). lra.
Qed.

Lemma cluster_fetch_failed random tf now r s n :
  failed r = true ->
  fetchLiquidityClusters random tf now r (s, n)
  = (mkState (clusters s) false (selectedTimeframe s) (lastUpdated s)
       (currentPrice s), n).
Proof. intros H. destruct r as [|[|data]]; try discriminate H; reflexivity. Qed.

Lemma cluster_fetch_ok random tf now data s n :
  fetchLiquidityClusters random tf now (Resolved (Obj data)) (s, n)
  = (mkState (fst (processClusterData random data tf n)) true
       (selectedTimeframe s) (Some now)
       (Some (orElse (JS.currentPrice data) 65000)),
     snd (processClusterData random data tf n)).
Proof.
  unfold fetchLiquidityClusters, try_fetch.
  now destruct (processClusterData random data tf n).
Qed.

(** X13: in the liquidity module [isLive] tells whether the fetch
    succeeded and the selected timeframe is never changed by a response.  A
    failed fetch keeps the clusters, the price and the time of the last
    update and draws no random number; a successful one stamps the time,
    stores a non-zero price and as many clusters as the timeframe of its
    request asks for, whatever timeframe is selected when it arrives. *)
Theorem X13_cluster_fetch_outcome (random : nat -> Q) (timeframe : string)
  (now : Z) (r : response JS.body) (s : state) (n : nat) :
  let s' := fst (fetchLiquidityClusters random timeframe now r (s, n)) in
  isLive s' = negb (failed r)
  /\ selectedTimeframe s' = selectedTimeframe s
  /\ (failed r = true ->
      clusters s' = clusters s /\ currentPrice s' = currentPrice s
      /\ lastUpdated s' = lastUpdated s
      /\ snd (fetchLiquidityClusters random timeframe now r (s, n)) = n)
  /\ (failed r = false ->
      lastUpdated s' = Some now
      /\ List.length (clusters s') = numClusters timeframe
      /\ exists p, currentPrice s' = Some p /\ ~ p == 0).
Proof.
  cbv zeta. destruct r as [|[|data]].
  - rewrite cluster_fetch_failed by reflexivity. cbn.
    split; [reflexivity|]. split; [reflexivity|].
    split; [intros _; repeat split; reflexivity | intros H; discriminate H].
  - rewrite cluster_fetch_failed by reflexivity. cbn.
    split; [reflexivity|]. split; [reflexivity|].
    split; [intros _; repeat split; reflexivity | intros H; discriminate H].
  - rewrite cluster_fetch_ok.
    cbn [fst snd failed negb isLive selectedTimeframe lastUpdated currentPrice clusters].
    split; [reflexivity|]. split; [reflexivity|].
    split; [intros H; discriminate H|]. intros _.
    split; [reflexivity|]. split.
    + apply processClusterData_length.
    + eexists. split; [reflexivity|]. apply orElse_default_nonzero.
Qed.
End ClusterStrength.

(** ** Whale alerts *)

Lemma mapM_map {A B C : Type} (f : A -> Rand B) (g : B -> C) (h : A -> C) :
  (forall a n, g (fst (f a n)) = h a) ->
  forall l n, map g (fst (mapM f l n)) = map h l.
Proof.
  intros H l. induction l as [|a l IH]; intros n; [reflexivity|].
  cbn [mapM]. unfold bind, ret. specialize (H a n).
  destruct (f a n) as [b n1]. specialize (IH n1).
  destruct (mapM f l n1) as [bs n2]. cbn [fst map] in *. now rewrite H, IH.
Qed.

(** A traversal whose callback makes [k] draws makes [k] draws per element. *)
Lemma mapM_draws {A B : Type} (f : A -> Rand B) (k : nat) :
  (forall a n, snd (f a n) = (n + k)%nat) ->
  forall l n, snd (mapM f l n) = (n + k * List.length l)%nat.
Proof.
  intros H l. induction l as [|a l IH]; intros n; cbn [mapM List.length].
  - unfold ret. cbn. lia.
  - unfold bind, ret. specialize (H a n).
    destruct (f a n) as [b n1]. specialize (IH n1).
    destruct (mapM f l n1) as [bs n2]. cbn [snd] in *. subst. lia.
Qed.

Section WhaleExtras.
Import WhaleAlerts.

Lemma toAlert_fields random t n :
  let a := fst (toAlert random t n) in
  copied a = source t
  /\ confidence a = Z.min ((Math_floor (random n * 5) + 1) * 20) 100
  /\ targetPrice a
     = (let movementPercent := (random (S n) * 3 + 2) / 100 in
        match determineSignalType t with
        | LONG => t_price t * (1 + movementPercent)
        | SHORT => t_price t * (1 - movementPercent)
        end)
  /\ confirmations a = (Math_floor (random (S (S n)) * 5) + 1)%Z
  /\ snd (toAlert random t n) = (n + 3)%nat.
Proof.
  cbv zeta. unfold toAlert, calculateConfidence, estimateTargetPrice,
    countConfirmations, bind, ret, JS.Math_random. cbn.
  repeat split; try reflexivity. f_equal. lia.
Qed.

Lemma mostRecentFirst_key (a b : whaleAlert) :
  mostRecentFirst a b = inject_Z (timestamp b) - inject_Z (timestamp a).
Proof. reflexivity. Qed.

Lemma processWhaleAlerts_length random data n :
  List.length (fst (processWhaleAlerts random data n)) = List.length data.
Proof.
  unfold processWhaleAlerts, bind, ret.
  pose proof (mapM_length (toAlert random) data n) as L.
  destruct (mapM (toAlert random) data n) as [alerts n1]. cbn [fst] in *.
  now rewrite (Permutation_length (sort_perm _ _)).
Qed.

(** X14: [processWhaleAlerts] returns one alert per transaction, carrying
    its id, timestamp, exchange, amount and price and the signal LONG for a
    buy and SHORT otherwise, most recent first; transactions with the same
    timestamp keep the order of the payload.  It draws exactly three random
    numbers per transaction. *)
Theorem X14_whale_alerts_newest_first (random : nat -> Q)
  (data : list transaction) (n : nat) :
  let out := fst (processWhaleAlerts random data n) in
  Permutation (map copied out) (map source data)
  /\ List.length out = List.length data
  /\ StronglySorted (outranks timestamp) out
  /\ (forall k,
        map copied (filter (fun a => (timestamp a =? k)%Z) out)
        = map source (filter (fun t => (t_timestamp t =? k)%Z) data))
  /\ snd (processWhaleAlerts random data n) = (n + 3 * List.length data)%nat.
Proof.
  cbv zeta. unfold processWhaleAlerts, bind, ret.
  pose proof (mapM_map (toAlert random) copied source
                (fun t k => proj1 (toAlert_fields random t k)) data n) as C.
  pose proof (mapM_length (toAlert random) data n) as L.
  pose proof (mapM_draws (toAlert random) 3
                (fun t k => proj2 (proj2 (proj2 (proj2 (toAlert_fields random t k)))))
                data n) as D.
  destruct (mapM (toAlert random) data n) as [alerts n1]. cbn [fst snd] in *.
  split; [|split; [|split; [|split]]].
  - rewrite <- C. apply Permutation_map, sort_perm.
  - now rewrite (Permutation_length (sort_perm _ _)).
  - apply sort_sorted, mostRecentFirst_key.
  - intros k. rewrite (sort_stable timestamp mostRecentFirst mostRecentFirst_key).
    clear L D. revert data C. induction alerts as [|a alerts IH]; intros [|t data] C;
      try discriminate C; [reflexivity|].
    cbn [map] in C.
    assert (Ca : copied a = source t) by congruence.
    assert (C' : map copied alerts = map source data) by congruence.
    cbn [filter].
    assert (T : timestamp a = t_timestamp t).
    { unfold copied, source in Ca. congruence. }
    rewrite T. destruct (t_timestamp t =? k)%Z; cbn [map]; rewrite ?Ca;
      now rewrite (IH data C').
  - exact D.
Qed.

Lemma toAlert_target random t k :
  in_unit random ->
  0 < price (fst (toAlert random t k)) ->
  on_signal_side (fst (toAlert random t k)).
Proof.
  intros Hrandom. unfold on_signal_side.
  destruct (toAlert_fields random t k) as (C & _ & T & _).
  cbv zeta in C, T. unfold copied, source in C.
  assert (Ep : price (fst (toAlert random t k)) = t_price t) by congruence.
  assert (Es : signal (fst (toAlert random t k)) = determineSignalType t)
    by congruence.
  rewrite Ep, Es, T. intros Hp'.
  destruct (Hrandom (S k)) as [H0 H1]. rewrite Qdiv100.
  destruct (determineSignalType t); split; nra.
Qed.

(** X15: with draws in [0, 1) and a positive entry price, the target of a
    LONG alert lies 2 to 5 percent above the entry price and the target of a
    SHORT alert 2 to 5 percent below it. *)
Theorem X15_target_on_the_side_of_the_signal (random : nat -> Q)
  (Hrandom : in_unit random) (data : list transaction) (n : nat)
  (a : whaleAlert) :
  In a (fst (processWhaleAlerts random data n)) ->
  0 < price a ->
  match signal a with
  | LONG => price a * (102 # 100) <= targetPrice a
            /\ targetPrice a < price a * (105 # 100)
  | SHORT => price a * (95 # 100) < targetPrice a
             /\ targetPrice a <= price a * (98 # 100)
  end.
Proof.
  intros Hin Hp.
  assert (F : Forall (fun a => 0 < price a -> on_signal_side a)
                (fst (processWhaleAlerts random data n))).
  { unfold processWhaleAlerts, bind, ret.
    pose proof (mapM_Forall (toAlert random) (fun _ => True)
      (fun a => 0 < price a -> on_signal_side a)
      (fun t k _ => toAlert_target random t k Hrandom) data n) as M.
    destruct (mapM (toAlert random) data n) as [al n1]. cbn [fst] in *.
    apply sort_Forall. apply M. rewrite Forall_forall. auto. }
  rewrite Forall_forall in F. now apply F.
Qed.

(** X16: the confidence of a whale alert and the number of confirmations
    shown beside it come from two different draws: the confidence is 20
    times one count between 1 and 5, the confirmations are another such
    count, and the two agree exactly when both draws fall in the same
    fifth. *)
Theorem X16_confirmations_drawn_twice (random : nat -> Q)
  (Hrandom : in_unit random) (t : transaction) (n : nat) :
  let a := fst (toAlert random t n) in
  confidence a = (20 * (Math_floor (random n * 5) + 1))%Z
  /\ confirmations a = (Math_floor (random (S (S n)) * 5) + 1)%Z
  /\ (1 <= confirmations a <= 5)%Z
  /\ (confidence a = (20 * confirmations a)%Z
      <-> Math_floor (random n * 5) = Math_floor (random (S (S n)) * 5)).
Proof.
  cbv zeta. destruct (toAlert_fields random t n) as (_ & C & _ & K & _).
  cbv zeta in C, K. rewrite C, K.
  destruct (Hrandom n) as [H0 H1]. destruct (Hrandom (S (S n))) as [G0 G1].
  assert (B : (0 <= Math_floor (random n * 5) < 5)%Z).
  { apply Math_floor_bounds; [change (inject_Z 0) with 0 | change (inject_Z 5) with 5]; lra. }
  assert (B' : (0 <= Math_floor (random (S (S n)) * 5) < 5)%Z).
  { apply Math_floor_bounds; [change (inject_Z 0) with 0 | change (inject_Z 5) with 5]; lra. }
  repeat split; lia.
Qed.

(** X17: in the whale module a response that carries an array replaces the
    alerts by one alert per transaction, sets [isLive] and stamps the time;
    a rejected request or a body that is not an array only clears [isLive]
    and draws no random number. *)
Theorem X17_whale_fetch_outcome (random : nat -> Q) (now : Z)
  (r : response WhaleAlerts.body) (s : state) (n : nat) :
  let s' := fst (fetchWhaleAlerts random now r (s, n)) in
  (forall data, r = Resolved (Array data) ->
     isLive s' = true /\ lastUpdated s' = Some now
     /\ whaleAlerts s' = fst (processWhaleAlerts random data n)
     /\ List.length (whaleAlerts s') = List.length data)
  /\ (r = Rejected \/ r = Resolved NotArray ->
      isLive s' = false /\ whaleAlerts s' = whaleAlerts s
      /\ lastUpdated s' = lastUpdated s
      /\ snd (fetchWhaleAlerts random now r (s, n)) = n).
Proof.
  cbv zeta. split.
  - intros data ->. unfold fetchWhaleAlerts, try_fetch.
    pose proof (processWhaleAlerts_length random data n) as X.
    destruct (processWhaleAlerts random data n) as [al n1]. cbn in *.
    repeat split. exact X.
  - intros [-> | ->]; cbn; repeat split.
Qed.
End WhaleExtras.

(** ** Detected patterns *)

Lemma Qdiv10 (x : Q) : x / 10 = x * (1 # 10).
Proof. reflexivity. Qed.

Lemma scaled_between (r lo hi : Q) :
  0 <= r -> r < 1 -> lo < hi ->
  lo <= r * (hi - lo) + lo /\ r * (hi - lo) + lo < hi.
Proof.
  intros H0 H1 H.
  assert (P : 0 <= r * (hi - lo)) by (apply Qmult_le_0_compat; lra).
  assert (P2 : 0 < (1 - r) * (hi - lo)) by (apply Qmult_lt_0_compat; lra).
  split; lra.
Qed.

Section PatternFacts.
Import PatternRecognition.

Lemma toFixed1_bounds (a b : Z) (x : Q) :
  (0 <= a)%Z -> inject_Z a <= x -> x <= inject_Z b ->
  inject_Z a <= toFixed1 x /\ toFixed1 x <= inject_Z b.
Proof.
  intros Ha Hax Hxb.
  assert (Ha' : 0 <= inject_Z a) by (now rewrite Zle_Qle in Ha).
  unfold toFixed1.
  assert (E : Qltb x 0 = false) by (apply Qltb_false; lra). rewrite E.
  assert (Hlo : inject_Z (a * 10) <= x * 10)
    by (rewrite inject_Z_mult; change (inject_Z 10) with 10; lra).
  assert (Hhi : x * 10 <= inject_Z (b * 10))
    by (rewrite inject_Z_mult; change (inject_Z 10) with 10; lra).
  destruct (Math_round_bounds _ _ (x * 10) Hlo Hhi) as [L U].
  unfold Math_round in L, U. rewrite Zle_Qle in L, U.
  rewrite inject_Z_mult in L, U. change (inject_Z 10) with 10 in L, U.
  rewrite Qdiv10. lra.
Qed.

Lemma templates_ranges :
  Forall (fun t => (1 <= fst (targetRange t) < snd (targetRange t))%Z
                   /\ (45 <= fst (reliabilityRange t)
                       < snd (reliabilityRange t))%Z
                   /\ (snd (reliabilityRange t) <= 95)%Z)
    patternTemplates.
Proof. repeat constructor; cbn; lia. Qed.

Lemma at_index_In {A : Type} (l : list A) (i : Z) (a : A) :
  at_index l i = Some a ->
  In a l /\ (0 <= i < Z.of_nat (List.length l))%Z.
Proof.
  unfold at_index. destruct (i <? 0)%Z eqn:E; [discriminate|].
  apply Z.ltb_ge in E. intros H. split; [now apply nth_error_In in H|].
  assert (nth_error l (Z.to_nat i) <> None) by congruence.
  apply nth_error_Some in H0. lia.
Qed.

Lemma template_index_unique (i j : Z) (t1 t2 : template) :
  at_index patternTemplates i = Some t1 ->
  at_index patternTemplates j = Some t2 ->
  name t1 = name t2 -> i = j.
Proof.
  intros H1 H2. destruct (at_index_In _ _ _ H1) as [_ B1].
  destruct (at_index_In _ _ _ H2) as [_ B2].
  change (Z.of_nat (List.length patternTemplates)) with 11%Z in B1, B2.
  unfold at_index in H1, H2.
  replace (i <? 0)%Z with false in H1 by (symmetry; apply Z.ltb_ge; lia).
  replace (j <? 0)%Z with false in H2 by (symmetry; apply Z.ltb_ge; lia).
  assert (Ei : i = Z.of_nat (Z.to_nat i)) by lia.
  assert (Ej : j = Z.of_nat (Z.to_nat j)) by lia.
  assert (Bi : (Z.to_nat i < 11)%nat) by lia.
  assert (Bj : (Z.to_nat j < 11)%nat) by lia.
  rewrite Ei, Ej. revert H1 H2 Bi Bj.
  generalize (Z.to_nat i) (Z.to_nat j). intros a b H1 H2 Ba Bb N.
  do 11 (destruct a as [|a]; [
    do 11 (destruct b as [|b]; [
      cbn in H1, H2; injection H1 as <-; injection H2 as <-;
      first [reflexivity | discriminate N] |]); lia |]).
  lia.
Qed.

Variable random : nat -> Q.
Variable clock : nat -> Z.
Variable minutesBefore : Z -> Z -> Z.
Hypothesis Hrandom : in_unit random.

Lemma detect_spec data position template n :
  In template patternTemplates ->
  match fst (detect random clock minutesBefore data position template n) with
  | inl e => data = Nullish /\ e = TypeError
  | inr p =>
      template_ p = template /\ within_ranges p
      /\ exists o, data = Obj o
           /\ (0 < orElse (JS.currentPrice o) 65000 ->
               target_on_side (orElse (JS.currentPrice o) 65000) p)
  end.
Proof.
  intros Hin. pose proof templates_ranges as R. rewrite Forall_forall in R.
  destruct (R template Hin) as ((T1 & T2) & (R1 & R2) & R3).
  destruct (Hrandom n) as [A0 A1]. destruct (Hrandom (S n)) as [B0 B1].
  unfold detect, bind, ret, JS.Math_random. destruct data as [|o]; cbn [fst].
  - split; reflexivity.
  - set (tp := toFixed1 _). set (rel := Math_floor _).
    assert (HT : inject_Z (fst (targetRange template)) <= tp
                 /\ tp <= inject_Z (snd (targetRange template))).
    { subst tp. rewrite Zlt_Qlt in T2.
      destruct (scaled_between (random n) _ _ A0 A1 T2) as [L U].
      apply toFixed1_bounds; [lia | |];
        unfold Z.sub; rewrite inject_Z_plus, inject_Z_opp; lra. }
    assert (HR : (fst (reliabilityRange template) <= rel
                  < snd (reliabilityRange template))%Z).
    { subst rel. rewrite Zlt_Qlt in R2.
      destruct (scaled_between (random (S n)) _ _ B0 B1 R2) as [L U].
      apply Math_floor_bounds;
        unfold Z.sub; rewrite inject_Z_plus, inject_Z_opp; lra. }
    split; [reflexivity|]. split.
    { unfold within_ranges. cbn [template_ reliability targetPercent].
      split; [exact Hin|]. split; [lia | exact HT]. }
    exists o. split; [reflexivity|]. intros Hcp.
    unfold target_on_side. cbn [template_ targetPrice]. fold tp.
    rewrite Zle_Qle in T1. change (inject_Z 1) with 1 in T1.
    destruct HT as [HT _].
    assert (P : 0 < orElse (JS.currentPrice o) 65000 * (tp * (1 # 100)))
      by (apply Qmult_lt_0_compat; lra).
    rewrite Qdiv100. destruct (direction_ template); lra.
Qed.

Lemma select_finished fuel data numPatterns :
  forall idxs ps n out,
    fst (select random clock minutesBefore fuel data numPatterns idxs ps n)
    = Finished out ->
    selection data idxs ps ->
    (exists idxs', selection data idxs' out)
    /\ Z.of_nat (List.length out)
       = Z.max numPatterns (Z.of_nat (List.length ps)).
Proof.
  induction fuel as [|fuel IH]; intros idxs ps n out; cbn [select].
  - destruct (Z.of_nat (List.length ps) <? numPatterns)%Z eqn:E;
      [discriminate|].
    intros H Sel. injection H as <-. apply Z.ltb_ge in E.
    split; [now exists idxs | lia].
  - destruct (Z.of_nat (List.length ps) <? numPatterns)%Z eqn:E.
    2:{ intros H Sel. injection H as <-. apply Z.ltb_ge in E.
        split; [now exists idxs | lia]. }
    apply Z.ltb_lt in E. unfold bind at 1. unfold JS.Math_random at 1.
    set (idx := Math_floor _).
    destruct (existsb (Z.eqb idx) idxs) eqn:X; cbn [negb].
    + intros H Sel. destruct (IH idxs ps (S n) out H Sel) as [I L]. split; [exact I|].
      exact L.
    + destruct (at_index patternTemplates idx) as [t|] eqn:A; [|discriminate].
      unfold bind. pose proof (detect_spec data (List.length ps) t (S n)
                                 (proj1 (at_index_In _ _ _ A))) as D.
      destruct (detect random clock minutesBefore data (List.length ps) t (S n))
        as [[e|p] n1]; cbn [fst] in D; [discriminate|].
      destruct D as (Et & W & O). intros H (S1 & S2 & S3 & S4).
      assert (S' : selection data (idx :: idxs) (ps ++ [p])).
      { split; [|split; [|split]].
        - intros q Hq. apply in_app_or in Hq. destruct Hq as [Hq|[<-|[]]].
          + destruct (S1 q Hq) as (i & Hi & Ai). exists i. split; [now right|exact Ai].
          + exists idx. split; [now left|]. now rewrite Et.
        - rewrite map_app. cbn [map].
          apply Permutation_NoDup with (l := name (template_ p) :: map (fun p => name (template_ p)) ps).
          { apply Permutation_cons_append. }
          constructor; [|exact S2]. intros Hin. apply in_map_iff in Hin.
          destruct Hin as (q & En & Hq). destruct (S1 q Hq) as (i & Hi & Ai).
          rewrite Et in En.
          assert (i = idx) by (apply (template_index_unique i idx _ _ Ai A En)).
          subst i. assert (existsb (Z.eqb idx) idxs = true).
          { apply existsb_exists. exists idx. split; [exact Hi | apply Z.eqb_refl]. }
          congruence.
        - apply Forall_app. split; [exact S3 | now constructor].
        - apply Forall_app. split; [exact S4 | now constructor]. }
      destruct (IH _ _ _ _ H S') as [I L]. split; [exact I|].
      rewrite L, length_app. cbn [List.length]. lia.
Qed.

Lemma newestFirst_key (a b : pattern) :
  newestFirst a b = inject_Z (detectedAt b) - inject_Z (detectedAt a).
Proof. reflexivity. Qed.

Lemma processPatternData_finished fuel data n ps :
  fst (processPatternData random clock minutesBefore fuel data n) = Finished ps ->
  Z.of_nat (List.length ps) = (Math_floor (random n * 3) + 2)%Z
  /\ (2 <= List.length ps <= 4)%nat
  /\ NoDup (map (fun p => name (template_ p)) ps)
  /\ Forall within_ranges ps
  /\ StronglySorted (outranks detectedAt) ps
  /\ exists o, data = Obj o
       /\ (0 < orElse (JS.currentPrice o) 65000 ->
           Forall (target_on_side (orElse (JS.currentPrice o) 65000)) ps).
Proof.
  unfold processPatternData, bind, ret. unfold JS.Math_random at 1.
  destruct (Hrandom n) as [H0 H1].
  assert (B : (0 <= Math_floor (random n * 3) < 3)%Z).
  { apply Math_floor_bounds; [change (inject_Z 0) with 0 | change (inject_Z 3) with 3]; lra. }
  pose proof (select_finished fuel data (Math_floor (random n * 3) + 2) [] []
                (S n)) as F.
  destruct (select random clock minutesBefore fuel data _ [] [] (S n))
    as [[sel|e|] n1]; cbn [fst] in *; try discriminate.
  intros E. injection E as <-.
  destruct (F sel eq_refl) as [(idxs & S1 & S2 & S3 & S4) L].
  { repeat split; try constructor. intros p []. }
  cbn [List.length] in L.
  assert (P : Permutation (sort newestFirst sel) sel) by apply sort_perm.
  assert (Len : Z.of_nat (List.length (sort newestFirst sel))
                = (Math_floor (random n * 3) + 2)%Z)
    by (rewrite (Permutation_length P); lia).
  split; [exact Len|]. split; [lia|]. split; [|split; [|split]].
  - apply (Permutation_NoDup (l := map (fun p => name (template_ p)) sel));
      [symmetry; now apply Permutation_map | exact S2].
  - now apply sort_Forall.
  - apply sort_sorted, newestFirst_key.
  - destruct sel as [|p sel]; [cbn [List.length] in L; lia|].
    inversion S4 as [|? ? (o & -> & _) _]; subst. exists o. split; [reflexivity|].
    intros Hcp. apply sort_Forall. eapply Forall_impl; [|exact S4].
    intros q (o' & E & Hq). injection E as <-. now apply Hq.
Qed.

Lemma processPatternData_nullish fuel n :
  fst (processPatternData random clock minutesBefore (S fuel) Nullish n)
  = Threw TypeError.
Proof.
  unfold processPatternData, bind, ret. unfold JS.Math_random at 1.
  destruct (Hrandom n) as [H0 H1]. destruct (Hrandom (S n)) as [G0 G1].
  assert (B : (0 <= Math_floor (random n * 3) < 3)%Z).
  { apply Math_floor_bounds; [change (inject_Z 0) with 0 | change (inject_Z 3) with 3]; lra. }
  cbn [select List.length].
  replace (Z.of_nat 0 <? Math_floor (random n * 3) + 2)%Z with true
    by (symmetry; apply Z.ltb_lt; lia).
  unfold bind at 1. unfold JS.Math_random at 1. cbn [existsb negb].
  assert (I : (0 <= Math_floor (random (S n) * inject_Z (Z.of_nat (List.length patternTemplates))) < 11)%Z).
  { change (inject_Z (Z.of_nat (List.length patternTemplates))) with 11.
    apply Math_floor_bounds; [change (inject_Z 0) with 0 | change (inject_Z 11) with 11]; lra. }
  set (idx := Math_floor (random (S n) * _)) in *.
  destruct (at_index patternTemplates _) as [t|] eqn:A.
  - unfold bind, detect, ret, JS.Math_random. reflexivity.
  - exfalso. unfold at_index in A.
    replace (_ <? 0)%Z with false in A by (symmetry; apply Z.ltb_ge; lia).
    apply nth_error_None in A. cbn [List.length patternTemplates] in A. lia.
Qed.
End PatternFacts.

Section PatternFuel.
Import PatternRecognition.
Variable random : nat -> Q.
Variable clock : nat -> Z.
Variable minutesBefore : Z -> Z -> Z.

Lemma select_more_fuel fuel : forall fuel' data numPatterns idxs ps n,
  (fuel <= fuel')%nat ->
  fst (select random clock minutesBefore fuel data numPatterns idxs ps n)
  <> OutOfFuel ->
  select random clock minutesBefore fuel' data numPatterns idxs ps n
  = select random clock minutesBefore fuel data numPatterns idxs ps n.
Proof.
  induction fuel as [|fuel IH]; intros fuel' data num idxs ps n Hle.
  - cbn [select]. destruct fuel'; cbn [select];
      destruct (Z.of_nat (List.length ps) <? num)%Z; try reflexivity;
      intros H; now contradiction H.
  - destruct fuel' as [|fuel']; [lia|]. cbn [select].
    destruct (Z.of_nat (List.length ps) <? num)%Z; [|reflexivity].
    unfold bind, JS.Math_random.
    set (idx := Math_floor _).
    destruct (negb (existsb (Z.eqb idx) idxs)).
    + destruct (at_index patternTemplates idx) as [t|]; [|reflexivity].
      destruct (detect random clock minutesBefore data (List.length ps) t (S n))
        as [[e|p] n1]; [reflexivity|].
      intros H. apply IH; [lia | exact H].
    + intros H. apply IH; [lia | exact H].
Qed.

Lemma processPatternData_more_fuel fuel fuel' data n :
  (fuel <= fuel')%nat ->
  fst (processPatternData random clock minutesBefore fuel data n) <> OutOfFuel ->
  processPatternData random clock minutesBefore fuel' data n
  = processPatternData random clock minutesBefore fuel data n.
Proof.
  intros Hle. unfold processPatternData, bind, ret. unfold JS.Math_random.
  intros H.
  rewrite (select_more_fuel fuel fuel' data _ [] [] (S n) Hle); [reflexivity|].
  destruct (select random clock minutesBefore fuel data _ [] [] (S n))
    as [[sel|e|] n1]; cbn [fst] in *; congruence.
Qed.
End PatternFuel.

Section PatternRepeats.
Import PatternRecognition.
Variable c : Q.
Hypothesis c_unit : 0 <= c /\ c < 1.
Variable clock : nat -> Z.
Variable minutesBefore : Z -> Z -> Z.

Lemma select_stuck fuel : forall data numPatterns idxs ps n,
  In (Math_floor (c * inject_Z (Z.of_nat (List.length patternTemplates)))) idxs ->
  (Z.of_nat (List.length ps) < numPatterns)%Z ->
  fst (select (constantly c) clock minutesBefore fuel data numPatterns idxs ps n)
  = OutOfFuel.
Proof.
  induction fuel as [|fuel IH]; intros data num idxs ps n Hin Hlt; cbn [select];
    replace (Z.of_nat (List.length ps) <? num)%Z with true
      by (symmetry; now apply Z.ltb_lt); [reflexivity|].
  unfold bind at 1. unfold JS.Math_random at 1. unfold constantly at 1.
  set (idx := Math_floor _) in *.
  replace (existsb (Z.eqb idx) idxs) with true; [now apply IH|].
  symmetry. apply existsb_exists. exists idx. split; [exact Hin | apply Z.eqb_refl].
Qed.

Lemma processPatternData_repeats fuel o n :
  fst (processPatternData (constantly c) clock minutesBefore fuel (Obj o) n)
  = OutOfFuel.
Proof.
  destruct c_unit as [H0 H1].
  unfold processPatternData, bind, ret. unfold JS.Math_random at 1.
  change (constantly c n) with c.
  assert (B : (0 <= Math_floor (c * 3) < 3)%Z).
  { apply Math_floor_bounds; [change (inject_Z 0) with 0 | change (inject_Z 3) with 3]; lra. }
  assert (E : fst (select (constantly c) clock minutesBefore fuel (Obj o)
                     (Math_floor (c * 3) + 2) [] [] (S n)) = OutOfFuel).
  { destruct fuel as [|fuel]; cbn [select List.length];
      replace (Z.of_nat 0 <? Math_floor (c * 3) + 2)%Z with true
        by (symmetry; apply Z.ltb_lt; lia); [reflexivity|].
    unfold bind at 1. unfold JS.Math_random at 1.
    change (constantly c (S n)) with c.
    set (idx := Math_floor (c * _)).
    cbn [existsb negb].
    destruct (at_index patternTemplates idx) as [t|] eqn:A.
    - unfold detect, bind, ret, JS.Math_random. cbn [app].
      apply select_stuck; [now left | cbn [List.length]; lia].
    - exfalso. unfold at_index in A.
      assert (I : (0 <= idx < 11)%Z).
      { subst idx. change (inject_Z (Z.of_nat (List.length patternTemplates))) with 11.
        apply Math_floor_bounds; [change (inject_Z 0) with 0 | change (inject_Z 11) with 11]; lra. }
      replace (idx <? 0)%Z with false in A by (symmetry; apply Z.ltb_ge; lia).
      apply nth_error_None in A. cbn [List.length patternTemplates] in A. lia. }
  destruct (select (constantly c) clock minutesBefore fuel (Obj o) _ [] [] (S n))
    as [[sel|e|] n1]; cbn [fst] in *; congruence.
Qed.
End PatternRepeats.

Section PatternFilter.
Import PatternRecognition.





End PatternFilter.


Section PatternTheorems.
Import PatternRecognition.

(** X18: with draws in [0, 1), whenever the selection of patterns ends it
    returns between 2 and 4 patterns, as many as the first draw asks for, no
    template twice, most recently detected first; the reliability and the
    target percentage of each lie within the ranges of its template, ends
    included (the reliability between 45 and 95), and for a positive
    reference price the target price lies above it for LONG and below it
    for SHORT. *)
Theorem X18_selected_patterns (random : nat -> Q) (clock : nat -> Z)
  (minutesBefore : Z -> Z -> Z) (Hrandom : in_unit random) (fuel : nat)
  (data : body) (n : nat) (ps : list pattern) :
  fst (processPatternData random clock minutesBefore fuel data n) = Finished ps ->
  Z.of_nat (List.length ps) = (Math_floor (random n * 3) + 2)%Z
  /\ (2 <= List.length ps <= 4)%nat
  /\ NoDup (map (fun p => name (template_ p)) ps)
  /\ (forall p, In p ps ->
        In (template_ p) patternTemplates
        /\ (fst (reliabilityRange (template_ p)) <= reliability p
            <= snd (reliabilityRange (template_ p)))%Z
        /\ (45 <= reliability p <= 95)%Z
        /\ inject_Z (fst (targetRange (template_ p))) <= targetPercent p
        /\ targetPercent p <= inject_Z (snd (targetRange (template_ p))))
  /\ StronglySorted (outranks detectedAt) ps
  /\ exists o, data = Obj o
       /\ (0 < orElse (JS.currentPrice o) 65000 ->
           forall p, In p ps ->
             match direction_ (template_ p) with
             | LONG => orElse (JS.currentPrice o) 65000 < targetPrice p
             | SHORT => targetPrice p < orElse (JS.currentPrice o) 65000
             end).
Proof.
  intros F.
  destruct (processPatternData_finished random clock minutesBefore Hrandom
              fuel data n ps F) as (L & B & N & W & S & o & E & T).
  split; [exact L|]. split; [exact B|]. split; [exact N|].
  split; [|split; [exact S|]].
  - intros p Hp. rewrite Forall_forall in W.
    destruct (W p Hp) as (I & R & T1 & T2).
    pose proof templates_ranges as TR. rewrite Forall_forall in TR.
    destruct (TR _ I) as (_ & (R1 & _) & R3).
    split; [exact I|]. split; [exact R|]. split; [lia|]. split; assumption.
  - exists o. split; [exact E|]. intros Hcp p Hp.
    specialize (T Hcp). rewrite Forall_forall in T. exact (T p Hp).
Qed.

(** X19: the selection loop need not end.  A run that ends or throws
    within some number of iterations gives the same result with any larger
    number; but when every draw is the same number the loop never ends,
    because the one index it draws is refused from the second iteration on.
    On a nullish body the first iteration throws a TypeError. *)
Theorem X19_selection_loop_may_not_end (random : nat -> Q) (clock : nat -> Z)
  (minutesBefore : Z -> Z -> Z) :
  (forall fuel fuel' data n,
     (fuel <= fuel')%nat ->
     fst (processPatternData random clock minutesBefore fuel data n)
     <> OutOfFuel ->
     processPatternData random clock minutesBefore fuel' data n
     = processPatternData random clock minutesBefore fuel data n)
  /\ (forall c fuel o n,
       0 <= c /\ c < 1 ->
       fst (processPatternData (constantly c) clock minutesBefore fuel (Obj o) n)
       = OutOfFuel)
  /\ (in_unit random ->
      forall fuel n,
        fst (processPatternData random clock minutesBefore (S fuel) Nullish n)
        = Threw TypeError).
Proof.
  split; [|split].
  - intros. now apply processPatternData_more_fuel.
  - intros c fuel o n Hc. now apply processPatternData_repeats.
  - intros Hr fuel n. now apply processPatternData_nullish.
Qed.

End PatternTheorems.

Lemma in_unit_draws2 : in_unit draws2.
Proof.
  intros n. unfold draws2.
  do 9 (destruct n as [|n]; [cbn; split; lra|]).
  cbn. destruct n; split; lra.
Qed.

(** X18, instance: a selection that ends after two patterns. *)
Lemma X18_witness :
  in_unit draws2
  /\ exists ps,
       fst (PatternRecognition.processPatternData draws2 noon minus_minutes 2
              (Obj (payload 65000)) 0%nat)
       = PatternRecognition.Finished ps
       /\ List.length ps = 2%nat.
Proof.
  split; [apply in_unit_draws2|].
  destruct (fst (PatternRecognition.processPatternData draws2 noon minus_minutes
                   2 (Obj (payload 65000)) 0%nat)) as [ps|e|] eqn:E;
    [|vm_compute in E; discriminate E | vm_compute in E; discriminate E].
  exists ps. split; [reflexivity|].
  pose proof (proj1 (X18_selected_patterns draws2 noon minus_minutes
                       in_unit_draws2 2 (Obj (payload 65000)) 0%nat ps E)) as L.
  change (Math_floor (draws2 0%nat * 3) + 2)%Z with 2%Z in L. lia.
Defined.

(** X19, instance: the draws that are all one half. *)
Lemma X19_witness :
  (0 <= 1 # 2 /\ (1 # 2) < 1)
  /\ fst (PatternRecognition.processPatternData (constantly (1 # 2)) noon
            minus_minutes 1000 (Obj (payload 65000)) 0%nat)
     = PatternRecognition.OutOfFuel.
Proof.
  assert (H : 0 <= 1 # 2 /\ (1 # 2) < 1) by (split; reflexivity || discriminate).
  split; [exact H|].
  exact (proj1 (proj2 (X19_selection_loop_may_not_end always_half noon
           minus_minutes)) (1 # 2) 1000%nat (payload 65000) 0%nat H).
Defined.


(** ** Instances *)

(** X11, instance: the clusters of the timeframe 1W. *)
Lemma X11_witness :
  in_unit always_half
  /\ Forall (fun c => (40 <= LiquidityClusters.strength c <= 100)%Z)
       (fst (LiquidityClusters.processClusterData always_half (payload 65000)
               "1W" 0%nat)).
Proof.
  split; [apply in_unit_always_half|].
  apply Forall_forall. intros c Hc.
  exact (proj1 (X11_strength_by_timeframe always_half in_unit_always_half
           (payload 65000) "1W" 0%nat c Hc)).
Defined.

(** X12, instance: a resistance 23 percent away. *)
Lemma X12_witness :
  LiquidityClusters.type
    (LiquidityClusters.mkCluster 80000 50 LiquidityClusters.resistance 23 true)
  = LiquidityClusters.resistance
  /\ LiquidityClusters.positionPercent
       (LiquidityClusters.mkCluster 80000 50 LiquidityClusters.resistance 23 true)
     <= 50.
Proof.
  split; [reflexivity|].
  exact (proj1 (proj2 (proj2 (X12_cluster_marker_position
           (LiquidityClusters.mkCluster 80000 50 LiquidityClusters.resistance
              23 true)))) eq_refl).
Defined.

(** X13, instance: a response for the timeframe 3D. *)
Lemma X13_witness :
  failed (ok 65000) = false
  /\ List.length
       (LiquidityClusters.clusters
          (fst (LiquidityClusters.fetchLiquidityClusters always_half "3D" 9
                  (ok 65000) (LiquidityClusters.initial, 0%nat))))
     = LiquidityClusters.numClusters "3D".
Proof.
  split; [reflexivity|].
  exact (proj1 (proj2 (proj2 (proj2 (proj2 (X13_cluster_fetch_outcome
           always_half "3D" 9%Z (ok 65000) LiquidityClusters.initial 0%nat)))
           eq_refl))).
Defined.

(** X15, instance: two buys under constant draws. *)
Lemma X15_witness :
  in_unit always_half
  /\ Forall (fun a => 0 < WhaleAlerts.price a -> on_signal_side a)
       (fst (WhaleAlerts.processWhaleAlerts always_half [tx 100; tx 200] 0%nat)).
Proof.
  split; [apply in_unit_always_half|].
  apply Forall_forall. intros a Ha Hp.
  exact (X15_target_on_the_side_of_the_signal always_half in_unit_always_half
           [tx 100; tx 200] 0%nat a Ha Hp).
Defined.

(** X16, instance: a confidence of 100 beside one confirmation. *)
Lemma X16_witness :
  in_unit draws1
  /\ WhaleAlerts.confidence (fst (WhaleAlerts.toAlert draws1 (tx 100) 0%nat))
     = 100%Z
  /\ WhaleAlerts.confirmations (fst (WhaleAlerts.toAlert draws1 (tx 100) 0%nat))
     = 1%Z.
Proof.
  split; [apply in_unit_draws1|].
  destruct (X16_confirmations_drawn_twice draws1 in_unit_draws1 (tx 100) 0%nat)
    as (C & K & _).
  split; [exact C | exact K].
Defined.

(** X17, instance: a rejected first request. *)
Lemma X17_witness :
  (@Rejected WhaleAlerts.body = Rejected
   \/ @Rejected WhaleAlerts.body = Resolved WhaleAlerts.NotArray)
  /\ WhaleAlerts.isLive
       (fst (WhaleAlerts.fetchWhaleAlerts always_half 5 Rejected
               (WhaleAlerts.initial, 0%nat)))
     = false.
Proof.
  split; [left; reflexivity|].
  exact (proj1 (proj2 (X17_whale_fetch_outcome always_half 5%Z Rejected
           WhaleAlerts.initial 0%nat) (or_introl eq_refl))).
Defined.
